(** * A shallow embedding of the synerfgine renderer core

    The development follows the sources of the hybrid renderer:

    - [syn_world.cu]: the per-pixel intersection and shading kernel
      [gpu_draw_object];
    - [main.frag] and [Display::transfer_texture]: the foveated blit;
    - [engine.cu]: the per-frame staging step [Engine::update_world_objects];
    - [display.cu]: window life cycle and image recording.

    Device and host [float]s are IEEE-754 binary32 values, represented with
    the standard library's [spec_float] and its correctly rounded
    operations.  The shaders are written once over an abstract scalar
    interface: they run on binary32 values, and the geometry of the blit
    triangle, whose coordinates are small integers, is read over the
    reals. *)

From Stdlib Require Import ZArith List Bool Lia Reals Lra.
From Stdlib Require Import Floats.SpecFloat Ascii.
From stdpp Require Import base list gmap strings pretty.
Import ListNotations.

(* ===================================================================== *)
(** * Part I: the model                                                   *)
(* ===================================================================== *)

(** ** IEEE-754 binary32 *)

Module Binary32.

Definition float : Type := spec_float.

Definition prec : Z := 24.
Definition emax : Z := 128.

(** Integer-valued literals such as [0.0], [1.0] or [4.0]. *)
Definition of_Z (z : Z) : float := binary_normalize prec emax z 0 false.



Definition add : float -> float -> float := SFadd prec emax.
Definition sub : float -> float -> float := SFsub prec emax.
Definition mul : float -> float -> float := SFmul prec emax.
Definition div : float -> float -> float := SFdiv prec emax.
Definition sqrt : float -> float := SFsqrt prec emax.
Definition opp : float -> float := SFopp.

(** [x < y] and [x > y] of C++ and GLSL: false as soon as one side is a NaN. *)
Definition ltb (x y : float) : bool := SFltb x y.
Definition gtb (x y : float) : bool := SFltb y x.
Definition leb (x y : float) : bool := SFleb x y.

Definition is_nan (x : float) : bool :=
  match x with S754_nan => true | _ => false end.

(** The literal [0.2]: the binary32 value nearest to one fifth. *)
Definition lit_0_2 : float := div (of_Z 2) (of_Z 10).

(** [std::numeric_limits<float>::max()]. *)
Definition flt_max : float := S754_finite false 16777215 104.

End Binary32.

Abbreviation float := Binary32.float.

Declare Scope f32_scope.
Delimit Scope f32_scope with f32.
Infix "+" := Binary32.add : f32_scope.
Infix "-" := Binary32.sub : f32_scope.
Infix "*" := Binary32.mul : f32_scope.
Infix "/" := Binary32.div : f32_scope.
Infix "<?" := Binary32.ltb : f32_scope.
Infix ">?" := Binary32.gtb : f32_scope.
Infix "<=?" := Binary32.leb : f32_scope.

(** ** Vectors *)

Record vec2 (F : Type) : Type := mk_vec2 { v2x : F; v2y : F }.
Record vec3 (F : Type) : Type := mk_vec3 { v3x : F; v3y : F; v3z : F }.
Record vec4 (F : Type) : Type := mk_vec4 { v4x : F; v4y : F; v4z : F; v4w : F }.
Arguments mk_vec2 {F} _ _.
Arguments mk_vec3 {F} _ _ _.
Arguments mk_vec4 {F} _ _ _ _.
Arguments v2x {F} _.
Arguments v2y {F} _.
Arguments v3x {F} _.
Arguments v3y {F} _.
Arguments v3z {F} _.
Arguments v4x {F} _.
Arguments v4y {F} _.
Arguments v4z {F} _.
Arguments v4w {F} _.

(** [vec3(s)], [vec4(v, w)] and the [.rgb] swizzle. *)
Definition vec3_splat {F} (s : F) : vec3 F := mk_vec3 s s s.
Definition vec4_of {F} (v : vec3 F) (w : F) : vec4 F :=
  mk_vec4 (v3x v) (v3y v) (v3z v) w.
Definition rgb {F} (c : vec4 F) : vec3 F := mk_vec3 (v4x c) (v4y c) (v4z c).

Module Vec3f.
Local Open Scope f32_scope.

(** Component-wise [a + b], [a - b], [v * s] and [s * v] on device vectors. *)
Definition add (a b : vec3 float) : vec3 float :=
  mk_vec3 (v3x a + v3x b) (v3y a + v3y b) (v3z a + v3z b).
Definition sub (a b : vec3 float) : vec3 float :=
  mk_vec3 (v3x a - v3x b) (v3y a - v3y b) (v3z a - v3z b).
Definition scale (v : vec3 float) (s : float) : vec3 float :=
  mk_vec3 (v3x v * s) (v3y v * s) (v3z v * s).
Definition smul (s : float) (v : vec3 float) : vec3 float :=
  mk_vec3 (s * v3x v) (s * v3y v) (s * v3z v).
End Vec3f.

(** ** The intersection and shading kernel ([syn_world.cu]) *)

(** What the kernel takes from headers outside the modelled files: the
    triangle type with its intersector and normal, the two distance
    constants of the [ngp] namespace, and the vector helpers [normalize]
    and [dot]. *)
Class DeviceLib : Type := {
  Triangle : Type;
  ray_intersect : Triangle -> vec3 float -> vec3 float -> float;
  normal : Triangle -> vec3 float;
  MAX_RT_DIST : float;
  MIN_RT_DIST : float;
  normalize : vec3 float -> vec3 float;
  dot : vec3 float -> vec3 float -> float
}.

(** The kernel reads only the position of the light. *)
Record Light : Type := { pos : vec3 float }.

(** The two output planes, indexed by pixel. *)
Record RenderBuffers : Type := {
  rgba : list (vec4 float);
  depth : list float
}.

(** [threadIdx.x], [blockIdx.x] and [blockDim.x] of one device thread. *)
Record Launch : Type := {
  threadIdx_x : N;
  blockIdx_x : N;
  blockDim_x : N
}.

Definition uint32_wrap (n : N) : N := (n mod 2 ^ 32)%N.

(** [threadIdx.x + blockIdx.x * blockDim.x], computed in [uint32_t]. *)
Definition thread_index (l : Launch) : N :=
  uint32_wrap (threadIdx_x l + uint32_wrap (blockIdx_x l * blockDim_x l)).

(** A store through a device pointer; [None] stands for an access outside
    the allocation, for which the program has no defined behaviour. *)
Definition store {A} (buf : list A) (i : N) (x : A) : option (list A) :=
  if decide (N.to_nat i < length buf) then Some (<[N.to_nat i := x]> buf) else None.

Definition load {A} (buf : list A) (i : N) : option A := buf !! N.to_nat i.

(** The locals [dt] and [normal] of the kernel; [normal] is declared
    without an initialiser, hence the [option]. *)
Record Closest : Type := {
  dt : float;
  hit_normal : option (vec3 float)
}.

Section Kernel.
Context `{DeviceLib}.
Local Open Scope f32_scope.

(** The body of the triangle loop. *)
Definition closest_step (ro rd : vec3 float) (c : Closest) (tri : Triangle) : Closest :=
  let t := ray_intersect tri ro rd in
  if (t <? dt c) && (t >? MIN_RT_DIST)
  then {| dt := t; hit_normal := Some (normal tri) |}
  else c.

(** [for (size_t k = 0; k < tri_count; ++k)], with [remaining] iterations
    left before [k] reaches [tri_count]. *)
Fixpoint closest_loop (remaining k : nat) (triangles : list Triangle)
    (ro rd : vec3 float) (c : Closest) : option Closest :=
  match remaining with
  | O => Some c
  | S remaining' =>
      tri ← triangles !! k;
      closest_loop remaining' (S k) triangles ro rd (closest_step ro rd c tri)
  end.

Definition background : vec4 float := vec4_of (vec3_splat (Binary32.of_Z 0)) (Binary32.of_Z 1).

Definition diffuse_tint : vec3 float :=
  mk_vec3 (Binary32.of_Z 1) Binary32.lit_0_2 (Binary32.of_Z 0).

(** One thread of [gpu_draw_object]. *)
Definition gpu_draw_object (l : Launch) (n_elements width height tri_count : N)
    (ray_origins ray_directions : list (vec3 float)) (triangles : list Triangle)
    (sun : Light) (fb : RenderBuffers) : option RenderBuffers :=
  let i := thread_index l in
  if (n_elements <=? i)%N then Some fb else
  rgba1 ← store (rgba fb) i background;
  depth1 ← store (depth fb) i MAX_RT_DIST;
  rd ← load ray_directions i;
  ro ← load ray_origins i;
  c ← closest_loop (N.to_nat tri_count) 0 triangles ro rd
        {| dt := MAX_RT_DIST; hit_normal := None |};
  if dt c <? MAX_RT_DIST then
    n ← hit_normal c;
    let ro' := Vec3f.add ro (Vec3f.scale rd (dt c)) in
    let to_sun := normalize (Vec3f.sub (pos sun) ro') in
    let ndotv := dot n to_sun in
    rgba2 ← store rgba1 i (vec4_of (Vec3f.smul ndotv diffuse_tint) (Binary32.of_Z 1));
    Some {| rgba := rgba2; depth := depth1 |}
  else
    rgba2 ← store rgba1 i background;
    Some {| rgba := rgba2; depth := depth1 |}.

(** A parameter [t] counts as an intersection when it lies strictly
    between the two distance constants. *)
Definition valid_t (t : float) : bool := (t >? MIN_RT_DIST) && (t <? MAX_RT_DIST).

(** What the loop has found after visiting the triangles [l]: nothing, or
    the first triangle among those of least valid parameter. *)
Definition nothing_found (ro rd : vec3 float) (l : list Triangle) (c : Closest) : Prop :=
  (forall j trj, l !! j = Some trj -> valid_t (ray_intersect trj ro rd) = false) /\
  dt c = MAX_RT_DIST /\ hit_normal c = None.

Definition found_at (ro rd : vec3 float) (l : list Triangle) (c : Closest) (k : nat) : Prop :=
  exists tri, l !! k = Some tri /\
    valid_t (ray_intersect tri ro rd) = true /\
    dt c = ray_intersect tri ro rd /\
    hit_normal c = Some (normal tri) /\
    (forall j trj, l !! j = Some trj -> valid_t (ray_intersect trj ro rd) = true ->
       (dt c <=? ray_intersect trj ro rd)%f32 = true) /\
    (forall j trj, j < k -> l !! j = Some trj -> valid_t (ray_intersect trj ro rd) = true ->
       (dt c <? ray_intersect trj ro rd)%f32 = true).

(** The hypotheses under which a thread stays inside its arrays. *)
Definition in_bounds (l : Launch) (n_elements tri_count : N)
    (ray_origins ray_directions : list (vec3 float)) (triangles : list Triangle)
    (fb : RenderBuffers) (ro rd : vec3 float) : Prop :=
  (thread_index l < n_elements)%N /\
  N.to_nat (thread_index l) < length (rgba fb) /\
  N.to_nat (thread_index l) < length (depth fb) /\
  ray_origins !! N.to_nat (thread_index l) = Some ro /\
  ray_directions !! N.to_nat (thread_index l) = Some rd /\
  N.to_nat tri_count <= length triangles.

(** The colour written for a hit on [tri] at parameter [t]. *)
Definition hit_colour (ro rd : vec3 float) (sun : Light) (tri : Triangle) : vec4 float :=
  let t := ray_intersect tri ro rd in
  let ndotv := dot (normal tri) (normalize (Vec3f.sub (pos sun) (Vec3f.add ro (Vec3f.scale rd t)))) in
  vec4_of (Vec3f.smul ndotv diffuse_tint) (Binary32.of_Z 1).

(** The direct lighting in the words of the design:
    [max(0, dot(normal, direction_to_light))] modulated by the albedo of the
    material and by the attenuation factor of the shadow sampler. *)
Definition fmax (x y : float) : float := if x <? y then y else x.

Definition spec_direct_light (n to_light albedo : vec3 float) (attenuation : float)
    : vec3 float :=
  Vec3f.scale (Vec3f.smul (fmax (Binary32.of_Z 0) (dot n to_light)) albedo) attenuation.

End Kernel.

(** ** A reference geometry

    A concrete [DeviceLib] on which the kernel can be run: triangles given by
    three vertices, the determinant-based ray/triangle intersector, and the
    usual [cross], [dot] and [normalize].  The kernel theorems below are
    proved for every [DeviceLib]; this one supplies explicit scenes. *)

Module Scene.
Local Open Scope f32_scope.

Record Tri : Type := { a : vec3 float; b : vec3 float; c : vec3 float }.

Definition cross (u v : vec3 float) : vec3 float :=
  mk_vec3 (v3y u * v3z v - v3z u * v3y v)
          (v3z u * v3x v - v3x u * v3z v)
          (v3x u * v3y v - v3y u * v3x v).

Definition dot3 (u v : vec3 float) : float :=
  Binary32.of_Z 0 + v3x u * v3x v + v3y u * v3y v + v3z u * v3z v.

Definition length3 (v : vec3 float) : float := Binary32.sqrt (dot3 v v).

Definition normalize3 (v : vec3 float) : vec3 float :=
  let len := length3 v in mk_vec3 (v3x v / len) (v3y v / len) (v3z v / len).

Definition tri_normal (t : Tri) : vec3 float :=
  normalize3 (cross (Vec3f.sub (b t) (a t)) (Vec3f.sub (c t) (a t))).

Definition tri_ray_intersect (tr : Tri) (ro rd : vec3 float) : float :=
  let v1v0 := Vec3f.sub (b tr) (a tr) in
  let v2v0 := Vec3f.sub (c tr) (a tr) in
  let rov0 := Vec3f.sub ro (a tr) in
  let n := cross v1v0 v2v0 in
  let q := cross rov0 rd in
  let d := Binary32.of_Z 1 / dot3 rd n in
  let u := d * Binary32.opp (dot3 q v2v0) in
  let v := d * dot3 q v1v0 in
  let t := d * Binary32.opp (dot3 n rov0) in
  if (u <? Binary32.of_Z 0) || (u >? Binary32.of_Z 1) || (v <? Binary32.of_Z 0)
     || (u + v >? Binary32.of_Z 1) || (t <? Binary32.of_Z 0)
  then Binary32.flt_max
  else t.

#[export] Instance device : DeviceLib := {|
  Triangle := Tri;
  ray_intersect := tri_ray_intersect;
  normal := tri_normal;
  MAX_RT_DIST := Binary32.of_Z 1024;
  MIN_RT_DIST := Binary32.of_Z 1 / Binary32.of_Z 1024;
  normalize := normalize3;
  dot := dot3
|}.

Definition pt (x y z : Z) : vec3 float :=
  mk_vec3 (Binary32.of_Z x) (Binary32.of_Z y) (Binary32.of_Z z).

(** The triangle (0,0,0)-(1,0,0)-(0,1,0), the same triangle with the
    opposite winding, and a parallel one at height 1. *)
Definition floor_tri : Triangle := {| a := pt 0 0 0; b := pt 1 0 0; c := pt 0 1 0 |}.
Definition floor_tri_flipped : Triangle := {| a := pt 0 0 0; b := pt 0 1 0; c := pt 1 0 0 |}.
Definition shelf_tri : Triangle := {| a := pt 0 0 1; b := pt 1 0 1; c := pt 0 1 1 |}.

(** A ray from (1/4, 1/4, 5) looking down the z axis. *)
Definition quarter : float := Binary32.of_Z 1 / Binary32.of_Z 4.
Definition eye : vec3 float := mk_vec3 quarter quarter (Binary32.of_Z 5).
Definition down : vec3 float := pt 0 0 (-1).
(** A ray from the same place looking sideways: it meets no triangle. *)
Definition sideways : vec3 float := pt 1 0 0.

Definition sun_above : Light := {| pos := mk_vec3 quarter quarter (Binary32.of_Z 5) |}.
Definition sun_below : Light := {| pos := mk_vec3 quarter quarter (Binary32.of_Z (-5)) |}.

(** Three triangles under the eye: two in the plane z = 0, met at
    parameter 5, and one in the plane z = 1, met at parameter 4. *)
Definition stack : list Triangle := [floor_tri; floor_tri_flipped; shelf_tri].

(** A clear colour other than black, as a scene configuration may give. *)
Definition white : vec3 float := pt 1 1 1.

Definition thread0 : Launch := {| threadIdx_x := 0; blockIdx_x := 0; blockDim_x := 128 |}.

Definition blank : RenderBuffers :=
  {| rgba := [mk_vec4 (Binary32.of_Z 7) (Binary32.of_Z 7) (Binary32.of_Z 7) (Binary32.of_Z 7)];
     depth := [Binary32.of_Z 7] |}.

End Scene.


(** ** Scalars of the shading language

    The shaders are written over this interface.  It is instantiated with
    binary32 values, to run them, and with the reals, for the positions of
    the three vertices of the blit. *)

Class Scalar (F : Type) : Type := {
  lit : Z -> F;
  plus : F -> F -> F;
  minus : F -> F -> F;
  times : F -> F -> F;
  over : F -> F -> F;
  root : F -> F;
  less : F -> F -> bool
}.

Declare Scope glsl_scope.
Delimit Scope glsl_scope with glsl.
Infix "+" := plus : glsl_scope.
Infix "-" := minus : glsl_scope.
Infix "*" := times : glsl_scope.
Infix "/" := over : glsl_scope.
Infix "<?" := less : glsl_scope.
Notation "x >? y" := (less y x) : glsl_scope.

#[export] Instance Scalar_binary32 : Scalar float := {|
  lit := Binary32.of_Z;
  plus := Binary32.add;
  minus := Binary32.sub;
  times := Binary32.mul;
  over := Binary32.div;
  root := Binary32.sqrt;
  less := Binary32.ltb
|}.

#[export] Instance Scalar_R : Scalar R := {|
  lit := IZR;
  plus := Rplus;
  minus := Rminus;
  times := Rmult;
  over := Rdiv;
  root := R_sqrt.sqrt;
  less := fun x y => if Rlt_dec x y then true else false
|}.

(** ** The fragment shader ([main.frag]) *)

Module Frag.
Section WithScalar.
Context {F : Type} `{Scalar F}.
Local Open Scope glsl_scope.

(** The built-ins [max], [min] and [clamp]. *)
Definition max (x y : F) : F := if x <? y then y else x.
Definition min (x y : F) : F := if y <? x then y else x.
Definition clamp (x minVal maxVal : F) : F := min (max x minVal) maxVal.

Record FoveationWarp : Type := {
  al : F; bl : F; cl : F;
  am : F; bm : F;
  ar : F; br : F; cr : F;
  switch_left : F; switch_right : F;
  inv_switch_left : F; inv_switch_right : F
}.

(** [float unwarp(in FoveationWarp warp, float y)] *)
Definition unwarp (warp : FoveationWarp) (y : F) : F :=
  let y := clamp y (lit 0) (lit 1) in
  if y <? inv_switch_left warp then
    (root (lit (-4) * al warp * cl warp + lit 4 * al warp * y + bl warp * bl warp) - bl warp)
    / (lit 2 * al warp)
  else if y >? inv_switch_right warp then
    (root (lit (-4) * ar warp * cr warp + lit 4 * ar warp * y + br warp * br warp) - br warp)
    / (lit 2 * ar warp)
  else
    (y - bm warp) / am warp.

(** The uniforms of the shader; a sampler holds the index of a texture unit. *)
Record Uniforms : Type := {
  syn_rgba : Z;
  syn_depth : Z;
  nerf_rgba : Z;
  nerf_depth : Z;
  nerf_resolution : Z * Z;
  syn_resolution : Z * Z;
  full_resolution : Z * Z;
  warp_x : FoveationWarp;
  warp_y : FoveationWarp
}.

(** [vec2 unwarp(in vec2 pos)] *)
Definition unwarp2 (u : Uniforms) (pos : vec2 F) : vec2 F :=
  mk_vec2 (unwarp (warp_x u) (v2x pos)) (unwarp (warp_y u) (v2y pos)).

Record FragOut : Type := {
  frag_color : vec4 F;
  gl_FragDepth : F
}.

(** [void main()], for the interpolated input [UVs]; [texture] samples the
    texture bound to a unit. *)
Definition main (u : Uniforms) (texture : Z -> vec2 F -> vec4 F) (UVs : vec2 F) : FragOut :=
  let syn_pixel_size := Z.quot (fst (full_resolution u)) (fst (syn_resolution u)) in
  let nerf_pixel_size := Z.quot (fst (full_resolution u)) (fst (nerf_resolution u)) in
  let tex_coords := UVs in
  let tex_coords := mk_vec2 (v2x tex_coords) (lit 1 - v2y tex_coords) in
  let tex_coords := unwarp2 u tex_coords in
  let view_coords := mk_vec4 (v2x tex_coords) (v2y tex_coords) (lit 1) (lit 1) in
  let syn := texture (syn_rgba u) tex_coords in
  let sd := v4x (texture (syn_depth u) tex_coords) in
  {| frag_color := vec4_of (rgb syn) (lit 1); gl_FragDepth := sd |}.

(** The compositing rule in the words of the design: both buffers are
    sampled at the unwarped coordinate and the synthetic sample is
    alpha-composited over the neural one. *)
Definition spec_over (syn nerf : vec4 F) : vec4 F :=
  mk_vec4 (v4x syn * v4w syn + v4x nerf * (lit 1 - v4w syn))
          (v4y syn * v4w syn + v4y nerf * (lit 1 - v4w syn))
          (v4z syn * v4w syn + v4z nerf * (lit 1 - v4w syn))
          (v4w syn + v4w nerf * (lit 1 - v4w syn)).

Definition spec_composite (u : Uniforms) (texture : Z -> vec2 F -> vec4 F)
    (UVs : vec2 F) : vec4 F :=
  let tex_coords := unwarp2 u (mk_vec2 (v2x UVs) (lit 1 - v2y UVs)) in
  spec_over (texture (syn_rgba u) tex_coords) (texture (nerf_rgba u) tex_coords).

End WithScalar.
Arguments FoveationWarp F : clear implicits.
Arguments Uniforms F : clear implicits.
Arguments FragOut F : clear implicits.
End Frag.

(** ** The part of the OpenGL state machine used by the blit *)

Module GL.

Definition GL_NEAREST : Z := 9728.
Definition GL_LINEAR : Z := 9729.
Definition GL_NEAREST_MIPMAP_LINEAR : Z := 9986.
Definition GL_REPEAT : Z := 10497.
Definition GL_LESS : Z := 513.
Definition GL_ALWAYS : Z := 519.

Inductive Cap : Type := GL_TEXTURE_2D | GL_DEPTH_TEST | GL_CULL_FACE.

Inductive TexPname : Type :=
  | GL_TEXTURE_WRAP_S | GL_TEXTURE_WRAP_T
  | GL_TEXTURE_MIN_FILTER | GL_TEXTURE_MAG_FILTER.

Record TexParams : Type := {
  wrap_s : Z;
  wrap_t : Z;
  min_filter : Z;
  mag_filter : Z
}.

(** The parameters of a texture object nobody has set yet. *)
Definition initial_params : TexParams :=
  {| wrap_s := GL_REPEAT; wrap_t := GL_REPEAT;
     min_filter := GL_NEAREST_MIPMAP_LINEAR; mag_filter := GL_LINEAR |}.

Definition set_param (pname : TexPname) (v : Z) (p : TexParams) : TexParams :=
  match pname with
  | GL_TEXTURE_WRAP_S =>
      {| wrap_s := v; wrap_t := wrap_t p; min_filter := min_filter p; mag_filter := mag_filter p |}
  | GL_TEXTURE_WRAP_T =>
      {| wrap_s := wrap_s p; wrap_t := v; min_filter := min_filter p; mag_filter := mag_filter p |}
  | GL_TEXTURE_MIN_FILTER =>
      {| wrap_s := wrap_s p; wrap_t := wrap_t p; min_filter := v; mag_filter := mag_filter p |}
  | GL_TEXTURE_MAG_FILTER =>
      {| wrap_s := wrap_s p; wrap_t := wrap_t p; min_filter := min_filter p; mag_filter := v |}
  end.

(** Fixed-function state touched by the blit. *)
Record Raster : Type := {
  cap_texture_2d : bool;
  cap_depth_test : bool;
  cap_cull_face : bool;
  depth_func : Z;
  depth_mask : bool;
  vertex_array : Z;
  framebuffer : Z;
  viewport : Z * Z * Z * Z
}.

Definition set_cap (cap : Cap) (b : bool) (r : Raster) : Raster :=
  {| cap_texture_2d := match cap with GL_TEXTURE_2D => b | _ => cap_texture_2d r end;
     cap_depth_test := match cap with GL_DEPTH_TEST => b | _ => cap_depth_test r end;
     cap_cull_face := match cap with GL_CULL_FACE => b | _ => cap_cull_face r end;
     depth_func := depth_func r; depth_mask := depth_mask r;
     vertex_array := vertex_array r; framebuffer := framebuffer r; viewport := viewport r |}.

Definition get_cap (cap : Cap) (r : Raster) : bool :=
  match cap with
  | GL_TEXTURE_2D => cap_texture_2d r
  | GL_DEPTH_TEST => cap_depth_test r
  | GL_CULL_FACE => cap_cull_face r
  end.

Definition set_depth_func (func : Z) (r : Raster) : Raster :=
  {| cap_texture_2d := cap_texture_2d r; cap_depth_test := cap_depth_test r;
     cap_cull_face := cap_cull_face r; depth_func := func; depth_mask := depth_mask r;
     vertex_array := vertex_array r; framebuffer := framebuffer r; viewport := viewport r |}.

Definition set_depth_mask (flag : bool) (r : Raster) : Raster :=
  {| cap_texture_2d := cap_texture_2d r; cap_depth_test := cap_depth_test r;
     cap_cull_face := cap_cull_face r; depth_func := depth_func r; depth_mask := flag;
     vertex_array := vertex_array r; framebuffer := framebuffer r; viewport := viewport r |}.

Definition set_vertex_array (array : Z) (r : Raster) : Raster :=
  {| cap_texture_2d := cap_texture_2d r; cap_depth_test := cap_depth_test r;
     cap_cull_face := cap_cull_face r; depth_func := depth_func r; depth_mask := depth_mask r;
     vertex_array := array; framebuffer := framebuffer r; viewport := viewport r |}.

Definition set_framebuffer (fbo : Z) (r : Raster) : Raster :=
  {| cap_texture_2d := cap_texture_2d r; cap_depth_test := cap_depth_test r;
     cap_cull_face := cap_cull_face r; depth_func := depth_func r; depth_mask := depth_mask r;
     vertex_array := vertex_array r; framebuffer := fbo; viewport := viewport r |}.

Definition set_viewport (v : Z * Z * Z * Z) (r : Raster) : Raster :=
  {| cap_texture_2d := cap_texture_2d r; cap_depth_test := cap_depth_test r;
     cap_cull_face := cap_cull_face r; depth_func := depth_func r; depth_mask := depth_mask r;
     vertex_array := vertex_array r; framebuffer := framebuffer r; viewport := v |}.

(** Repeat wrapping with one filter for minification and magnification. *)
Definition sampling (filter : Z) : TexParams :=
  {| wrap_s := GL_REPEAT; wrap_t := GL_REPEAT; min_filter := filter; mag_filter := filter |}.

Section WithScalar.
Context {F : Type} `{Scalar F}.

Inductive UniformValue : Type :=
  | U1i (v : Z)
  | U2i (x y : Z)
  | U1f (v : F).

(** How the image of a texture object answers a lookup, given the
    sampling parameters in force. *)
Definition Image : Type := TexParams -> vec2 F -> vec4 F.

(** The display creates a single program, so the uniform store is keyed by
    uniform name; texture units and texture objects are keyed by their
    number. *)
Record State : Type := {
  raster : Raster;
  program : Z;
  uniforms : gmap string UniformValue;
  active_texture : Z;
  texture_binding_2d : gmap Z Z;
  tex_params : gmap Z TexParams;
  tex_image : gmap Z Image
}.

(** The context: the current state and the state captured at each draw call. *)
Record Context : Type := {
  now : State;
  drawn : list State
}.

(** Commands thread the context. *)
Definition Cmd (A : Type) : Type := Context -> A * Context.

Definition ret {A} (x : A) : Cmd A := fun g => (x, g).
Definition bind {A B} (c : Cmd A) (k : A -> Cmd B) : Cmd B :=
  fun g => let '(x, g') := c g in k x g'.
Definition get {A} (f : State -> A) : Cmd A := fun g => (f (now g), g).
Definition modify (f : State -> State) : Cmd unit :=
  fun g => (tt, {| now := f (now g); drawn := drawn g |}).

Definition with_raster (f : Raster -> Raster) (s : State) : State :=
  {| raster := f (raster s); program := program s; uniforms := uniforms s;
     active_texture := active_texture s; texture_binding_2d := texture_binding_2d s;
     tex_params := tex_params s; tex_image := tex_image s |}.

Definition glIsEnabled (cap : Cap) : Cmd bool := get (fun s => get_cap cap (raster s)).
Definition glEnable (cap : Cap) : Cmd unit := modify (with_raster (set_cap cap true)).
Definition glDisable (cap : Cap) : Cmd unit := modify (with_raster (set_cap cap false)).
Definition glDepthFunc (func : Z) : Cmd unit := modify (with_raster (set_depth_func func)).
Definition glDepthMask (flag : bool) : Cmd unit := modify (with_raster (set_depth_mask flag)).
Definition glBindVertexArray (array : Z) : Cmd unit :=
  modify (with_raster (set_vertex_array array)).
Definition glBindFramebuffer (fbo : Z) : Cmd unit := modify (with_raster (set_framebuffer fbo)).
Definition glViewport (x y w h : Z) : Cmd unit := modify (with_raster (set_viewport (x, y, w, h))).

Definition set_program (p : Z) (s : State) : State :=
  {| raster := raster s; program := p; uniforms := uniforms s;
     active_texture := active_texture s; texture_binding_2d := texture_binding_2d s;
     tex_params := tex_params s; tex_image := tex_image s |}.

Definition set_uniform (name : string) (v : UniformValue) (s : State) : State :=
  {| raster := raster s; program := program s;
     uniforms := <[name := v]> (uniforms s);
     active_texture := active_texture s; texture_binding_2d := texture_binding_2d s;
     tex_params := tex_params s; tex_image := tex_image s |}.

Definition set_active_texture (texunit : Z) (s : State) : State :=
  {| raster := raster s; program := program s; uniforms := uniforms s;
     active_texture := texunit; texture_binding_2d := texture_binding_2d s;
     tex_params := tex_params s; tex_image := tex_image s |}.

Definition bind_texture_2d (texture : Z) (s : State) : State :=
  {| raster := raster s; program := program s; uniforms := uniforms s;
     active_texture := active_texture s;
     texture_binding_2d := <[active_texture s := texture]> (texture_binding_2d s);
     tex_params := tex_params s; tex_image := tex_image s |}.

(** The texture object bound to the active unit (object 0 when none is)
    and the parameters of a texture object. *)
Definition bound_texture (s : State) : Z :=
  default 0%Z (texture_binding_2d s !! active_texture s).
Definition params_of (s : State) (texture : Z) : TexParams :=
  default initial_params (tex_params s !! texture).

(** A texture parameter belongs to the texture object bound to the active
    unit, not to the unit. *)
Definition set_tex_param (pname : TexPname) (param : Z) (s : State) : State :=
  {| raster := raster s; program := program s; uniforms := uniforms s;
     active_texture := active_texture s; texture_binding_2d := texture_binding_2d s;
     tex_params :=
       <[bound_texture s := set_param pname param (params_of s (bound_texture s))]>
         (tex_params s);
     tex_image := tex_image s |}.

Definition glUseProgram (p : Z) : Cmd unit := modify (set_program p).

(** A uniform location is represented by the name it was queried with. *)
Definition glGetUniformLocation (p : Z) (name : string) : Cmd string := ret name.
Definition glUniform1i (location : string) (v : Z) : Cmd unit :=
  modify (set_uniform location (U1i v)).
Definition glUniform1iv (location : string) (v : Z) : Cmd unit :=
  modify (set_uniform location (U1i v)).
Definition glUniform2iv (location : string) (v : Z * Z) : Cmd unit :=
  modify (set_uniform location (U2i (fst v) (snd v))).
Definition glUniform1f (location : string) (v : F) : Cmd unit :=
  modify (set_uniform location (U1f v)).

(** [glActiveTexture(GL_TEXTURE0 + texunit)], [glBindTexture(GL_TEXTURE_2D, texture)]
    and [glTexParameteri(GL_TEXTURE_2D, pname, param)]. *)
Definition glActiveTexture (texunit : Z) : Cmd unit := modify (set_active_texture texunit).
Definition glBindTexture (texture : Z) : Cmd unit := modify (bind_texture_2d texture).
Definition glTexParameteri (pname : TexPname) (param : Z) : Cmd unit :=
  modify (set_tex_param pname param).

(** [glDrawArrays(GL_TRIANGLES, first, count)]: the fragments of the draw
    are shaded in the state current at the call. *)
Definition glDrawArrays (first count : Z) : Cmd unit :=
  fun g => (tt, {| now := now g; drawn := drawn g ++ [now g] |}).

(** *** Shading a fragment in a captured state *)

Definition uniform_int (s : State) (name : string) : Z :=
  match uniforms s !! name with Some (U1i v) => v | _ => 0%Z end.
Definition uniform_ivec2 (s : State) (name : string) : Z * Z :=
  match uniforms s !! name with Some (U2i x y) => (x, y) | _ => (0%Z, 0%Z) end.
Definition uniform_float (s : State) (name : string) : F :=
  match uniforms s !! name with Some (U1f v) => v | _ => lit 0 end.

Definition uniform_warp (s : State) (name : string) : Frag.FoveationWarp F :=
  {| Frag.al := uniform_float s (String.append name ".al");
     Frag.bl := uniform_float s (String.append name ".bl");
     Frag.cl := uniform_float s (String.append name ".cl");
     Frag.am := uniform_float s (String.append name ".am");
     Frag.bm := uniform_float s (String.append name ".bm");
     Frag.ar := uniform_float s (String.append name ".ar");
     Frag.br := uniform_float s (String.append name ".br");
     Frag.cr := uniform_float s (String.append name ".cr");
     Frag.switch_left := uniform_float s (String.append name ".switch_left");
     Frag.switch_right := uniform_float s (String.append name ".switch_right");
     Frag.inv_switch_left := uniform_float s (String.append name ".inv_switch_left");
     Frag.inv_switch_right := uniform_float s (String.append name ".inv_switch_right") |}.

Definition shader_uniforms (s : State) : Frag.Uniforms F :=
  {| Frag.syn_rgba := uniform_int s "syn_rgba";
     Frag.syn_depth := uniform_int s "syn_depth";
     Frag.nerf_rgba := uniform_int s "nerf_rgba";
     Frag.nerf_depth := uniform_int s "nerf_depth";
     Frag.nerf_resolution := uniform_ivec2 s "nerf_resolution";
     Frag.syn_resolution := uniform_ivec2 s "syn_resolution";
     Frag.full_resolution := uniform_ivec2 s "full_resolution";
     Frag.warp_x := uniform_warp s "warp_x";
     Frag.warp_y := uniform_warp s "warp_y" |}.

(** A lookup through a unit: the image of the bound texture object under
    that object's parameters; opaque black when the unit has no image. *)
Definition texture (s : State) (texunit : Z) (coords : vec2 F) : vec4 F :=
  match texture_binding_2d s !! texunit with
  | Some t =>
      match tex_image s !! t with
      | Some image => image (params_of s t) coords
      | None => mk_vec4 (lit 0) (lit 0) (lit 0) (lit 1)
      end
  | None => mk_vec4 (lit 0) (lit 0) (lit 0) (lit 1)
  end.

Definition shade (s : State) (UVs : vec2 F) : Frag.FragOut F :=
  Frag.main (shader_uniforms s) (texture s) UVs.

End WithScalar.
Arguments UniformValue F : clear implicits.
Arguments Image F : clear implicits.
Arguments State F : clear implicits.
Arguments Context F : clear implicits.
Arguments Cmd F A : clear implicits.
End GL.

#[export] Instance Cmd_ret {F : Type} : MRet (GL.Cmd F) := fun A => @GL.ret F A.
#[export] Instance Cmd_bind {F : Type} : MBind (GL.Cmd F) := fun A B k c => @GL.bind F A B c k.

(** ** Stores written in sequence

    Reading a store after a run of writes: the most recent write to the key
    decides. *)
Fixpoint writes {V} (l : list (string * V)) (m : gmap string V) : gmap string V :=
  match l with
  | [] => m
  | (k, v) :: l' => <[k := v]> (writes l' m)
  end.

Fixpoint written {V} (l : list (string * V)) (k : string) : option V :=
  match l with
  | [] => None
  | (k', v) :: l' => if String.eqb k' k then Some v else written l' k
  end.

(** ** Window life cycle and recording ([display.cu]) *)

(** A function either returns or throws a [std::runtime_error]. *)
Inductive Outcome (A : Type) : Type :=
  | Returned (x : A)
  | Thrown (what : string).
Arguments Returned {A} _.
Arguments Thrown {A} _.

(** Calls into the window system, the shader compiler and the UI toolkit,
    in the order they are made. *)
Inductive PlatformCall : Type :=
  | GlfwSetErrorCallback
  | GlfwInit
  | GlfwCreateWindow (resw resh : Z)
  | GlfwMakeContextCurrent (window : Z)
  | GlLoaderInit
  | GlfwSwapInterval (interval : Z)
  | InitOpenglShaders (frag_fp : string)
  | InitImgui (window : Z)
  | ImGuiImplOpenGL3Shutdown
  | ImGuiImplGlfwShutdown
  | ImGuiDestroyContext
  | GlfwDestroyWindow (window : option Z)
  | GlfwTerminate.

(** An image file written by [stbi_write_png]. *)
Record ImageFile : Type := {
  img_path : string;
  img_width : Z;
  img_height : Z;
  img_channels : Z;
  img_stride : Z
}.

(** State shared by the whole process: the static member
    [Display::m_is_init], the calls made so far and the files written. *)
Record Process : Type := {
  m_is_init : bool;
  calls : list PlatformCall;
  files : list ImageFile
}.

(** The members of one [Display] object; a null [m_glfw_window] is [None]. *)
Record Display : Type := {
  m_glfw_window : option Z;
  m_img_count : Z;
  m_img_count_max : Z;
  m_blit_program : Z;
  m_blit_vao : Z;
  m_writing_buffer_size : Z
}.

(** What the platform answers during an initialisation. *)
Record Host : Type := {
  glfwInit_ok : bool;
  created_window : option Z;
  gl_loader_ok : bool;
  gl_version_major : Z;
  gl_version_minor : Z;
  linked_program : Z;
  generated_vao : Z
}.

Definition log (c : PlatformCall) (p : Process) : Process :=
  {| m_is_init := m_is_init p; calls := calls p ++ [c]; files := files p |}.

Definition set_is_init (b : bool) (p : Process) : Process :=
  {| m_is_init := b; calls := calls p; files := files p |}.

Definition set_window (w : option Z) (d : Display) : Display :=
  {| m_glfw_window := w; m_img_count := m_img_count d;
     m_img_count_max := m_img_count_max d; m_blit_program := m_blit_program d;
     m_blit_vao := m_blit_vao d; m_writing_buffer_size := m_writing_buffer_size d |}.

Definition set_img_count (n : Z) (d : Display) : Display :=
  {| m_glfw_window := m_glfw_window d; m_img_count := n;
     m_img_count_max := m_img_count_max d; m_blit_program := m_blit_program d;
     m_blit_vao := m_blit_vao d; m_writing_buffer_size := m_writing_buffer_size d |}.

Definition set_blit (program vao : Z) (d : Display) : Display :=
  {| m_glfw_window := m_glfw_window d; m_img_count := m_img_count d;
     m_img_count_max := m_img_count_max d; m_blit_program := program;
     m_blit_vao := vao; m_writing_buffer_size := m_writing_buffer_size d |}.

Definition set_writing_buffer_size (n : Z) (d : Display) : Display :=
  {| m_glfw_window := m_glfw_window d; m_img_count := m_img_count d;
     m_img_count_max := m_img_count_max d; m_blit_program := m_blit_program d;
     m_blit_vao := m_blit_vao d; m_writing_buffer_size := n |}.

(** [Display::init_glfw] *)
Definition init_glfw (h : Host) (resw resh : Z) (d : Display) (p : Process)
    : Outcome (option Z) * Display * Process :=
  let p := log GlfwSetErrorCallback p in
  let p := log GlfwInit p in
  if negb (glfwInit_ok h) then (Thrown "GLFW could not be initialized.", d, p) else
  let p := log (GlfwCreateWindow resw resh) p in
  let d := set_window (created_window h) d in
  match m_glfw_window d with
  | None => (Thrown "GLFW window could not be created.", d, p)
  | Some w =>
      let p := log (GlfwMakeContextCurrent w) p in
      let p := log GlLoaderInit p in
      if negb (gl_loader_ok h) then (Thrown "GL loader could not be initialized.", d, p) else
      let p := log (GlfwSwapInterval 0) p in
      if (gl_version_major h <? 3)%Z
         || ((gl_version_major h =? 3)%Z && (gl_version_minor h <? 1)%Z)
      then (Thrown "Unsupported OpenGL version.", d, p)
      else (Returned (m_glfw_window d), d, p)
  end.

(** [Display::init_opengl_shaders] and [Display::init_imgui], as far as the
    members of the display are concerned. *)
Definition init_opengl_shaders (h : Host) (frag_fp : string) (d : Display) (p : Process)
    : Display * Process :=
  (set_blit (linked_program h) (generated_vao h) d, log (InitOpenglShaders frag_fp) p).

Definition init_imgui (d : Display) (p : Process) : Display * Process :=
  (d, log (InitImgui (default 0%Z (m_glfw_window d))) p).

(** [Display::init_window] *)
Definition init_window (h : Host) (resw resh : Z) (frag_fp : string)
    (d : Display) (p : Process) : Outcome (option Z) * Display * Process :=
  if m_is_init p then (Returned None, d, p) else
  match init_glfw h resw resh d p with
  | (Thrown what, d, p) => (Thrown what, d, p)
  | (Returned w, d, p) =>
      let d := set_window w d in
      let d := set_img_count 0 d in
      let '(d, p) := init_opengl_shaders h frag_fp d p in
      let '(d, p) := init_imgui d p in
      let p := set_is_init true p in
      (Returned (m_glfw_window d), d, p)
  end.

(** [Display::destroy] *)
Definition destroy (d : Display) (p : Process) : Display * Process :=
  if negb (m_is_init p) then (d, p) else
  let p := log ImGuiImplOpenGL3Shutdown p in
  let p := log ImGuiImplGlfwShutdown p in
  let p := log ImGuiDestroyContext p in
  let p := log (GlfwDestroyWindow (m_glfw_window d)) p in
  let p := log GlfwTerminate p in
  let d := set_window None d in
  let p := set_is_init false p in
  (d, p).

(** The image counter is an [int]; increments wrap as on the target. *)
Definition int_wrap (z : Z) : Z := ((z + 2 ^ 31) mod 2 ^ 32 - 2 ^ 31)%Z.

(** [Display::advance_image_count]: [return m_img_count++ < m_img_count_max;] *)
Definition advance_image_count (d : Display) : bool * Display :=
  let old := m_img_count d in
  let d := set_img_count (int_wrap (old + 1)) d in
  ((old <? m_img_count_max d)%Z, d).

(** The format [{:#03}]: decimal, zero-padded to three characters,
    the sign counting as one. *)
Definition pad_zeros (width : nat) (s : string) : string :=
  String.append (String.concat "" (replicate (width - String.length s) "0"%string)) s.

Definition fmt_03 (n : Z) : string :=
  if (n <? 0)%Z then String.append "-" (pad_zeros 2 (pretty (- n)%Z))
  else pad_zeros 3 (pretty n).

(** [Display::save_image], for a framebuffer of the given size.  [stride]
    and [bufferSize] are [GLsizei], a 32-bit [int], and wrap like the
    counter. *)
Definition save_image (width height : Z) (filepath : string) (d : Display) (p : Process)
    : bool * Display * Process :=
  if (m_img_count d >? m_img_count_max d)%Z then (false, d, p) else
  let nrChannels := 3%Z in
  let stride := int_wrap (nrChannels * width) in
  let stride :=
    int_wrap (stride + (if (Z.rem stride 4 =? 0)%Z then 0 else 4 - Z.rem stride 4)) in
  let bufferSize := int_wrap (stride * height) in
  let d := set_writing_buffer_size bufferSize d in
  let d := set_img_count (int_wrap (m_img_count d + 1)) d in
  let full_fp :=
    String.append filepath
      (String.append "/output-" (String.append (fmt_03 (m_img_count d)) ".png")) in
  let p := {| m_is_init := m_is_init p; calls := calls p;
              files := files p ++ [{| img_path := full_fp; img_width := width;
                                      img_height := height; img_channels := nrChannels;
                                      img_stride := stride |}] |} in
  (true, d, p).

(** The end of [Engine::frame]: the value the frame returns to the render
    loop.  [has_output] is [!m_output_dest.empty()]. *)
Definition frame_result (has_output m_end_on_loop is_alive : bool)
    (width height : Z) (m_output_dest : string) (d : Display) (p : Process)
    : bool * Display * Process :=
  if has_output then save_image width height m_output_dest d p
  else if m_end_on_loop then
    let '(r, d) := advance_image_count d in (r, d, p)
  else (is_alive, d, p).

(** The render loop of [main_func], [while (true) { if (!frame()) break; }],
    for a recording engine; [None] when [fuel] frames were not enough to
    see it stop. *)
Fixpoint record_loop (fuel : nat) (width height : Z) (m_output_dest : string)
    (d : Display) (p : Process) : option (Display * Process) :=
  match fuel with
  | O => None
  | S fuel' =>
      let '(go_next_frame, d, p) :=
        frame_result true false true width height m_output_dest d p in
      if go_next_frame then record_loop fuel' width height m_output_dest d p
      else Some (d, p)
  end.

(** [n] successive calls of [advance_image_count], with their results. *)
Fixpoint advance_image_counts (n : nat) (d : Display) : list bool * Display :=
  match n with
  | O => ([], d)
  | S n' =>
      let '(r, d) := advance_image_count d in
      let '(rs, d) := advance_image_counts n' d in
      (r :: rs, d)
  end.

(** A platform on which the initialisation goes through: the window system
    starts, hands out the window [w], the loader succeeds and the OpenGL
    version is at least 3.1. *)
Definition working_host (h : Host) (w : Z) : Prop :=
  glfwInit_ok h = true /\ created_window h = Some w /\ gl_loader_ok h = true /\
  (gl_version_major h <? 3)%Z || ((gl_version_major h =? 3)%Z && (gl_version_minor h <? 1)%Z)
    = false.

(** ** A reference session *)

Module Session.

Definition host : Host :=
  {| glfwInit_ok := true; created_window := Some 7%Z; gl_loader_ok := true;
     gl_version_major := 4; gl_version_minor := 6;
     linked_program := 1; generated_vao := 1 |}.

(** A display before its first initialisation, set to record three images. *)
Definition display : Display :=
  {| m_glfw_window := None; m_img_count := 0; m_img_count_max := 3;
     m_blit_program := 0; m_blit_vao := 0; m_writing_buffer_size := 0 |}.

Definition process : Process := {| m_is_init := false; calls := []; files := [] |}.

(** The same display and process once [init_window] has run. *)
Definition started : Outcome (option Z) * Display * Process :=
  init_window host 1280 720 "../main.frag" display process.

End Session.

(** ** The blit ([Display::transfer_texture]) *)

Record Foveation (F : Type) : Type := {
  fov_warp_x : Frag.FoveationWarp F;
  fov_warp_y : Frag.FoveationWarp F
}.
Arguments fov_warp_x {F} _.
Arguments fov_warp_y {F} _.

Section Blit.
Context {F : Type} `{Scalar F}.
Import GL.

(** The lambda [bind_warp]. *)
Definition bind_warp (m_blit_program : Z) (warp : Frag.FoveationWarp F)
    (uniform_name : string) : Cmd F unit :=
  loc ← glGetUniformLocation m_blit_program (String.append uniform_name ".al");
  glUniform1f loc (Frag.al warp);;
  loc ← glGetUniformLocation m_blit_program (String.append uniform_name ".bl");
  glUniform1f loc (Frag.bl warp);;
  loc ← glGetUniformLocation m_blit_program (String.append uniform_name ".cl");
  glUniform1f loc (Frag.cl warp);;
  loc ← glGetUniformLocation m_blit_program (String.append uniform_name ".am");
  glUniform1f loc (Frag.am warp);;
  loc ← glGetUniformLocation m_blit_program (String.append uniform_name ".bm");
  glUniform1f loc (Frag.bm warp);;
  loc ← glGetUniformLocation m_blit_program (String.append uniform_name ".ar");
  glUniform1f loc (Frag.ar warp);;
  loc ← glGetUniformLocation m_blit_program (String.append uniform_name ".br");
  glUniform1f loc (Frag.br warp);;
  loc ← glGetUniformLocation m_blit_program (String.append uniform_name ".cr");
  glUniform1f loc (Frag.cr warp);;
  loc ← glGetUniformLocation m_blit_program (String.append uniform_name ".switch_left");
  glUniform1f loc (Frag.switch_left warp);;
  loc ← glGetUniformLocation m_blit_program (String.append uniform_name ".switch_right");
  glUniform1f loc (Frag.switch_right warp);;
  loc ← glGetUniformLocation m_blit_program (String.append uniform_name ".inv_switch_left");
  glUniform1f loc (Frag.inv_switch_left warp);;
  loc ← glGetUniformLocation m_blit_program (String.append uniform_name ".inv_switch_right");
  glUniform1f loc (Frag.inv_switch_right warp).

(** [Display::transfer_texture] *)
Definition transfer_texture (d : Display)
    (foveation : Foveation F) (syn_rgba syn_depth rgba_filter_mode nerf_rgba nerf_depth
     framebuffer : Z) (offset resolution nerf_res syn_res : Z * Z) (filter_type : Z)
    : Cmd F unit :=
  if (m_blit_program d =? 0)%Z then mret tt else
  tex ← glIsEnabled GL_TEXTURE_2D;
  depth ← glIsEnabled GL_DEPTH_TEST;
  cull ← glIsEnabled GL_CULL_FACE;
  (if negb tex then glEnable GL_TEXTURE_2D else mret tt);;
  (if negb depth then glEnable GL_DEPTH_TEST else mret tt);;
  (if (cull : bool) then glDisable GL_CULL_FACE else mret tt);;
  glDepthFunc GL_ALWAYS;;
  glDepthMask true;;
  glBindVertexArray (m_blit_vao d);;
  glUseProgram (m_blit_program d);;
  syn_rgba_uniform ← glGetUniformLocation (m_blit_program d) "syn_rgba";
  syn_depth_uniform ← glGetUniformLocation (m_blit_program d) "syn_depth";
  glUniform1i syn_rgba_uniform 0;;
  glUniform1i syn_depth_uniform 1;;
  nerf_rgba_uniform ← glGetUniformLocation (m_blit_program d) "nerf_rgba";
  nerf_depth_uniform ← glGetUniformLocation (m_blit_program d) "nerf_depth";
  glUniform1i nerf_rgba_uniform 2;;
  glUniform1i nerf_depth_uniform 3;;
  nerf_res_uniform ← glGetUniformLocation (m_blit_program d) "nerf_resolution";
  syn_res_uniform ← glGetUniformLocation (m_blit_program d) "syn_resolution";
  full_res_uniform ← glGetUniformLocation (m_blit_program d) "full_resolution";
  filter_type_uniform ← glGetUniformLocation (m_blit_program d) "filter_type";
  glUniform2iv nerf_res_uniform nerf_res;;
  glUniform2iv syn_res_uniform syn_res;;
  glUniform2iv full_res_uniform resolution;;
  glUniform1iv filter_type_uniform filter_type;;
  bind_warp (m_blit_program d) (fov_warp_x foveation) "warp_x";;
  bind_warp (m_blit_program d) (fov_warp_y foveation) "warp_y";;
  glActiveTexture 3;;
  glBindTexture nerf_depth;;
  glTexParameteri GL_TEXTURE_WRAP_S GL_REPEAT;;
  glTexParameteri GL_TEXTURE_WRAP_T GL_REPEAT;;
  glTexParameteri GL_TEXTURE_MIN_FILTER rgba_filter_mode;;
  glTexParameteri GL_TEXTURE_MAG_FILTER rgba_filter_mode;;
  glActiveTexture 2;;
  glBindTexture nerf_rgba;;
  glTexParameteri GL_TEXTURE_WRAP_S GL_REPEAT;;
  glTexParameteri GL_TEXTURE_WRAP_T GL_REPEAT;;
  glTexParameteri GL_TEXTURE_MIN_FILTER GL_NEAREST;;
  glTexParameteri GL_TEXTURE_MAG_FILTER GL_NEAREST;;
  glActiveTexture 1;;
  glBindTexture syn_depth;;
  glTexParameteri GL_TEXTURE_WRAP_S GL_REPEAT;;
  glTexParameteri GL_TEXTURE_WRAP_T GL_REPEAT;;
  glTexParameteri GL_TEXTURE_MIN_FILTER GL_NEAREST;;
  glTexParameteri GL_TEXTURE_MAG_FILTER GL_NEAREST;;
  glActiveTexture 0;;
  glBindTexture syn_rgba;;
  glTexParameteri GL_TEXTURE_WRAP_S GL_REPEAT;;
  glTexParameteri GL_TEXTURE_WRAP_T GL_REPEAT;;
  glTexParameteri GL_TEXTURE_MIN_FILTER rgba_filter_mode;;
  glTexParameteri GL_TEXTURE_MAG_FILTER rgba_filter_mode;;
  glBindFramebuffer framebuffer;;
  glViewport (fst offset) (snd offset) (fst resolution) (snd resolution);;
  glDrawArrays 0 3;;
  glBindVertexArray 0;;
  glUseProgram 0;;
  glDepthFunc GL_LESS;;
  (if negb tex then glDisable GL_TEXTURE_2D else mret tt);;
  (if negb depth then glDisable GL_DEPTH_TEST else mret tt);;
  (if (cull : bool) then glEnable GL_CULL_FACE else mret tt);;
  glBindFramebuffer 0.

End Blit.

(** ** Scene staging ([Engine::update_world_objects]) *)

(** Objects, materials and lights each carry a public [is_dirty] member next
    to the rest of their state. *)
Record Entity (A : Type) : Type := {
  is_dirty : bool;
  state : A
}.
Arguments is_dirty {A} _.
Arguments state {A} _.

Definition clear_dirty {A} (m : Entity A) : Entity A :=
  {| is_dirty := false; state := state m |}.

(** What the staging step takes from headers outside the modelled files:
    the state of the three kinds of entity, the accessors of an object, and
    the animation step [next_frame] of objects and lights. *)
Class SceneLib : Type := {
  ObjectState : Type;
  MaterialState : Type;
  LightState : Type;
  Node : Type;
  TriangleArray : Type;
  Mat3 : Type;
  gpu_node : Entity ObjectState -> Node;
  gpu_triangles : Entity ObjectState -> TriangleArray;
  get_rotate : Entity ObjectState -> Mat3;
  get_translate : Entity ObjectState -> vec3 float;
  get_scale : Entity ObjectState -> float;
  get_mat_idx : Entity ObjectState -> N;
  object_next_frame : float -> Entity ObjectState -> Entity ObjectState;
  light_next_frame : float -> Entity LightState -> Entity LightState
}.

(** The device arrays a frame may re-upload. *)
Inductive Category : Type := Objects | Materials | Lights.

(** The ray tracer and the neural testbed, as far as the staging step
    touches them: how often [reset_accumulation] was called on each. *)
Record RayTracer : Type := { rt_resets : nat }.
Record Testbed : Type := { tb_resets : nat }.

Section Staging.
Context `{SceneLib}.

Record ObjectTransform : Type := {
  ot_node : Node;
  ot_triangles : TriangleArray;
  ot_rotate : Mat3;
  ot_translate : vec3 float;
  ot_scale : float;
  ot_mat_idx : N
}.

(** The members of [Engine] read or written by the staging step.
    [m_testbed] is a pointer, [uploads] records the calls of
    [resize_and_copy_from_host] in order. *)
Record Engine : Type := {
  m_is_dirty : bool;
  m_testbed : option Testbed;
  m_raytracer : RayTracer;
  m_materials : list (Entity MaterialState);
  m_objects : list (Entity ObjectState);
  m_lights : list (Entity LightState);
  d_world : list ObjectTransform;
  d_materials : list (Entity MaterialState);
  d_lights : list (Entity LightState);
  m_enable_animations : bool;
  m_anim_speed : float;
  uploads : list Category
}.

(** [for (auto& m : ...) { is_any_obj_dirty = is_any_obj_dirty || m.is_dirty;
    m.is_dirty = false; }] *)
Fixpoint scan_dirty {A} (is_any_obj_dirty : bool) (l : list (Entity A))
    : bool * list (Entity A) :=
  match l with
  | [] => (is_any_obj_dirty, [])
  | m :: rest =>
      let '(r, rest') := scan_dirty (is_any_obj_dirty || is_dirty m) rest in
      (r, clear_dirty m :: rest')
  end.

(** The loop filling [h_world]: each object is advanced when animations are
    enabled, then packed by [emplace_back]. *)
Definition pack (obj : Entity ObjectState) : ObjectTransform :=
  {| ot_node := gpu_node obj; ot_triangles := gpu_triangles obj;
     ot_rotate := get_rotate obj; ot_translate := get_translate obj;
     ot_scale := get_scale obj; ot_mat_idx := get_mat_idx obj |}.

Fixpoint fill_h_world (animate : bool) (speed : float) (l : list (Entity ObjectState))
    : list (Entity ObjectState) * list ObjectTransform :=
  match l with
  | [] => ([], [])
  | obj :: rest =>
      let obj' := if animate then object_next_frame speed obj else obj in
      let '(rest', h_world) := fill_h_world animate speed rest in
      (obj' :: rest', pack obj' :: h_world)
  end.

Definition advance_lights (animate : bool) (speed : float) (l : list (Entity LightState))
    : list (Entity LightState) :=
  map (fun obj => if animate then light_next_frame speed obj else obj) l.

Definition reset_accumulation_rt (r : RayTracer) : RayTracer :=
  {| rt_resets := S (rt_resets r) |}.
Definition reset_accumulation_tb (t : Testbed) : Testbed :=
  {| tb_resets := S (tb_resets t) |}.

(** [Engine::update_world_objects], on the path where no device call
    throws. *)
Definition update_world_objects (e : Engine) : Engine :=
  let needs_reset := false in
  (* objects *)
  let '(is_any_obj_dirty, objects0) := scan_dirty false (m_objects e) in
  let '(needs_reset, objects1, world1, up1) :=
    if is_any_obj_dirty || m_enable_animations e then
      let '(objs, h_world) := fill_h_world (m_enable_animations e) (m_anim_speed e) objects0 in
      (true, objs, h_world, uploads e ++ [Objects])
    else (needs_reset, objects0, d_world e, uploads e) in
  (* materials *)
  let '(is_any_obj_dirty, materials1) := scan_dirty false (m_materials e) in
  let '(needs_reset, dmat1, up2) :=
    if is_any_obj_dirty then (true, materials1, up1 ++ [Materials])
    else (needs_reset, d_materials e, up1) in
  (* lights *)
  let '(is_any_obj_dirty, lights0) := scan_dirty false (m_lights e) in
  let '(needs_reset, lights1, dlights1, up3) :=
    if is_any_obj_dirty || m_enable_animations e then
      let ls := advance_lights (m_enable_animations e) (m_anim_speed e) lights0 in
      (true, ls, ls, up2 ++ [Lights])
    else (needs_reset, lights0, d_lights e, up2) in
  let needs_reset := needs_reset || m_is_dirty e in
  let '(raytracer1, testbed1) :=
    match m_testbed e with
    | Some tb =>
        if needs_reset
        then (reset_accumulation_rt (m_raytracer e), Some (reset_accumulation_tb tb))
        else (m_raytracer e, Some tb)
    | None => (m_raytracer e, None)
    end in
  {| m_is_dirty := m_is_dirty e;
     m_testbed := testbed1;
     m_raytracer := raytracer1;
     m_materials := materials1;
     m_objects := objects1;
     m_lights := lights1;
     d_world := world1;
     d_materials := dmat1;
     d_lights := dlights1;
     m_enable_animations := m_enable_animations e;
     m_anim_speed := m_anim_speed e;
     uploads := up3 |}.

(** How many entities of the scene are marked dirty. *)
Definition count_dirty {A} (l : list (Entity A)) : nat :=
  length (filter (fun m => is_dirty m = true) l).
Definition dirty_entities (e : Engine) : nat :=
  count_dirty (m_objects e) + count_dirty (m_materials e) + count_dirty (m_lights e).

Definition all_clean {A} (l : list (Entity A)) : Prop :=
  Forall (fun m => is_dirty m = false) l.

(** What [next_frame] does to an object or a light when animations are
    enabled, and nothing otherwise. *)
Definition advance_object (e : Engine) (obj : Entity ObjectState) : Entity ObjectState :=
  if m_enable_animations e then object_next_frame (m_anim_speed e) obj else obj.
Definition advance_light (e : Engine) (l : Entity LightState) : Entity LightState :=
  if m_enable_animations e then light_next_frame (m_anim_speed e) l else l.

(** Whether each category is uploaded by the step. *)
Definition objects_changed (e : Engine) : bool :=
  existsb is_dirty (m_objects e) || m_enable_animations e.
Definition materials_changed (e : Engine) : bool := existsb is_dirty (m_materials e).
Definition lights_changed (e : Engine) : bool :=
  existsb is_dirty (m_lights e) || m_enable_animations e.
Definition any_changed (e : Engine) : bool :=
  objects_changed e || materials_changed e || lights_changed e.

(** [next_frame] may or may not touch the dirty flag; this says it does not. *)
Definition next_frame_keeps_flags : Prop :=
  (forall speed obj, is_dirty (object_next_frame speed obj) = is_dirty obj) /\
  (forall speed l, is_dirty (light_next_frame speed l) = is_dirty l).

End Staging.

(** ** A reference blit

    A display with a linked program, and a context holding four textures of
    one colour each: a fully transparent synthetic colour plane (texture 10),
    a synthetic depth plane (11), an opaque white neural colour plane (20)
    and a neural depth plane (21).  The warp is the identity. *)

Module BlitScene.

Definition identity_warp : Frag.FoveationWarp float :=
  {| Frag.al := Binary32.of_Z 0; Frag.bl := Binary32.of_Z 0; Frag.cl := Binary32.of_Z 0;
     Frag.am := Binary32.of_Z 1; Frag.bm := Binary32.of_Z 0;
     Frag.ar := Binary32.of_Z 0; Frag.br := Binary32.of_Z 0; Frag.cr := Binary32.of_Z 0;
     Frag.switch_left := Binary32.of_Z 0; Frag.switch_right := Binary32.of_Z 1;
     Frag.inv_switch_left := Binary32.of_Z 0; Frag.inv_switch_right := Binary32.of_Z 1 |}.

Definition foveation : Foveation float :=
  {| fov_warp_x := identity_warp; fov_warp_y := identity_warp |}.

Definition flat (r g b a : Z) : GL.Image float :=
  fun _ _ => mk_vec4 (Binary32.of_Z r) (Binary32.of_Z g) (Binary32.of_Z b) (Binary32.of_Z a).

Definition textures : gmap Z (GL.Image float) :=
  <[10%Z := flat 0 0 0 0]> (<[11%Z := flat 1 0 0 0]>
    (<[20%Z := flat 1 1 1 1]> (<[21%Z := flat 1 0 0 0]> ∅))).

Definition context : GL.Context float :=
  {| GL.now :=
       {| GL.raster :=
            {| GL.cap_texture_2d := false; GL.cap_depth_test := false;
               GL.cap_cull_face := false; GL.depth_func := GL.GL_LESS;
               GL.depth_mask := true; GL.vertex_array := 0; GL.framebuffer := 0;
               GL.viewport := (0, 0, 512, 512)%Z |};
          GL.program := 0;
          GL.uniforms := ∅;
          GL.active_texture := 0;
          GL.texture_binding_2d := ∅;
          GL.tex_params := ∅;
          GL.tex_image := textures |};
     GL.drawn := [] |}.

Definition display : Display :=
  {| m_glfw_window := Some 1%Z; m_img_count := 0; m_img_count_max := 3;
     m_blit_program := 1; m_blit_vao := 1; m_writing_buffer_size := 0 |}.

Definition half : float := Binary32.div (Binary32.of_Z 1) (Binary32.of_Z 2).
Definition centre : vec2 float := mk_vec2 half half.

(** The blit of [Display::present]: linear filtering, the whole window. *)
Definition blit : GL.Context float :=
  snd (transfer_texture display foveation 10 11 GL.GL_LINEAR 20 21 0
         (0, 0)%Z (512, 512)%Z (256, 256)%Z (64, 64)%Z 0 context).

End BlitScene.

(** ** The invariant of a warp

    The parameters of a warp are binary32 values; what the design asks of
    them is a statement about the numbers they stand for, which is written
    here over the reals. *)

Module RealWarp.
Import Frag.
Local Open Scope R_scope.



(** Modelled from the spec: the forward warp, which the shader does not
    contain.  It maps a display coordinate to a source coordinate by a
    quadratic below [switch_left], a quadratic above [switch_right] and a
    linear piece in between. *)
Definition warp (w : FoveationWarp R) (x : R) : R :=
  if Rlt_dec x (switch_left w) then al w * x * x + bl w * x + cl w
  else if Rlt_dec (switch_right w) x then ar w * x * x + br w * x + cr w
  else am w * x + bm w.


End RealWarp.

(** ** Reference warps

    Beside the identity of the reference blit, a warp that is linear with
    slope [1 - 2^-23] up to one half and bends by the quadratic
    [2^-23 x^2 + (1 - 2^-24) x - 2^-24] above it.  All its parameters are
    binary32 values. *)

Module WarpScene.



End WarpScene.

(** ** A reference scene for the staging step

    Entities whose state is a frame counter advanced by [next_frame]. *)

Module StagingScene.

#[export] Instance lib : SceneLib := {|
  ObjectState := Z;
  MaterialState := Z;
  LightState := Z;
  Node := Z;
  TriangleArray := Z;
  Mat3 := Z;
  gpu_node := fun obj => state obj;
  gpu_triangles := fun obj => state obj;
  get_rotate := fun _ => 0%Z;
  get_translate := fun _ => vec3_splat (Binary32.of_Z 0);
  get_scale := fun _ => Binary32.of_Z 1;
  get_mat_idx := fun _ => 0%N;
  object_next_frame := fun _ obj => {| is_dirty := is_dirty obj; state := (state obj + 1)%Z |};
  light_next_frame := fun _ l => {| is_dirty := is_dirty l; state := (state l + 1)%Z |}
|}.

Definition clean (n : Z) : Entity Z := {| is_dirty := false; state := n |}.
Definition dirty (n : Z) : Entity Z := {| is_dirty := true; state := n |}.

(** An engine with a testbed attached, whose scene is already on the device. *)
Definition engine (redraw animate : bool) (objects materials lights : list (Entity Z))
    : Engine :=
  {| m_is_dirty := redraw;
     m_testbed := Some {| tb_resets := 0 |};
     m_raytracer := {| rt_resets := 0 |};
     m_materials := materials;
     m_objects := objects;
     m_lights := lights;
     d_world := map pack objects;
     d_materials := materials;
     d_lights := lights;
     m_enable_animations := animate;
     m_anim_speed := Binary32.of_Z 1;
     uploads := [] |}.

End StagingScene.

(* ===================================================================== *)
(** * Part I, continued: more of the sources                              *)
(* ===================================================================== *)
(** ** The debug kernels and the host side of the synthetic world
    ([syn_world.cu]) *)

Module Debug.
Local Open Scope f32_scope.

(** [abs] on a device vector, component by component. *)
Definition abs (v : vec3 float) : vec3 float :=
  mk_vec3 (SFabs (v3x v)) (SFabs (v3y v)) (SFabs (v3z v)).

(** The literal [0.5f]. *)
Definition lit_0_5 : float := Binary32.of_Z 1 / Binary32.of_Z 2.

(** [(float)n] for an unsigned integer [n]. *)
Definition of_uint32 (n : N) : float := Binary32.of_Z (Z.of_N n).

(** One thread of [debug_draw_rays]. *)
Definition debug_draw_rays (l : Launch) (n_elements width height : N)
    (ray_origins ray_directions : list (vec3 float)) (fb : RenderBuffers)
    : option RenderBuffers :=
  let i := thread_index l in
  if (n_elements <=? i)%N then Some fb else
  rd ← load ray_directions i;
  rgba1 ← store (rgba fb) i (vec4_of (abs rd) (Binary32.of_Z 1));
  Some {| rgba := rgba1; depth := depth fb |}.

(** One thread of [debug_paint]; a remainder or quotient by zero has no
    defined behaviour. *)
Definition debug_paint (l : Launch) (n_elements width height : N) (fb : RenderBuffers)
    : option RenderBuffers :=
  let i := thread_index l in
  if (n_elements <=? i)%N then Some fb else
  if (width =? 0)%N || (height =? 0)%N then None else
  let x := of_uint32 (i mod width) / of_uint32 width in
  let y := of_uint32 (i / height) / of_uint32 height in
  rgba1 ← store (rgba fb) i (mk_vec4 x y (Binary32.of_Z 0) (Binary32.of_Z 1));
  depth1 ← store (depth fb) i lit_0_5;
  Some {| rgba := rgba1; depth := depth1 |}.

End Debug.

Module World.

(** [static_cast<uint32_t>] of an integer. *)
Definition to_uint32 (z : Z) : N := Z.to_N (z mod 2 ^ 32).

(** [size_t] arithmetic wraps at 64 bits. *)
Definition size_t_wrap (n : N) : N := (n mod 2 ^ 64)%N.

(** The threads of a launch run one after the other, each on the buffers
    the previous one left. *)
Fixpoint run_threads (kernel : Launch -> RenderBuffers -> option RenderBuffers)
    (threads : list Launch) (fb : RenderBuffers) : option RenderBuffers :=
  match threads with
  | [] => Some fb
  | l :: rest => fb' ← kernel l fb; run_threads kernel rest fb'
  end.

(** The pixels a launch writes: the indices, below [n_elements], of its
    threads. *)
Definition covered (n_elements : N) (threads : list Launch) (j : nat) : Prop :=
  exists l, l ∈ threads /\ (thread_index l < n_elements)%N /\ N.to_nat (thread_index l) = j.

(** Two pairs of planes of the same size that hold the same values at every
    index outside [P]. *)
Definition agree_outside (P : nat -> Prop) (fa fb : RenderBuffers) : Prop :=
  length (rgba fa) = length (rgba fb) /\ length (depth fa) = length (depth fb) /\
  forall j, ~ P j -> rgba fa !! j = rgba fb !! j /\ depth fa !! j = depth fb !! j.

(** A kernel whose threads do nothing when their index is not below
    [n_elements], and otherwise store, at their own index, values that do
    not depend on the planes. *)
Definition writes_own_pixel (n_elements : N)
    (kernel : Launch -> RenderBuffers -> option RenderBuffers) : Prop :=
  forall l fb fb', kernel l fb = Some fb' ->
    ((n_elements <= thread_index l)%N /\ forall fb2, kernel l fb2 = Some fb2) \/
    ((thread_index l < n_elements)%N /\
     N.to_nat (thread_index l) < length (rgba fb) /\
     N.to_nat (thread_index l) < length (depth fb) /\
     exists c d,
       forall fb2,
         N.to_nat (thread_index l) < length (rgba fb2) ->
         N.to_nat (thread_index l) < length (depth fb2) ->
         kernel l fb2 =
         Some {| rgba := <[N.to_nat (thread_index l) := c]> (rgba fb2);
                 depth := <[N.to_nat (thread_index l) := d]> (depth fb2) |}).

(** The name [create_object] tries at count [k]: the file name itself, then
    the file name followed by a space and the count. *)
Definition candidate (base : string) (k : N) : string :=
  if (k =? 0)%N then base else String.append base (String.append " " (pretty k)).

Section WithDevice.
Context `{DeviceLib}.

(** A loaded mesh: its triangles on the host and their copy on the device. *)
Record VirtualObject : Type := {
  cpu_triangles : list Triangle;
  gpu_triangles : list Triangle
}.

(** The camera, as far as drawing reads it: the two ray arrays on the
    device and the light. *)
Record Camera : Type := {
  gpu_positions : list (vec3 float);
  gpu_directions : list (vec3 float);
  sun : Light
}.

(** The members of [SyntheticWorld] used by [handle], [create_object] and
    [draw_object_async]; [m_render_buffer_view] stands for the two planes
    the view points to. *)
Record SyntheticWorld : Type := {
  m_resolution : Z * Z;
  m_camera : Camera;
  m_objects : gmap string VirtualObject;
  m_render_buffer_view : RenderBuffers
}.

(** What the host code takes from outside the modelled files: the threads
    [linear_kernel] launches for an element count, the order in which the
    container [m_objects] enumerates its entries, the file name of a path,
    the mesh loader, and what resizing the render buffer and generating the
    camera rays leave behind. *)
Class HostLib : Type := {
  linear_kernel_threads : Z -> list Launch;
  enumerate : gmap string VirtualObject -> list (string * VirtualObject);
  path_filename : string -> string;
  load_virtual_obj : string -> string -> VirtualObject;
  resize_render_buffer : Z * Z -> RenderBuffers -> RenderBuffers;
  generate_rays : Z * Z -> Camera -> Camera
}.

Context `{HostLib}.

Definition set_render_buffer_view (fb : RenderBuffers) (w : SyntheticWorld)
    : SyntheticWorld :=
  {| m_resolution := m_resolution w; m_camera := m_camera w;
     m_objects := m_objects w; m_render_buffer_view := fb |}.

(** [m_resolution.x * m_resolution.y], an [int]. *)
Definition n_elements_of (w : SyntheticWorld) : Z :=
  int_wrap (fst (m_resolution w) * snd (m_resolution w)).

(** [SyntheticWorld::draw_object_async] *)
Definition draw_object_async (w : SyntheticWorld) (virtual_object : VirtualObject)
    : option SyntheticWorld :=
  let cam := m_camera w in
  let n_elements := n_elements_of w in
  let tri_count := to_uint32 (Z.of_nat (length (cpu_triangles virtual_object))) in
  fb ← run_threads
         (fun l =>
            gpu_draw_object l (to_uint32 n_elements)
              (to_uint32 (fst (m_resolution w))) (to_uint32 (snd (m_resolution w)))
              tri_count (gpu_positions cam) (gpu_directions cam)
              (gpu_triangles virtual_object) (sun cam))
         (linear_kernel_threads n_elements) (m_render_buffer_view w);
  Some (set_render_buffer_view fb w).

(** The loop of [handle] over the objects. *)
Fixpoint draw_objects (w : SyntheticWorld) (objects : list (string * VirtualObject))
    : option SyntheticWorld :=
  match objects with
  | [] => Some w
  | vo_kv :: rest => w' ← draw_object_async w (snd vo_kv); draw_objects w' rest
  end.

(** [handle] up to its loop: the buffer is resized when the resolution
    changed and the camera rays are generated. *)
Definition prepare (w : SyntheticWorld) (resolution : Z * Z) : SyntheticWorld :=
  let w :=
    if decide (resolution = m_resolution w) then w
    else {| m_resolution := resolution; m_camera := m_camera w;
            m_objects := m_objects w;
            m_render_buffer_view := resize_render_buffer resolution (m_render_buffer_view w) |} in
  {| m_resolution := m_resolution w;
     m_camera := generate_rays (m_resolution w) (m_camera w);
     m_objects := m_objects w;
     m_render_buffer_view := m_render_buffer_view w |}.

(** [SyntheticWorld::handle] *)
Definition handle (w : SyntheticWorld) (resolution : Z * Z)
    : option (bool * SyntheticWorld) :=
  let w := prepare w resolution in
  w' ← draw_objects w (enumerate (m_objects w));
  Some (true, w').

(** [std::map::insert]: an entry whose key is present is left alone. *)
Definition map_insert (name : string) (vo : VirtualObject)
    (m : gmap string VirtualObject) : gmap string VirtualObject :=
  match m !! name with
  | Some _ => m
  | None => <[name := vo]> m
  end.

(** The loop of [create_object] looking for a free name, [fuel] bounding the
    number of its iterations. *)
Fixpoint free_name (fuel : nat) (base : string) (objects : gmap string VirtualObject)
    (k : N) (name : string) : option string :=
  match objects !! name with
  | None => Some name
  | Some _ =>
      match fuel with
      | O => None
      | S fuel' =>
          let k := size_t_wrap (k + 1) in
          free_name fuel' base objects k (String.append base (String.append " " (pretty k)))
      end
  end.

(** [SyntheticWorld::create_object] *)
Definition create_object (fuel : nat) (filename : string) (w : SyntheticWorld)
    : option SyntheticWorld :=
  let base := path_filename filename in
  name ← free_name fuel base (m_objects w) 0 base;
  Some {| m_resolution := m_resolution w; m_camera := m_camera w;
          m_objects := map_insert name (load_virtual_obj filename name) (m_objects w);
          m_render_buffer_view := m_render_buffer_view w |}.

End WithDevice.
End World.
(** ** The render loop and the vertex shader of the blit ([main.cu],
    [display.cu]) *)

(** The render loop of [main_func] around the end of [Engine::frame], for a
    window that stays open: the number of frames run until a frame returns
    [false]; [None] when [fuel] frames were not enough to see that. *)
Fixpoint render_loop (fuel : nat) (has_output m_end_on_loop is_alive : bool)
    (width height : Z) (m_output_dest : string) (d : Display) (p : Process)
    : option (nat * Display * Process) :=
  match fuel with
  | O => None
  | S fuel' =>
      let '(go_next_frame, d, p) :=
        frame_result has_output m_end_on_loop is_alive width height m_output_dest d p in
      if go_next_frame then
        match render_loop fuel' has_output m_end_on_loop is_alive width height
                m_output_dest d p with
        | Some (n, d, p) => Some (S n, d, p)
        | None => None
        end
      else Some (1, d, p)
  end.

(** The path [save_image] gives its [n]-th image. *)
Definition output_path (filepath : string) (n : Z) : string :=
  String.append filepath (String.append "/output-" (String.append (fmt_03 n) ".png")).

(** The row stride [save_image] computes for three channels. *)
Definition row_stride (width : Z) : Z :=
  let stride := int_wrap (3 * width) in
  int_wrap (stride + (if (Z.rem stride 4 =? 0)%Z then 0 else 4 - Z.rem stride 4)).

(** The image [save_image] writes at count [n]. *)
Definition output_image (width height : Z) (filepath : string) (n : Z) : ImageFile :=
  {| img_path := output_path filepath n; img_width := width; img_height := height;
     img_channels := 3; img_stride := row_stride width |}.

(** The vertex shader [shader_vert] of [init_opengl_shaders]: the output
    [UVs] and the position [gl_Position] of a vertex. *)
Definition shader_vert {F} `{Scalar F} (gl_VertexID : Z) : vec2 F * vec4 F :=
  let UVs : vec2 F :=
    mk_vec2 (lit (Z.land (Z.shiftl gl_VertexID 1) 2)) (lit (Z.land gl_VertexID 2)) in
  (UVs,
   mk_vec4 (v2x UVs * lit 2 - lit 1)%glsl (v2y UVs * lit 2 - lit 1)%glsl (lit 0) (lit 1)).
(** ** The device arrays against the host lists ([engine.cu]) *)

Section Mirror.
Context `{SceneLib}.

(** Each device array holds what an upload of the host list it mirrors
    would put there. *)
Definition mirrored (e : Engine) : Prop :=
  d_world e = map pack (m_objects e) /\
  d_materials e = m_materials e /\
  d_lights e = m_lights e.

End Mirror.
(** ** Reference inputs for the synthetic world, the debug kernels and a
    failing platform *)

Module WorldScene.
Import World Scene.

(** The grid [linear_kernel] launches: blocks of 128 threads, as many as
    cover the elements. *)
Definition threads (n_elements : Z) : list Launch :=
  if (n_elements <=? 0)%Z then []
  else
    flat_map
      (fun blockIdx =>
         map (fun threadIdx =>
                {| threadIdx_x := N.of_nat threadIdx; blockIdx_x := N.of_nat blockIdx;
                   blockDim_x := 128 |})
             (seq 0 128))
      (seq 0 (Z.to_nat ((n_elements + 127) / 128))).

Definition floor_object : VirtualObject :=
  {| cpu_triangles := [floor_tri]; gpu_triangles := [floor_tri] |}.
Definition shelf_object : VirtualObject :=
  {| cpu_triangles := [shelf_tri]; gpu_triangles := [shelf_tri] |}.

#[export] Instance host : HostLib := {|
  linear_kernel_threads := threads;
  enumerate := map_to_list;
  path_filename := fun filename => filename;
  load_virtual_obj := fun _ _ => floor_object;
  resize_render_buffer := fun resolution _ =>
    {| rgba := replicate (Z.to_nat (fst resolution * snd resolution)) background;
       depth := replicate (Z.to_nat (fst resolution * snd resolution)) MAX_RT_DIST |};
  generate_rays := fun _ camera => camera
|}.

Definition camera : Camera :=
  {| gpu_positions := [eye]; gpu_directions := [down]; sun := sun_above |}.

(** A world of one pixel holding two objects. *)
Definition world : SyntheticWorld :=
  {| m_resolution := (1, 1)%Z;
     m_camera := camera;
     m_objects := <["floor" := floor_object]> (<["shelf" := shelf_object]> ∅);
     m_render_buffer_view := blank |}.

(** A world in which the names "floor" and "floor 1" are taken. *)
Definition crowded : SyntheticWorld :=
  {| m_resolution := (1, 1)%Z;
     m_camera := camera;
     m_objects := <["floor" := floor_object]> (<["floor 1" := shelf_object]> ∅);
     m_render_buffer_view := blank |}.

Definition thread1 : Launch := {| threadIdx_x := 1; blockIdx_x := 0; blockDim_x := 128 |}.
Definition thread3 : Launch := {| threadIdx_x := 3; blockIdx_x := 0; blockDim_x := 128 |}.

(** Two planes of four pixels. *)
Definition blank4 : RenderBuffers :=
  {| rgba := replicate 4 background; depth := replicate 4 (Binary32.of_Z 7) |}.

End WorldScene.

Module FailingSession.

(** A platform on which the window is created and the loader then fails. *)
Definition host : Host :=
  {| glfwInit_ok := true; created_window := Some 7%Z; gl_loader_ok := false;
     gl_version_major := 4; gl_version_minor := 6;
     linked_program := 1; generated_vao := 1 |}.

End FailingSession.
(* ===================================================================== *)
(** * Part II: properties                                                 *)
(* ===================================================================== *)

(** ** Order facts about binary32 comparisons *)

Ltac cmp_cases :=
  repeat match goal with
  | b : bool |- _ => destruct b
  | |- context [Z.compare ?a ?b] => destruct (Z.compare_spec a b)
  | H : context [Z.compare ?a ?b] |- _ => destruct (Z.compare_spec a b)
  | |- context [Pos.compare_cont Eq ?a ?b] =>
      change (Pos.compare_cont Eq a b) with (Pos.compare a b);
      destruct (Pos.compare_spec a b)
  | H : context [Pos.compare_cont Eq ?a ?b] |- _ =>
      change (Pos.compare_cont Eq a b) with (Pos.compare a b) in H;
      destruct (Pos.compare_spec a b)
  end.

Ltac float_cases :=
  simpl; intros; try discriminate; try reflexivity;
  cmp_cases; simpl in *; try discriminate; try reflexivity; try lia.

Lemma ltb_irrefl (x : float) : Binary32.ltb x x = false.
Proof.
  unfold Binary32.ltb, SFltb, SFcompare.
  destruct x as [s|s| |s m e]; try destruct s; try reflexivity;
    rewrite Z.compare_refl; change (Pos.compare_cont Eq m m) with (Pos.compare m m);
    rewrite Pos.compare_refl; reflexivity.
Qed.

Lemma ltb_trans (x y z : float) :
  Binary32.ltb x y = true -> Binary32.ltb y z = true -> Binary32.ltb x z = true.
Proof.
  unfold Binary32.ltb, SFltb, SFcompare.
  destruct x as [s1|s1| |s1 m1 e1], y as [s2|s2| |s2 m2 e2], z as [s3|s3| |s3 m3 e3];
    float_cases.
Qed.

Lemma ltb_leb_trans (x y z : float) :
  Binary32.ltb x y = true -> Binary32.leb y z = true -> Binary32.ltb x z = true.
Proof.
  unfold Binary32.ltb, Binary32.leb, SFltb, SFleb, SFcompare.
  destruct x as [s1|s1| |s1 m1 e1], y as [s2|s2| |s2 m2 e2], z as [s3|s3| |s3 m3 e3];
    float_cases.
Qed.

Lemma ltb_leb (x y : float) : Binary32.ltb x y = true -> Binary32.leb x y = true.
Proof.
  unfold Binary32.ltb, Binary32.leb, SFltb, SFleb.
  destruct (SFcompare x y) as [[]|]; intros; try discriminate; reflexivity.
Qed.

Lemma not_ltb_leb (x y : float) :
  Binary32.is_nan x = false -> Binary32.is_nan y = false ->
  Binary32.ltb x y = false -> Binary32.leb y x = true.
Proof.
  unfold Binary32.ltb, Binary32.leb, SFltb, SFleb, SFcompare.
  destruct x as [s1|s1| |s1 m1 e1], y as [s2|s2| |s2 m2 e2]; float_cases.
Qed.

Lemma leb_refl (x : float) : Binary32.is_nan x = false -> Binary32.leb x x = true.
Proof.
  intros Hx. apply not_ltb_leb; auto using ltb_irrefl.
Qed.

Lemma ltb_not_nan_l (x y : float) : Binary32.ltb x y = true -> Binary32.is_nan x = false.
Proof. destruct x; simpl; try reflexivity. discriminate. Qed.

Lemma ltb_not_nan_r (x y : float) : Binary32.ltb x y = true -> Binary32.is_nan y = false.
Proof. destruct x, y; simpl; try reflexivity; discriminate. Qed.

(** ** The triangle loop *)

Section KernelFacts.
Context `{DeviceLib}.

Lemma valid_t_not_nan (t : float) : valid_t t = true -> Binary32.is_nan t = false.
Proof.
  unfold valid_t. intros Hv. apply andb_true_iff in Hv as [_ Hlt].
  exact (ltb_not_nan_l _ _ Hlt).
Qed.

(** Within the bounds of the array the loop is a left fold over the
    triangles it visits. *)
Lemma closest_loop_fold (triangles : list Triangle) (ro rd : vec3 float) :
  forall (remaining k : nat) (c : Closest),
    k + remaining <= length triangles ->
    closest_loop remaining k triangles ro rd c =
    Some (fold_left (closest_step ro rd) (take remaining (drop k triangles)) c).
Proof.
  induction remaining as [|r IH]; intros k c Hlen; simpl.
  - reflexivity.
  - destruct (lookup_lt_is_Some_2 triangles k ltac:(lia)) as [tri Htri].
    rewrite Htri. simpl.
    rewrite (drop_S _ _ _ Htri). simpl.
    apply IH. lia.
Qed.

(** Outside of them it reads past the end of the array. *)
Lemma closest_loop_overrun (triangles : list Triangle) (ro rd : vec3 float) :
  forall (remaining k : nat) (c : Closest),
    k <= length triangles -> length triangles < k + remaining ->
    closest_loop remaining k triangles ro rd c = None.
Proof.
  induction remaining as [|r IH]; intros k c Hk Hlen; simpl.
  - lia.
  - destruct (triangles !! k) as [tri|] eqn:Htri; simpl; [|reflexivity].
    apply lookup_lt_Some in Htri. apply IH; lia.
Qed.

Lemma closest_step_invariant (ro rd : vec3 float) (l : list Triangle) (c : Closest) (x : Triangle) :
  nothing_found ro rd l c \/ (exists k, found_at ro rd l c k) ->
  nothing_found ro rd (l ++ [x]) (closest_step ro rd c x) \/
  (exists k, found_at ro rd (l ++ [x]) (closest_step ro rd c x) k).
Proof.
  intros [[Hnone [Hdt Hn]] | [k (tri & Hk & Hv & Hdt & Hn & Hmin & Hfirst)]].
  - (* nothing so far: the test is exactly validity *)
    unfold closest_step. rewrite Hdt.
    destruct ((ray_intersect x ro rd <? MAX_RT_DIST)%f32 && (ray_intersect x ro rd >? MIN_RT_DIST)%f32)
      eqn:Hc.
    + right. exists (length l), x.
      assert (Hvx : valid_t (ray_intersect x ro rd) = true)
        by (unfold valid_t; rewrite andb_comm; exact Hc).
      simpl. repeat split; auto.
      * apply lookup_snoc_Some. right. auto.
      * intros j trj Hj Hvj.
        apply lookup_snoc_Some in Hj as [[Hlt Hj]|[-> <-]].
        -- rewrite (Hnone _ _ Hj) in Hvj. discriminate.
        -- apply leb_refl, valid_t_not_nan, Hvx.
      * intros j trj Hlt Hj Hvj.
        apply lookup_snoc_Some in Hj as [[_ Hj]|[-> <-]]; [|lia].
        rewrite (Hnone _ _ Hj) in Hvj. discriminate.
    + left. repeat split; auto.
      intros j trj Hj.
      apply lookup_snoc_Some in Hj as [[Hlt Hj]|[-> <-]]; eauto.
      unfold valid_t. rewrite andb_comm. exact Hc.
  - (* a hit so far *)
    pose proof (lookup_lt_Some _ _ _ Hk) as Hklt.
    unfold closest_step.
    destruct ((ray_intersect x ro rd <? dt c)%f32 && (ray_intersect x ro rd >? MIN_RT_DIST)%f32)
      eqn:Hc.
    + apply andb_true_iff in Hc as [Hlt Hgt].
      assert (Hvx : valid_t (ray_intersect x ro rd) = true).
      { unfold valid_t. rewrite Hgt. simpl.
        apply (ltb_trans _ (dt c)); [exact Hlt|].
        rewrite Hdt. unfold valid_t in Hv. apply andb_true_iff in Hv as [_ Hv]. exact Hv. }
      right. exists (length l), x. simpl. repeat split; auto.
      * apply lookup_snoc_Some. right. auto.
      * intros j trj Hj Hvj.
        apply lookup_snoc_Some in Hj as [[Hjl Hj]|[-> <-]].
        -- apply ltb_leb, (ltb_leb_trans _ (dt c)); eauto.
        -- apply leb_refl, valid_t_not_nan, Hvx.
      * intros j trj Hjl Hj Hvj.
        apply lookup_snoc_Some in Hj as [[_ Hj]|[-> <-]]; [|lia].
        apply (ltb_leb_trans _ (dt c)); eauto.
    + right. exists k, tri. repeat split; auto.
      * apply lookup_snoc_Some. left. auto.
      * intros j trj Hj Hvj.
        apply lookup_snoc_Some in Hj as [[Hjl Hj]|[-> <-]]; eauto.
        pose proof Hvj as Hvx. unfold valid_t in Hvj.
        apply andb_true_iff in Hvj as [Hgt _]. rewrite Hgt, andb_true_r in Hc.
        apply not_ltb_leb; auto using valid_t_not_nan.
        rewrite Hdt. apply valid_t_not_nan, Hv.
      * intros j trj Hjk Hj Hvj.
        apply lookup_snoc_Some in Hj as [[_ Hj]|[-> <-]]; [|lia].
        eauto.
Qed.

Lemma closest_fold_invariant (ro rd : vec3 float) (l : list Triangle) :
  let c := fold_left (closest_step ro rd) l {| dt := MAX_RT_DIST; hit_normal := None |} in
  nothing_found ro rd l c \/ (exists k, found_at ro rd l c k).
Proof.
  induction l as [|x l IH] using rev_ind; simpl.
  - left. repeat split; auto. intros j trj Hj. discriminate.
  - rewrite fold_left_app. simpl. apply closest_step_invariant. exact IH.
Qed.

End KernelFacts.

(** ** The kernel *)

Section KernelTheorems.
Context `{DeviceLib}.

Lemma store_in_bounds {A} (buf : list A) (i : N) (x : A) :
  N.to_nat i < length buf -> store buf i x = Some (<[N.to_nat i := x]> buf).
Proof. intros Hi. unfold store. rewrite decide_True by exact Hi. reflexivity. Qed.

(** The triangle loop ends with [dt] equal to the least ray parameter among
    the triangles whose parameter lies strictly between [MIN_RT_DIST] and
    [MAX_RT_DIST], and with the normal of the first triangle, in enumeration
    order, that attains it: every earlier valid triangle is strictly
    farther.  When no triangle is valid, [dt] keeps its initial value
    [MAX_RT_DIST]. *)
Lemma closest_loop_first_minimum (triangles : list Triangle) (tri_count : nat)
    (ro rd : vec3 float) :
  tri_count <= length triangles ->
  exists c,
    closest_loop tri_count 0 triangles ro rd {| dt := MAX_RT_DIST; hit_normal := None |} = Some c /\
    ((forall j trj, j < tri_count -> triangles !! j = Some trj ->
        valid_t (ray_intersect trj ro rd) = false) /\
     dt c = MAX_RT_DIST /\ hit_normal c = None
     \/
     exists k tri,
       k < tri_count /\ triangles !! k = Some tri /\
       valid_t (ray_intersect tri ro rd) = true /\
       dt c = ray_intersect tri ro rd /\
       hit_normal c = Some (normal tri) /\
       (forall j trj, j < tri_count -> triangles !! j = Some trj ->
          valid_t (ray_intersect trj ro rd) = true ->
          (dt c <=? ray_intersect trj ro rd)%f32 = true) /\
       (forall j trj, j < k -> triangles !! j = Some trj ->
          valid_t (ray_intersect trj ro rd) = true ->
          (dt c <? ray_intersect trj ro rd)%f32 = true)).
Proof.
  intros Hlen.
  rewrite closest_loop_fold by lia. rewrite drop_0.
  eexists. split; [reflexivity|].
  destruct (closest_fold_invariant ro rd (take tri_count triangles))
    as [(Hnone & Hdt & Hn) | (k & tri & Hk & Hv & Hdt & Hn & Hmin & Hfirst)].
  - left. repeat split; auto.
    intros j trj Hj Hl. apply (Hnone j). apply lookup_take_Some. auto.
  - right. apply lookup_take_Some in Hk as [Hk Hkn].
    exists k, tri. repeat split; auto.
    + intros j trj Hj Hl. apply (Hmin j). apply lookup_take_Some. auto.
    + intros j trj Hj Hl. apply (Hfirst j); auto. apply lookup_take_Some. split; auto. lia.
Qed.

Lemma gpu_draw_object_unfold (l : Launch) (n_elements width height tri_count : N)
    (ray_origins ray_directions : list (vec3 float)) (triangles : list Triangle)
    (sun : Light) (fb : RenderBuffers) (ro rd : vec3 float) :
  in_bounds l n_elements tri_count ray_origins ray_directions triangles fb ro rd ->
  let i := N.to_nat (thread_index l) in
  let c := fold_left (closest_step ro rd) (take (N.to_nat tri_count) triangles)
             {| dt := MAX_RT_DIST; hit_normal := None |} in
  gpu_draw_object l n_elements width height tri_count ray_origins ray_directions
    triangles sun fb =
  if (dt c <? MAX_RT_DIST)%f32 then
    n ← hit_normal c;
    Some {| rgba := <[i := vec4_of (Vec3f.smul
                      (dot n (normalize (Vec3f.sub (pos sun) (Vec3f.add ro (Vec3f.scale rd (dt c))))))
                      diffuse_tint) (Binary32.of_Z 1)]> (rgba fb);
            depth := <[i := MAX_RT_DIST]> (depth fb) |}
  else
    Some {| rgba := <[i := background]> (rgba fb);
            depth := <[i := MAX_RT_DIST]> (depth fb) |}.
Proof.
  intros (Hi & Hrgba & Hdepth & Hro & Hrd & Htri). simpl.
  unfold gpu_draw_object.
  destruct (N.leb_spec n_elements (thread_index l)) as [Hle|_]; [lia|].
  rewrite !store_in_bounds by assumption. simpl.
  unfold load. rewrite Hrd, Hro. simpl.
  rewrite closest_loop_fold by lia. rewrite drop_0. simpl.
  destruct (dt _ <? MAX_RT_DIST)%f32.
  - destruct (hit_normal _) as [n|]; simpl; [|reflexivity].
    rewrite store_in_bounds by (rewrite length_insert; assumption).
    simpl. rewrite list_insert_insert_eq. reflexivity.
  - rewrite store_in_bounds by (rewrite length_insert; assumption).
    simpl. rewrite list_insert_insert_eq. reflexivity.
Qed.

(** C9, as the code has it: a thread whose ray meets no triangle at a
    parameter strictly between [MIN_RT_DIST] and [MAX_RT_DIST] writes depth
    [MAX_RT_DIST] and the fixed colour opaque black to its pixel, and
    nothing else; no configured colour enters the kernel. *)
Theorem miss_writes_black (l : Launch) (n_elements width height tri_count : N)
    (ray_origins ray_directions : list (vec3 float)) (triangles : list Triangle)
    (sun : Light) (fb : RenderBuffers) (ro rd : vec3 float) :
  in_bounds l n_elements tri_count ray_origins ray_directions triangles fb ro rd ->
  (forall j trj, j < N.to_nat tri_count -> triangles !! j = Some trj ->
     valid_t (ray_intersect trj ro rd) = false) ->
  gpu_draw_object l n_elements width height tri_count ray_origins ray_directions
    triangles sun fb =
  Some {| rgba := <[N.to_nat (thread_index l) :=
                     mk_vec4 (Binary32.of_Z 0) (Binary32.of_Z 0) (Binary32.of_Z 0) (Binary32.of_Z 1)]>
                  (rgba fb);
          depth := <[N.to_nat (thread_index l) := MAX_RT_DIST]> (depth fb) |}.
Proof.
  intros Hb Hmiss.
  rewrite (gpu_draw_object_unfold _ _ _ _ _ _ _ _ _ _ ro rd Hb). simpl.
  destruct (closest_fold_invariant ro rd (take (N.to_nat tri_count) triangles))
    as [(Hnone & Hdt & Hn) | (k & tri & Hk & Hv & _)].
  - rewrite Hdt, ltb_irrefl. reflexivity.
  - apply lookup_take_Some in Hk as [Hk Hkn]. rewrite (Hmiss _ _ Hkn Hk) in Hv. discriminate.
Qed.

(** C2, as the code has it: a thread whose ray meets a triangle writes to
    its pixel the colour [vec4(ndotv * vec3(1.0, 0.2, 0.0), 1.0)], where
    [ndotv] is the dot product of the normal of the first nearest triangle
    with the direction from the hit point to the light, neither clamped nor
    modulated by a material or a shadow term; the depth of the pixel is
    left at [MAX_RT_DIST]. *)
Theorem hit_writes_unclamped_tint (l : Launch) (n_elements width height tri_count : N)
    (ray_origins ray_directions : list (vec3 float)) (triangles : list Triangle)
    (sun : Light) (fb : RenderBuffers) (ro rd : vec3 float) :
  in_bounds l n_elements tri_count ray_origins ray_directions triangles fb ro rd ->
  (exists j trj, j < N.to_nat tri_count /\ triangles !! j = Some trj /\
     valid_t (ray_intersect trj ro rd) = true) ->
  exists k tri,
    k < N.to_nat tri_count /\ triangles !! k = Some tri /\
    valid_t (ray_intersect tri ro rd) = true /\
    (forall j trj, j < N.to_nat tri_count -> triangles !! j = Some trj ->
       valid_t (ray_intersect trj ro rd) = true ->
       (ray_intersect tri ro rd <=? ray_intersect trj ro rd)%f32 = true) /\
    (forall j trj, j < k -> triangles !! j = Some trj ->
       valid_t (ray_intersect trj ro rd) = true ->
       (ray_intersect tri ro rd <? ray_intersect trj ro rd)%f32 = true) /\
    gpu_draw_object l n_elements width height tri_count ray_origins ray_directions
      triangles sun fb =
    Some {| rgba := <[N.to_nat (thread_index l) := hit_colour ro rd sun tri]> (rgba fb);
            depth := <[N.to_nat (thread_index l) := MAX_RT_DIST]> (depth fb) |}.
Proof.
  intros Hb (j0 & tr0 & Hj0 & Htr0 & Hv0).
  rewrite (gpu_draw_object_unfold _ _ _ _ _ _ _ _ _ _ ro rd Hb). simpl.
  destruct (closest_fold_invariant ro rd (take (N.to_nat tri_count) triangles))
    as [(Hnone & Hdt & Hn) | (k & tri & Hk & Hv & Hdt & Hn & Hmin & Hfirst)].
  - rewrite (Hnone j0 tr0) in Hv0; [discriminate|]. apply lookup_take_Some. auto.
  - apply lookup_take_Some in Hk as [Hk Hkn].
    exists k, tri. rewrite Hdt in Hmin, Hfirst. repeat split; auto.
    + intros j trj Hj Hl. apply (Hmin j). apply lookup_take_Some. auto.
    + intros j trj Hj Hl. apply (Hfirst j); auto. apply lookup_take_Some. split; auto. lia.
    + rewrite Hn, Hdt. simpl.
      unfold valid_t in Hv. apply andb_true_iff in Hv as [_ Hlt]. rewrite Hlt.
      reflexivity.
Qed.

(** C1, as the code has it: within its arrays a thread of the kernel ends
    its triangle loop with [dt] equal to the least ray parameter among the
    triangles whose parameter lies strictly between [MIN_RT_DIST] and
    [MAX_RT_DIST], ties going to the triangle enumerated first, and with
    [MAX_RT_DIST] when there is none.  It writes this parameter nowhere: the
    depth of the pixel is [MAX_RT_DIST] whether or not a triangle was hit,
    and the parameter shows only in the colour, which is the one of the
    first nearest triangle, lit at the point the parameter gives. *)
Theorem gpu_draw_object_shades_first_minimum (l : Launch)
    (n_elements width height tri_count : N)
    (ray_origins ray_directions : list (vec3 float)) (triangles : list Triangle)
    (sun : Light) (fb : RenderBuffers) (ro rd : vec3 float) :
  in_bounds l n_elements tri_count ray_origins ray_directions triangles fb ro rd ->
  exists c colour,
    closest_loop (N.to_nat tri_count) 0 triangles ro rd
      {| dt := MAX_RT_DIST; hit_normal := None |} = Some c /\
    gpu_draw_object l n_elements width height tri_count ray_origins ray_directions
      triangles sun fb =
    Some {| rgba := <[N.to_nat (thread_index l) := colour]> (rgba fb);
            depth := <[N.to_nat (thread_index l) := MAX_RT_DIST]> (depth fb) |} /\
    ((forall j trj, j < N.to_nat tri_count -> triangles !! j = Some trj ->
        valid_t (ray_intersect trj ro rd) = false) /\
     dt c = MAX_RT_DIST /\ colour = background
     \/
     exists k tri,
       k < N.to_nat tri_count /\ triangles !! k = Some tri /\
       valid_t (ray_intersect tri ro rd) = true /\
       dt c = ray_intersect tri ro rd /\
       (forall j trj, j < N.to_nat tri_count -> triangles !! j = Some trj ->
          valid_t (ray_intersect trj ro rd) = true ->
          (dt c <=? ray_intersect trj ro rd)%f32 = true) /\
       (forall j trj, j < k -> triangles !! j = Some trj ->
          valid_t (ray_intersect trj ro rd) = true ->
          (dt c <? ray_intersect trj ro rd)%f32 = true) /\
       colour = hit_colour ro rd sun tri).
Proof.
  intros Hb. pose proof Hb as (_ & _ & _ & _ & _ & Htri).
  rewrite (gpu_draw_object_unfold _ _ _ _ _ _ _ _ _ _ ro rd Hb). cbv zeta.
  rewrite closest_loop_fold by lia. rewrite drop_0.
  destruct (closest_fold_invariant ro rd (take (N.to_nat tri_count) triangles))
    as [(Hnone & Hdt & Hn) | (k & tri & Hk & Hv & Hdt & Hn & Hmin & Hfirst)].
  - eexists. exists background. split; [reflexivity|]. split.
    + rewrite Hdt, ltb_irrefl. reflexivity.
    + left. split; [|split; [exact Hdt|reflexivity]].
      intros j trj Hj Hl. apply (Hnone j). apply lookup_take_Some. auto.
  - apply lookup_take_Some in Hk as [Hk Hkn].
    eexists. exists (hit_colour ro rd sun tri). split; [reflexivity|]. split.
    + rewrite Hn, Hdt. simpl.
      unfold valid_t in Hv. apply andb_true_iff in Hv as [_ Hlt]. rewrite Hlt.
      reflexivity.
    + right. exists k, tri. repeat split; auto.
      * intros j trj Hj Hl. apply (Hmin j). apply lookup_take_Some. auto.
      * intros j trj Hj Hl. apply (Hfirst j); auto. apply lookup_take_Some.
        split; auto. lia.
Qed.

End KernelTheorems.

(** ** The blit *)

Section BlitFacts.
Context {F : Type} `{Scalar F}.
Import GL.

Lemma bound_texture_set_tex_param (pname : TexPname) (v : Z) (s : State F) :
  bound_texture (set_tex_param pname v s) = bound_texture s.
Proof. reflexivity. Qed.

Lemma bound_texture_bind (t u : Z) (s : State F) :
  bound_texture (bind_texture_2d t (set_active_texture u s)) = t.
Proof. unfold bound_texture. simpl. rewrite lookup_insert_eq. reflexivity. Qed.

Lemma tex_params_set_tex_param (pname : TexPname) (v b : Z) (s : State F) :
  bound_texture s = b ->
  tex_params (set_tex_param pname v s) =
  <[b := set_param pname v (params_of s b)]> (tex_params s).
Proof. intros <-. reflexivity. Qed.

Lemma params_of_set_tex_param (pname : TexPname) (v b : Z) (s : State F) :
  bound_texture s = b ->
  params_of (set_tex_param pname v s) b = set_param pname v (params_of s b).
Proof.
  intros Hb. unfold params_of at 1.
  rewrite (tex_params_set_tex_param _ _ b) by exact Hb.
  rewrite lookup_insert_eq. reflexivity.
Qed.

Lemma tex_params_bind (t u : Z) (s : State F) :
  tex_params (bind_texture_2d t (set_active_texture u s)) = tex_params s.
Proof. reflexivity. Qed.

Lemma tex_params_with_raster (f : Raster -> Raster) (s : State F) :
  tex_params (with_raster f s) = tex_params s.
Proof. reflexivity. Qed.

Lemma tex_params_set_program (p : Z) (s : State F) :
  tex_params (set_program p s) = tex_params s.
Proof. reflexivity. Qed.

Lemma tex_params_set_uniform (k : string) (v : UniformValue F) (s : State F) :
  tex_params (set_uniform k v s) = tex_params s.
Proof. reflexivity. Qed.

(** The four [glTexParameteri] calls of a block leave the bound texture
    object with exactly the parameters they name. *)
Lemma tex_params_block (f : Z) (s : State F) :
  tex_params (set_tex_param GL_TEXTURE_MAG_FILTER f
             (set_tex_param GL_TEXTURE_MIN_FILTER f
             (set_tex_param GL_TEXTURE_WRAP_T GL_REPEAT
             (set_tex_param GL_TEXTURE_WRAP_S GL_REPEAT s)))) =
  <[bound_texture s := sampling f]> (tex_params s).
Proof.
  set (b := bound_texture s).
  rewrite (tex_params_set_tex_param _ _ b) by reflexivity.
  rewrite (params_of_set_tex_param _ _ b) by reflexivity.
  rewrite (tex_params_set_tex_param _ _ b) by reflexivity.
  rewrite (params_of_set_tex_param _ _ b) by reflexivity.
  rewrite (tex_params_set_tex_param _ _ b) by reflexivity.
  rewrite (params_of_set_tex_param _ _ b) by reflexivity.
  rewrite (tex_params_set_tex_param _ _ b) by reflexivity.
  rewrite !insert_insert_eq.
  reflexivity.
Qed.

Lemma lookup_writes {V} (l : list (string * V)) (m : gmap string V) (k : string) :
  writes l m !! k = match written l k with Some v => Some v | None => m !! k end.
Proof.
  induction l as [|[k' v] l IH]; simpl; [reflexivity|].
  destruct (String.eqb_spec k' k) as [->|Hne].
  - apply lookup_insert_eq.
  - rewrite lookup_insert_ne by exact Hne. exact IH.
Qed.

Ltac reify_writes m :=
  lazymatch m with
  | <[?k := ?v]> ?m' =>
      let r := reify_writes m' in
      lazymatch r with
      | (?l, ?base) => constr:(((k, v) :: l, base))
      end
  | ?base => constr:((@nil (string * UniformValue F), base))
  end.

Lemma uniform_int_written (s : State F) l base k v :
  uniforms s = writes l base -> written l k = Some (U1i v) -> uniform_int s k = v.
Proof. intros Hs Hk. unfold uniform_int. rewrite Hs, lookup_writes, Hk. reflexivity. Qed.

Lemma uniform_ivec2_written (s : State F) l base k x y :
  uniforms s = writes l base -> written l k = Some (U2i x y) -> uniform_ivec2 s k = (x, y).
Proof. intros Hs Hk. unfold uniform_ivec2. rewrite Hs, lookup_writes, Hk. reflexivity. Qed.

Lemma uniform_float_written (s : State F) l base k v :
  uniforms s = writes l base -> written l k = Some (U1f v) -> uniform_float s k = v.
Proof. intros Hs Hk. unfold uniform_float. rewrite Hs, lookup_writes, Hk. reflexivity. Qed.

Ltac gl_fields :=
  lazy [raster program uniforms active_texture texture_binding_2d tex_params tex_image
        set_program set_uniform set_active_texture bind_texture_2d set_tex_param with_raster].

Ltac uniforms_written st :=
  let m := eval lazy [uniforms set_program set_uniform set_active_texture bind_texture_2d
                      set_tex_param with_raster] in (uniforms st) in
  let r := reify_writes m in
  lazymatch r with
  | (?l, ?base) =>
      let HU := fresh "HU" in
      assert (HU : uniforms st = writes l base) by reflexivity;
      let x := fresh "st" in
      generalize dependent st; intros x HU;
      unfold shader_uniforms, uniform_warp;
      repeat f_equal;
      first [ eapply uniform_int_written; [exact HU | vm_compute; reflexivity]
            | eapply uniform_ivec2_written; [exact HU | vm_compute; reflexivity]
            | eapply uniform_float_written; [exact HU | vm_compute; reflexivity] ]
  end.

Ltac run_gl :=
  lazy [transfer_texture bind_warp mbind mret Cmd_bind Cmd_ret bind ret modify get
        glIsEnabled glEnable glDisable glDepthFunc glDepthMask glBindVertexArray
        glUseProgram glGetUniformLocation glUniform1i glUniform1iv glUniform2iv
        glUniform1f glActiveTexture glBindTexture glTexParameteri glBindFramebuffer
        glViewport glDrawArrays snd fst now drawn negb
        Frag.al Frag.bl Frag.cl Frag.am Frag.bm Frag.ar Frag.br Frag.cr
        Frag.switch_left Frag.switch_right Frag.inv_switch_left Frag.inv_switch_right
        fov_warp_x fov_warp_y String.append].

Lemma blit_state (d : Display)
    (foveation : Foveation F) (syn_rgba syn_depth rgba_filter_mode nerf_rgba nerf_depth
     framebuffer : Z) (offset resolution nerf_res syn_res : Z * Z) (filter_type : Z)
    (g : Context F) :
  m_blit_program d <> 0%Z ->
  exists s,
    drawn (snd (transfer_texture d foveation syn_rgba syn_depth
                  rgba_filter_mode nerf_rgba nerf_depth framebuffer offset resolution
                  nerf_res syn_res filter_type g)) = drawn g ++ [s] /\
    program s = m_blit_program d /\
    shader_uniforms s =
      {| Frag.syn_rgba := 0; Frag.syn_depth := 1; Frag.nerf_rgba := 2; Frag.nerf_depth := 3;
         Frag.nerf_resolution := nerf_res; Frag.syn_resolution := syn_res;
         Frag.full_resolution := resolution;
         Frag.warp_x := fov_warp_x foveation; Frag.warp_y := fov_warp_y foveation |} /\
    texture_binding_2d s =
      <[0%Z := syn_rgba]> (<[1%Z := syn_depth]> (<[2%Z := nerf_rgba]> (<[3%Z := nerf_depth]>
        (texture_binding_2d (now g))))) /\
    tex_params s =
      <[syn_rgba := sampling rgba_filter_mode]> (<[syn_depth := sampling GL_NEAREST]>
        (<[nerf_rgba := sampling GL_NEAREST]> (<[nerf_depth := sampling rgba_filter_mode]>
          (tex_params (now g))))) /\
    tex_image s = tex_image (now g).
Proof.
  intros Hprog. unfold transfer_texture.
  destruct (Z.eqb_spec (m_blit_program d) 0) as [?|_]; [contradiction|].
  destruct g as [s0 d0], nerf_res, syn_res, resolution, foveation as [[] []].
  run_gl.
  destruct (get_cap GL_TEXTURE_2D (raster s0)),
           (get_cap GL_DEPTH_TEST (raster s0)),
           (get_cap GL_CULL_FACE (raster s0)).
  all: run_gl.
  all: eexists; split; [reflexivity|].
  all: split; [gl_fields; reflexivity|].
  all: split;
    [ match goal with |- shader_uniforms ?s = _ => uniforms_written s end
    | split;
      [ gl_fields; reflexivity
      | split;
        [ rewrite !tex_params_with_raster;
          repeat (rewrite tex_params_block, bound_texture_bind, tex_params_bind);
          rewrite ?tex_params_with_raster, ?tex_params_set_program, ?tex_params_set_uniform;
          reflexivity
        | gl_fields; reflexivity ] ] ].
Qed.
End BlitFacts.

Section BlitTheorems.
Context {F : Type} `{Scalar F}.
Import GL.

(** C3, as the code has it: the fragments of the blit take their colour from
    the synthetic colour texture alone, sampled at the unwarped, vertically
    flipped coordinate with the filter chosen by the caller, with alpha set
    to one; their depth is the first channel of the synthetic depth texture,
    sampled at the same coordinate with nearest filtering.  The neural
    colour texture is bound to unit 2 with nearest filtering, and no image
    of a neural texture enters the result. *)
Theorem blit_shades_synthetic_only (d : Display)
    (foveation : Foveation F) (syn_rgba syn_depth rgba_filter_mode nerf_rgba nerf_depth
     framebuffer : Z) (offset resolution nerf_res syn_res : Z * Z) (filter_type : Z)
    (g : Context F) (rgba_image depth_image : Image F) :
  m_blit_program d <> 0%Z ->
  syn_depth <> syn_rgba ->
  tex_image (now g) !! syn_rgba = Some rgba_image ->
  tex_image (now g) !! syn_depth = Some depth_image ->
  exists s,
    drawn (snd (transfer_texture d foveation syn_rgba syn_depth rgba_filter_mode
                  nerf_rgba nerf_depth framebuffer offset resolution nerf_res syn_res
                  filter_type g)) = drawn g ++ [s] /\
    (forall UVs : vec2 F,
       let tex_coords :=
         mk_vec2 (Frag.unwarp (fov_warp_x foveation) (v2x UVs))
                 (Frag.unwarp (fov_warp_y foveation) (lit 1 - v2y UVs)%glsl) in
       shade s UVs =
       {| Frag.frag_color :=
            vec4_of (rgb (rgba_image (sampling rgba_filter_mode) tex_coords)) (lit 1);
          Frag.gl_FragDepth := v4x (depth_image (sampling GL_NEAREST) tex_coords) |}) /\
    texture_binding_2d s !! 2%Z = Some nerf_rgba /\
    (nerf_rgba <> syn_rgba -> params_of s nerf_rgba = sampling GL_NEAREST).
Proof.
  intros Hprog Hne Hrgba Hdepth.
  destruct (blit_state d foveation syn_rgba syn_depth rgba_filter_mode nerf_rgba nerf_depth
              framebuffer offset resolution nerf_res syn_res filter_type g Hprog)
    as (s & Hdrawn & _ & Hu & Hbind & Hpar & Himg).
  exists s. split; [exact Hdrawn|]. split; [|split].
  - intros UVs tex_coords.
    unfold shade, Frag.main. rewrite Hu. cbn [Frag.syn_rgba Frag.syn_depth].
    unfold Frag.unwarp2. cbn [Frag.warp_x Frag.warp_y v2x v2y].
    fold tex_coords.
    unfold texture, params_of. rewrite Hbind, Hpar, Himg.
    unfold Image in *.
    rewrite lookup_insert_eq, Hrgba, lookup_insert_eq.
    rewrite (lookup_insert_ne _ 0%Z 1%Z) by discriminate.
    rewrite lookup_insert_eq, Hdepth.
    rewrite (lookup_insert_ne _ syn_rgba syn_depth) by congruence.
    rewrite lookup_insert_eq. reflexivity.
  - rewrite Hbind.
    rewrite (lookup_insert_ne _ 0%Z 2%Z), (lookup_insert_ne _ 1%Z 2%Z) by discriminate.
    apply lookup_insert_eq.
  - intros Hn. unfold params_of. rewrite Hpar.
    rewrite (lookup_insert_ne _ syn_rgba nerf_rgba) by congruence.
    destruct (decide (syn_depth = nerf_rgba)) as [->|Hd].
    + rewrite lookup_insert_eq. reflexivity.
    + rewrite (lookup_insert_ne _ syn_depth nerf_rgba) by exact Hd.
      rewrite lookup_insert_eq. reflexivity.
Qed.

End BlitTheorems.

(** The reference blit satisfies the hypotheses of the theorem. *)
Lemma blit_shades_synthetic_only_witness :
  exists s,
    GL.drawn BlitScene.blit = [] ++ [s] /\
    (forall UVs : vec2 float,
       let tex_coords :=
         mk_vec2 (Frag.unwarp BlitScene.identity_warp (v2x UVs))
                 (Frag.unwarp BlitScene.identity_warp (lit 1 - v2y UVs)%glsl) in
       GL.shade s UVs =
       {| Frag.frag_color :=
            vec4_of (rgb (BlitScene.flat 0 0 0 0 (GL.sampling GL.GL_LINEAR) tex_coords)) (lit 1);
          Frag.gl_FragDepth :=
            v4x (BlitScene.flat 1 0 0 0 (GL.sampling GL.GL_NEAREST) tex_coords) |}) /\
    GL.texture_binding_2d s !! 2%Z = Some 20%Z /\
    (20%Z <> 10%Z -> GL.params_of s 20 = GL.sampling GL.GL_NEAREST).
Proof.
  apply (blit_shades_synthetic_only BlitScene.display BlitScene.foveation 10 11
           GL.GL_LINEAR 20 21 0 (0, 0)%Z (512, 512)%Z (256, 256)%Z (64, 64)%Z 0
           BlitScene.context (BlitScene.flat 0 0 0 0) (BlitScene.flat 1 0 0 0)).
  - simpl. lia.
  - lia.
  - reflexivity.
  - reflexivity.
Defined.

(** C3 as stated fails: where the synthetic sample is fully transparent and
    the neural sample is opaque white, compositing the synthetic sample
    over the neural one gives white, but the shader writes opaque black. *)
Lemma blit_ignores_neural_sample :
  exists s,
    GL.drawn BlitScene.blit = [s] /\
    Frag.frag_color (GL.shade s BlitScene.centre) =
      mk_vec4 (Binary32.of_Z 0) (Binary32.of_Z 0) (Binary32.of_Z 0) (Binary32.of_Z 1) /\
    Frag.spec_composite (GL.shader_uniforms s) (GL.texture s) BlitScene.centre =
      mk_vec4 (Binary32.of_Z 1) (Binary32.of_Z 1) (Binary32.of_Z 1) (Binary32.of_Z 1) /\
    Frag.frag_color (GL.shade s BlitScene.centre) <>
      Frag.spec_composite (GL.shader_uniforms s) (GL.texture s) BlitScene.centre.
Proof.
  destruct (GL.drawn BlitScene.blit) as [|s l] eqn:E; [vm_compute in E; discriminate|].
  destruct l; [|vm_compute in E; discriminate].
  exists s. split; [reflexivity|].
  assert (Hs : [s] = GL.drawn BlitScene.blit) by (symmetry; exact E).
  vm_compute in Hs. injection Hs as ->.
  split; [vm_compute; reflexivity|]. split; [vm_compute; reflexivity|].
  vm_compute. discriminate.
Qed.

(** ** The inverse warp on binary32 values *)

Module WarpFacts.
Import Frag RealWarp.

(** *** Subtracting zero and dividing by one *)










(** *** The clamp *)




(** *** A warp whose linear piece is the whole interval *)




(** *** The reference warps *)









End WarpFacts.

(** ** The kernel on the reference geometry *)

Module SceneFacts.
Import Scene.

Example floor_is_hit_at_5 : ray_intersect floor_tri eye down = Binary32.of_Z 5.
Proof. vm_compute. reflexivity. Qed.

Example shelf_is_hit_at_4 : ray_intersect shelf_tri eye down = Binary32.of_Z 4.
Proof. vm_compute. reflexivity. Qed.

(** Two triangles met at the same parameter: the first one keeps the hit. *)
Example tie_first_wins :
  closest_loop 2 0 [floor_tri; floor_tri_flipped] eye down
    {| dt := MAX_RT_DIST; hit_normal := None |} =
  Some {| dt := Binary32.of_Z 5; hit_normal := Some (pt 0 0 1) |}.
Proof. vm_compute. reflexivity. Qed.

Example tie_first_wins_swapped :
  closest_loop 2 0 [floor_tri_flipped; floor_tri] eye down
    {| dt := MAX_RT_DIST; hit_normal := None |} =
  Some {| dt := Binary32.of_Z 5; hit_normal := Some (pt 0 0 (-1)) |}.
Proof. vm_compute. reflexivity. Qed.

Lemma thread0_in_bounds (rd : vec3 float) (tris : list Triangle) (n : N) :
  N.to_nat n <= length tris ->
  in_bounds thread0 1 n [eye] [rd] tris blank eye rd.
Proof.
  intros Hn. unfold in_bounds. change (thread_index thread0) with 0%N.
  simpl. repeat split; try reflexivity; try lia. exact Hn.
Qed.

Lemma gpu_draw_object_shades_first_minimum_witness :
  in_bounds thread0 1 3 [eye] [down] stack blank eye down /\
  exists c colour,
    closest_loop 3 0 stack eye down {| dt := MAX_RT_DIST; hit_normal := None |} = Some c /\
    gpu_draw_object thread0 1 1 1 3 [eye] [down] stack sun_above blank =
    Some {| rgba := <[N.to_nat (thread_index thread0) := colour]> (rgba blank);
            depth := <[N.to_nat (thread_index thread0) := MAX_RT_DIST]> (depth blank) |} /\
    ((forall j trj, j < 3 -> stack !! j = Some trj ->
        valid_t (ray_intersect trj eye down) = false) /\
     dt c = MAX_RT_DIST /\ colour = background
     \/
     exists k tri,
       k < 3 /\ stack !! k = Some tri /\
       valid_t (ray_intersect tri eye down) = true /\
       dt c = ray_intersect tri eye down /\
       (forall j trj, j < 3 -> stack !! j = Some trj ->
          valid_t (ray_intersect trj eye down) = true ->
          (dt c <=? ray_intersect trj eye down)%f32 = true) /\
       (forall j trj, j < k -> stack !! j = Some trj ->
          valid_t (ray_intersect trj eye down) = true ->
          (dt c <? ray_intersect trj eye down)%f32 = true) /\
       colour = hit_colour eye down sun_above tri).
Proof.
  assert (Hb : in_bounds thread0 1 3 [eye] [down] stack blank eye down)
    by (apply thread0_in_bounds; simpl; lia).
  split; [exact Hb|].
  apply (gpu_draw_object_shades_first_minimum thread0 1 1 1 3 [eye] [down] stack
           sun_above blank eye down Hb).
Defined.

(** C1 as stated fails: the kernel reports no ray parameter.  The ray
    meets the floor at parameter 5 and the shelf at parameter 4, both
    between the two distance constants, and the kernel leaves the same
    colour and the same depth, [MAX_RT_DIST], for either of them. *)
Lemma kernel_output_holds_no_distance :
  ray_intersect floor_tri eye down = Binary32.of_Z 5 /\
  ray_intersect shelf_tri eye down = Binary32.of_Z 4 /\
  valid_t (ray_intersect floor_tri eye down) = true /\
  valid_t (ray_intersect shelf_tri eye down) = true /\
  gpu_draw_object thread0 1 1 1 1 [eye] [down] [floor_tri] sun_above blank =
  gpu_draw_object thread0 1 1 1 1 [eye] [down] [shelf_tri] sun_above blank /\
  exists fb',
    gpu_draw_object thread0 1 1 1 1 [eye] [down] [shelf_tri] sun_above blank = Some fb' /\
    depth fb' = [MAX_RT_DIST].
Proof.
  split; [vm_compute; reflexivity|]. split; [vm_compute; reflexivity|].
  split; [vm_compute; reflexivity|]. split; [vm_compute; reflexivity|].
  split; [vm_compute; reflexivity|].
  eexists. split; [vm_compute; reflexivity|]. vm_compute. reflexivity.
Qed.

Lemma miss_writes_black_witness :
  in_bounds thread0 1 1 [eye] [sideways] [floor_tri] blank eye sideways /\
  (forall j trj, j < N.to_nat 1 -> [floor_tri] !! j = Some trj ->
     valid_t (ray_intersect trj eye sideways) = false) /\
  gpu_draw_object thread0 1 1 1 1 [eye] [sideways] [floor_tri] sun_above blank =
  Some {| rgba := <[N.to_nat (thread_index thread0) :=
                     mk_vec4 (Binary32.of_Z 0) (Binary32.of_Z 0) (Binary32.of_Z 0) (Binary32.of_Z 1)]>
                  (rgba blank);
          depth := <[N.to_nat (thread_index thread0) := MAX_RT_DIST]> (depth blank) |}.
Proof.
  assert (Hb : in_bounds thread0 1 1 [eye] [sideways] [floor_tri] blank eye sideways)
    by (apply thread0_in_bounds; simpl; lia).
  assert (Hmiss : forall j trj, j < N.to_nat 1 -> [floor_tri] !! j = Some trj ->
            valid_t (ray_intersect trj eye sideways) = false).
  { intros j trj Hj Hl. destruct j; [|simpl in Hj; lia].
    injection Hl as <-. vm_compute. reflexivity. }
  split; [exact Hb|]. split; [exact Hmiss|].
  apply (miss_writes_black thread0 1 1 1 1 [eye] [sideways] [floor_tri] sun_above blank
           eye sideways Hb Hmiss).
Defined.

(** C9 as stated fails: with a white clear colour configured, a pixel whose
    ray meets no triangle is still written opaque black. *)
Lemma miss_colour_ignores_clear_colour :
  exists fb,
    gpu_draw_object thread0 1 1 1 1 [eye] [sideways] [floor_tri] sun_above blank = Some fb /\
    depth fb !! 0 = Some MAX_RT_DIST /\
    rgba fb !! 0 =
      Some (mk_vec4 (Binary32.of_Z 0) (Binary32.of_Z 0) (Binary32.of_Z 0) (Binary32.of_Z 1)) /\
    rgba fb !! 0 <> Some (vec4_of white (Binary32.of_Z 1)).
Proof.
  eexists. split; [vm_compute; reflexivity|].
  split; [reflexivity|]. split; [reflexivity|].
  vm_compute. discriminate.
Qed.

Lemma hit_writes_unclamped_tint_witness :
  in_bounds thread0 1 3 [eye] [down] stack blank eye down /\
  (exists j trj, j < N.to_nat 3 /\ stack !! j = Some trj /\
     valid_t (ray_intersect trj eye down) = true) /\
  exists k tri,
    k < N.to_nat 3 /\ stack !! k = Some tri /\
    valid_t (ray_intersect tri eye down) = true /\
    (forall j trj, j < N.to_nat 3 -> stack !! j = Some trj ->
       valid_t (ray_intersect trj eye down) = true ->
       (ray_intersect tri eye down <=? ray_intersect trj eye down)%f32 = true) /\
    (forall j trj, j < k -> stack !! j = Some trj ->
       valid_t (ray_intersect trj eye down) = true ->
       (ray_intersect tri eye down <? ray_intersect trj eye down)%f32 = true) /\
    gpu_draw_object thread0 1 1 1 3 [eye] [down] stack sun_above blank =
    Some {| rgba := <[N.to_nat (thread_index thread0) := hit_colour eye down sun_above tri]>
                      (rgba blank);
            depth := <[N.to_nat (thread_index thread0) := MAX_RT_DIST]> (depth blank) |}.
Proof.
  assert (Hb : in_bounds thread0 1 3 [eye] [down] stack blank eye down)
    by (apply thread0_in_bounds; simpl; lia).
  assert (Hhit : exists j trj, j < N.to_nat 3 /\ stack !! j = Some trj /\
            valid_t (ray_intersect trj eye down) = true).
  { exists 0, floor_tri. split; [simpl; lia|]. split; [reflexivity|]. vm_compute. reflexivity. }
  split; [exact Hb|]. split; [exact Hhit|].
  apply (hit_writes_unclamped_tint thread0 1 1 1 3 [eye] [down] stack sun_above blank
           eye down Hb Hhit).
Defined.

(** C2 as stated fails: under a light placed behind the triangle the kernel
    writes a negative red channel, which no albedo and attenuation can
    produce from [max(0, dot(normal, direction_to_light))]; and the depth
    it writes for this hit is the miss sentinel. *)
Lemma hit_colour_is_not_clamped :
  exists fb c,
    gpu_draw_object thread0 1 1 1 1 [eye] [down] [floor_tri] sun_below blank = Some fb /\
    depth fb !! 0 = Some MAX_RT_DIST /\
    rgba fb !! 0 = Some c /\
    (v4x c <? Binary32.of_Z 0)%f32 = true /\
    forall albedo attenuation,
      rgb c <>
      spec_direct_light (normal floor_tri)
        (normalize (Vec3f.sub (pos sun_below)
                      (Vec3f.add eye (Vec3f.scale down (ray_intersect floor_tri eye down)))))
        albedo attenuation.
Proof.
  eexists. eexists. split; [vm_compute; reflexivity|].
  split; [reflexivity|]. split; [reflexivity|]. split; [vm_compute; reflexivity|].
  intros albedo attenuation Heq.
  apply (f_equal v3x) in Heq.
  unfold spec_direct_light in Heq.
  change (fmax _ _) with (Binary32.of_Z 0 : float) in Heq.
  destruct albedo as [ax ay az]. cbn [rgb v3x v4x Vec3f.scale Vec3f.smul] in Heq.
  destruct ax as [[]|[]| |[] ? ?], attenuation as [[]|[]| |[] ? ?];
    vm_compute in Heq; discriminate.
Qed.

End SceneFacts.

(** ** Scene staging *)

Section StagingFacts.
Context `{SceneLib}.

Lemma scan_dirty_spec {A} (l : list (Entity A)) (any : bool) :
  scan_dirty any l = (any || existsb is_dirty l, map clear_dirty l).
Proof.
  revert any. induction l as [|m l IH]; intros any; simpl.
  - rewrite orb_false_r. reflexivity.
  - rewrite IH, orb_assoc. reflexivity.
Qed.

Lemma fill_h_world_spec (e : Engine) (l : list (Entity ObjectState)) :
  fill_h_world (m_enable_animations e) (m_anim_speed e) l =
  (map (advance_object e) l, map pack (map (advance_object e) l)).
Proof.
  induction l as [|obj l IH]; simpl; [reflexivity|].
  rewrite IH. reflexivity.
Qed.

Lemma update_world_objects_spec (e : Engine) :
  update_world_objects e =
  let objects' :=
    if objects_changed e then map (advance_object e) (map clear_dirty (m_objects e))
    else map clear_dirty (m_objects e) in
  let materials' := map clear_dirty (m_materials e) in
  let lights' :=
    if lights_changed e then map (advance_light e) (map clear_dirty (m_lights e))
    else map clear_dirty (m_lights e) in
  let reset := any_changed e || m_is_dirty e in
  {| m_is_dirty := m_is_dirty e;
     m_testbed :=
       match m_testbed e with
       | Some tb => Some (if reset then reset_accumulation_tb tb else tb)
       | None => None
       end;
     m_raytracer :=
       match m_testbed e with
       | Some _ => if reset then reset_accumulation_rt (m_raytracer e) else m_raytracer e
       | None => m_raytracer e
       end;
     m_materials := materials';
     m_objects := objects';
     m_lights := lights';
     d_world := if objects_changed e then map pack objects' else d_world e;
     d_materials := if materials_changed e then materials' else d_materials e;
     d_lights := if lights_changed e then lights' else d_lights e;
     m_enable_animations := m_enable_animations e;
     m_anim_speed := m_anim_speed e;
     uploads := uploads e ++ (if objects_changed e then [Objects] else [])
                          ++ (if materials_changed e then [Materials] else [])
                          ++ (if lights_changed e then [Lights] else []) |}.
Proof.
  unfold update_world_objects, any_changed, objects_changed, materials_changed, lights_changed.
  rewrite !scan_dirty_spec. cbn [orb].
  rewrite fill_h_world_spec. unfold advance_lights.
  destruct (existsb is_dirty (m_objects e)) eqn:Eo,
           (existsb is_dirty (m_materials e)) eqn:Em,
           (existsb is_dirty (m_lights e)) eqn:El,
           (m_enable_animations e) eqn:Ea,
           (m_is_dirty e) eqn:Ed,
           (m_testbed e) as [tb|] eqn:Et;
    cbn [orb]; unfold advance_light; rewrite ?Ea, ?app_nil_r, <- ?app_assoc;
    reflexivity.
Qed.

End StagingFacts.

Section StagingTheorems.
Context `{SceneLib}.

Lemma count_dirty_zero {A} (l : list (Entity A)) :
  count_dirty l = 0 -> existsb is_dirty l = false.
Proof.
  unfold count_dirty. induction l as [|m l IH]; simpl; [reflexivity|].
  rewrite filter_cons. destruct (decide (is_dirty m = true)) as [Hd|Hd]; simpl.
  - discriminate.
  - intros Hl. destruct (is_dirty m); [congruence|]. simpl. auto.
Qed.

Lemma count_dirty_pos {A} (l : list (Entity A)) :
  0 < count_dirty l -> existsb is_dirty l = true.
Proof.
  intros Hpos. destruct (existsb is_dirty l) eqn:E; [reflexivity|].
  exfalso. unfold count_dirty in Hpos.
  induction l as [|m l IH]; simpl in *; [lia|].
  apply orb_false_iff in E as [Em El].
  rewrite filter_cons in Hpos.
  destruct (decide (is_dirty m = true)); [congruence|]. auto.
Qed.

Lemma all_clean_clear_dirty {A} (l : list (Entity A)) : all_clean (map clear_dirty l).
Proof. unfold all_clean. apply Forall_map, Forall_forall. intros; reflexivity. Qed.

Lemma all_clean_advance_object (e : Engine) (l : list (Entity ObjectState)) :
  m_enable_animations e = false \/ next_frame_keeps_flags ->
  all_clean l -> all_clean (map (advance_object e) l).
Proof.
  intros Hk Hl. unfold all_clean in *. apply Forall_map.
  eapply Forall_impl; [exact Hl|]. intros obj Hobj. simpl.
  unfold advance_object. destruct (m_enable_animations e) eqn:Ea; [|exact Hobj].
  destruct Hk as [Hk|[Hk _]]; [discriminate|]. rewrite Hk. exact Hobj.
Qed.

Lemma all_clean_advance_light (e : Engine) (l : list (Entity LightState)) :
  m_enable_animations e = false \/ next_frame_keeps_flags ->
  all_clean l -> all_clean (map (advance_light e) l).
Proof.
  intros Hk Hl. unfold all_clean in *. apply Forall_map.
  eapply Forall_impl; [exact Hl|]. intros obj Hobj. simpl.
  unfold advance_light. destruct (m_enable_animations e) eqn:Ea; [|exact Hobj].
  destruct Hk as [Hk|[_ Hk]]; [discriminate|]. rewrite Hk. exact Hobj.
Qed.

Lemma flags_cleared (e : Engine) :
  all_clean (m_materials (update_world_objects e)) /\
  (m_enable_animations e = false \/ next_frame_keeps_flags ->
   all_clean (m_objects (update_world_objects e)) /\
   all_clean (m_lights (update_world_objects e))).
Proof.
  rewrite update_world_objects_spec. cbn [m_materials m_objects m_lights].
  split; [apply all_clean_clear_dirty|]. intros Hk. split.
  - destruct (objects_changed e); [apply all_clean_advance_object; [exact Hk|]|];
      apply all_clean_clear_dirty.
  - destruct (lights_changed e); [apply all_clean_advance_light; [exact Hk|]|];
      apply all_clean_clear_dirty.
Qed.

(** C4, as the code has it: with a testbed attached, a frame in which no
    entity is dirty, the redraw flag is not set and animations are disabled
    uploads nothing and resets nothing; a frame in which exactly one entity
    is dirty resets the accumulation of the ray tracer and of the testbed
    exactly once, and leaves every dirty flag cleared (the flags of objects
    and lights provided [next_frame], which runs after the clearing when
    animations are enabled, does not set them again). *)
Theorem idle_and_single_dirty_frames (e : Engine) (tb : Testbed) :
  m_testbed e = Some tb ->
  (dirty_entities e = 0 -> m_is_dirty e = false -> m_enable_animations e = false ->
     uploads (update_world_objects e) = uploads e /\
     d_world (update_world_objects e) = d_world e /\
     d_materials (update_world_objects e) = d_materials e /\
     d_lights (update_world_objects e) = d_lights e /\
     m_raytracer (update_world_objects e) = m_raytracer e /\
     m_testbed (update_world_objects e) = Some tb) /\
  (dirty_entities e = 1 ->
     rt_resets (m_raytracer (update_world_objects e)) = S (rt_resets (m_raytracer e)) /\
     m_testbed (update_world_objects e) = Some {| tb_resets := S (tb_resets tb) |} /\
     all_clean (m_materials (update_world_objects e)) /\
     (m_enable_animations e = false \/ next_frame_keeps_flags ->
      all_clean (m_objects (update_world_objects e)) /\
      all_clean (m_lights (update_world_objects e)))).
Proof.
  intros Htb. split.
  - intros Hzero Hredraw Hanim. unfold dirty_entities in Hzero.
    assert (Ho : existsb is_dirty (m_objects e) = false) by (apply count_dirty_zero; lia).
    assert (Hm : existsb is_dirty (m_materials e) = false) by (apply count_dirty_zero; lia).
    assert (Hl : existsb is_dirty (m_lights e) = false) by (apply count_dirty_zero; lia).
    rewrite update_world_objects_spec.
    unfold any_changed, objects_changed, materials_changed, lights_changed.
    rewrite Ho, Hm, Hl, Hanim, Hredraw, Htb. cbn. rewrite ?app_nil_r. repeat split; reflexivity.
  - intros Hone.
    assert (Hany : any_changed e = true).
    { unfold any_changed, objects_changed, materials_changed, lights_changed.
      unfold dirty_entities in Hone.
      destruct (count_dirty (m_objects e)) eqn:Eo.
      - destruct (count_dirty (m_materials e)) eqn:Em.
        + rewrite (count_dirty_pos (m_lights e)) by lia.
          rewrite orb_true_l, orb_true_r. reflexivity.
        + rewrite (count_dirty_pos (m_materials e)) by lia.
          rewrite orb_true_r. reflexivity.
      - rewrite (count_dirty_pos (m_objects e)) by lia. reflexivity. }
    destruct (flags_cleared e) as [Hmat Hrest].
    split; [|split; [|split; [exact Hmat|exact Hrest]]].
    + rewrite update_world_objects_spec. cbn. rewrite Htb, Hany. reflexivity.
    + rewrite update_world_objects_spec. cbn. rewrite Htb, Hany. reflexivity.
Qed.

(** C5, as the code has it: the step scans the three categories; a category
    with a dirty entity is rebuilt and uploaded whole (objects and lights
    also whenever animations are enabled), and no other upload happens; the
    dirty flag of every entity is cleared, before [next_frame] runs on the
    objects and lights when animations are enabled, so that every material
    ends clean, and every object and light does when animations are
    disabled or [next_frame] leaves the flag alone; and, with a testbed
    attached, the accumulation is reset exactly when a category was
    uploaded or the redraw flag of the engine is set. *)
Theorem staging_sync (e : Engine) (tb : Testbed) :
  m_testbed e = Some tb ->
  uploads (update_world_objects e) =
    uploads e ++ (if objects_changed e then [Objects] else [])
              ++ (if materials_changed e then [Materials] else [])
              ++ (if lights_changed e then [Lights] else []) /\
  d_world (update_world_objects e) =
    (if objects_changed e then map pack (m_objects (update_world_objects e)) else d_world e) /\
  d_materials (update_world_objects e) =
    (if materials_changed e then m_materials (update_world_objects e) else d_materials e) /\
  d_lights (update_world_objects e) =
    (if lights_changed e then m_lights (update_world_objects e) else d_lights e) /\
  (existsb is_dirty (m_objects e) = true -> objects_changed e = true) /\
  (existsb is_dirty (m_lights e) = true -> lights_changed e = true) /\
  all_clean (m_materials (update_world_objects e)) /\
  (m_enable_animations e = false \/ next_frame_keeps_flags ->
   all_clean (m_objects (update_world_objects e)) /\
   all_clean (m_lights (update_world_objects e))) /\
  m_raytracer (update_world_objects e) =
    (if any_changed e || m_is_dirty e
     then {| rt_resets := S (rt_resets (m_raytracer e)) |} else m_raytracer e) /\
  m_testbed (update_world_objects e) =
    Some (if any_changed e || m_is_dirty e
          then {| tb_resets := S (tb_resets tb) |} else tb) /\
  m_materials (update_world_objects e) = map clear_dirty (m_materials e) /\
  m_objects (update_world_objects e) =
    map (fun obj => advance_object e (clear_dirty obj)) (m_objects e) /\
  m_lights (update_world_objects e) =
    map (fun l => advance_light e (clear_dirty l)) (m_lights e).
Proof.
  intros Htb.
  destruct (flags_cleared e) as [Hmat Hrest].
  rewrite update_world_objects_spec. cbn. rewrite Htb.
  repeat split; auto.
  - unfold objects_changed. intros ->. reflexivity.
  - unfold lights_changed. intros ->. reflexivity.
  - rewrite update_world_objects_spec in Hmat. exact Hmat.
  - rewrite update_world_objects_spec in Hrest. apply Hrest. assumption.
  - rewrite update_world_objects_spec in Hrest. apply Hrest. assumption.
  - rewrite map_map. unfold objects_changed, advance_object.
    destruct (m_enable_animations e); [rewrite orb_true_r; reflexivity|].
    rewrite orb_false_r. destruct (existsb is_dirty (m_objects e)); reflexivity.
  - rewrite map_map. unfold lights_changed, advance_light.
    destruct (m_enable_animations e); [rewrite orb_true_r; reflexivity|].
    rewrite orb_false_r. destruct (existsb is_dirty (m_lights e)); reflexivity.
Qed.

End StagingTheorems.

Module StagingSceneFacts.
Import StagingScene.

Lemma idle_and_single_dirty_frames_witness :
  let e := engine false false [clean 1] [dirty 2] [clean 3] in
  m_testbed e = Some {| tb_resets := 0 |} /\
  (dirty_entities e = 0 -> m_is_dirty e = false -> m_enable_animations e = false ->
     uploads (update_world_objects e) = uploads e /\
     d_world (update_world_objects e) = d_world e /\
     d_materials (update_world_objects e) = d_materials e /\
     d_lights (update_world_objects e) = d_lights e /\
     m_raytracer (update_world_objects e) = m_raytracer e /\
     m_testbed (update_world_objects e) = Some {| tb_resets := 0 |}) /\
  (dirty_entities e = 1 ->
     rt_resets (m_raytracer (update_world_objects e)) = S (rt_resets (m_raytracer e)) /\
     m_testbed (update_world_objects e) = Some {| tb_resets := S (tb_resets {| tb_resets := 0 |}) |} /\
     all_clean (m_materials (update_world_objects e)) /\
     (m_enable_animations e = false \/ next_frame_keeps_flags ->
      all_clean (m_objects (update_world_objects e)) /\
      all_clean (m_lights (update_world_objects e)))).
Proof.
  intros e. split; [reflexivity|].
  apply (idle_and_single_dirty_frames e {| tb_resets := 0 |}). reflexivity.
Defined.

(** C4 as stated fails: with animations enabled, a frame in which no entity
    is dirty and the redraw flag is not set still uploads the objects and
    the lights and resets the accumulation. *)
Lemma idle_frame_with_animations_uploads :
  let e := engine false true [clean 1] [clean 2] [clean 3] in
  dirty_entities e = 0 /\ m_is_dirty e = false /\
  uploads e = [] /\
  uploads (update_world_objects e) = [Objects; Lights] /\
  rt_resets (m_raytracer e) = 0 /\
  rt_resets (m_raytracer (update_world_objects e)) = 1.
Proof. vm_compute. repeat split; reflexivity. Qed.

Lemma staging_sync_witness :
  let e := engine false false [dirty 1] [clean 2] [clean 3] in
  m_testbed e = Some {| tb_resets := 0 |} /\
  uploads (update_world_objects e) = [Objects] /\
  rt_resets (m_raytracer (update_world_objects e)) = 1.
Proof.
  intros e.
  destruct (staging_sync e {| tb_resets := 0 |} eq_refl)
    as (Hup & _ & _ & _ & _ & _ & _ & _ & Hrt & _).
  split; [reflexivity|]. split.
  - rewrite Hup. reflexivity.
  - rewrite Hrt. reflexivity.
Defined.

(** C5 as stated fails: with the redraw flag of the engine set, a frame in
    which no category changed, and nothing is uploaded, still resets the
    accumulation. *)
Lemma redraw_flag_resets_without_change :
  let e := engine true false [clean 1] [clean 2] [clean 3] in
  any_changed e = false /\
  uploads (update_world_objects e) = uploads e /\
  d_world (update_world_objects e) = d_world e /\
  rt_resets (m_raytracer e) = 0 /\
  rt_resets (m_raytracer (update_world_objects e)) = 1.
Proof. vm_compute. repeat split; reflexivity. Qed.

End StagingSceneFacts.

(** ** Window life cycle and recording *)

Lemma int_wrap_small (z : Z) : (- 2 ^ 31 <= z < 2 ^ 31)%Z -> int_wrap z = z.
Proof.
  intros Hz. unfold int_wrap.
  rewrite Z.mod_small by lia. lia.
Qed.

(** From a counter that cannot overflow in [n] steps, the call number [k]
    (counting from 0) returns whether the counter it found was below the
    bound. *)
Lemma advance_image_counts_spec (n : nat) (d : Display) :
  (0 <= m_img_count d)%Z -> (m_img_count d + Z.of_nat n < 2 ^ 31)%Z ->
  fst (advance_image_counts n d) =
    map (fun k => (m_img_count d + Z.of_nat k <? m_img_count_max d)%Z) (seq 0 n) /\
  m_img_count (snd (advance_image_counts n d)) = (m_img_count d + Z.of_nat n)%Z /\
  m_img_count_max (snd (advance_image_counts n d)) = m_img_count_max d.
Proof.
  revert d. induction n as [|n IH]; intros d H0 Hn; simpl.
  - repeat split; lia.
  - unfold advance_image_count.
    set (d1 := set_img_count _ d).
    assert (Hc : m_img_count d1 = (m_img_count d + 1)%Z)
      by (unfold d1; simpl; apply int_wrap_small; lia).
    assert (Hm : m_img_count_max d1 = m_img_count_max d) by reflexivity.
    destruct (IH d1) as (Hr & Hcount & Hmax); [lia|lia|].
    destruct (advance_image_counts n d1) as [rs d2]. simpl in *.
    rewrite Hc in Hr, Hcount. clear Hm.
    split; [|split; [lia|exact Hmax]].
    rewrite Z.add_0_r, Hr. f_equal.
    rewrite <- seq_shift, map_map. apply map_ext. intros k. f_equal. lia.
Qed.

(** C6: with [m_img_count_max] equal to 3 and the counter at zero, the first
    three calls of [advance_image_count] return true and the fourth returns
    false. *)
Theorem advance_image_count_stops_at_three (d : Display) :
  m_img_count d = 0%Z -> m_img_count_max d = 3%Z ->
  fst (advance_image_counts 4 d) = [true; true; true; false].
Proof.
  intros Hc Hm.
  destruct (advance_image_counts_spec 4 d) as (Hr & _); [lia|rewrite Hc; simpl; lia|].
  rewrite Hr, Hc, Hm. reflexivity.
Qed.

Lemma advance_image_count_stops_at_three_witness :
  m_img_count Session.display = 0%Z /\ m_img_count_max Session.display = 3%Z /\
  fst (advance_image_counts 4 Session.display) = [true; true; true; false].
Proof.
  split; [reflexivity|]. split; [reflexivity|].
  apply (advance_image_count_stops_at_three Session.display); reflexivity.
Defined.

(** Recording: one call of [save_image] below or at the bound writes one
    file, numbered by the incremented counter. *)
Lemma save_image_writes (width height : Z) (filepath : string) (d : Display) (p : Process) :
  (0 <= m_img_count d <= m_img_count_max d)%Z -> (m_img_count_max d < 2 ^ 31 - 1)%Z ->
  exists d' p',
    save_image width height filepath d p = (true, d', p') /\
    m_img_count d' = (m_img_count d + 1)%Z /\
    m_img_count_max d' = m_img_count_max d /\
    length (files p') = S (length (files p)).
Proof.
  intros Hc Hm. unfold save_image.
  destruct (Z.gtb_spec (m_img_count d) (m_img_count_max d)) as [Hgt|_]; [lia|].
  eexists. eexists. split; [reflexivity|]. simpl.
  rewrite int_wrap_small by lia.
  repeat split. rewrite length_app. simpl. lia.
Qed.

Lemma save_image_stops (width height : Z) (filepath : string) (d : Display) (p : Process) :
  (m_img_count_max d < m_img_count d)%Z ->
  save_image width height filepath d p = (false, d, p).
Proof.
  intros Hc. unfold save_image.
  destruct (Z.gtb_spec (m_img_count d) (m_img_count_max d)) as [_|Hle]; [reflexivity|lia].
Qed.

(** The recording loop stops, and by then it has written one image more
    than [m_img_count_max]. *)
Lemma record_loop_writes (width height : Z) (filepath : string) :
  forall (n fuel : nat) (d : Display) (p : Process),
    (0 <= m_img_count d)%Z -> (m_img_count_max d < 2 ^ 31 - 1)%Z ->
    (m_img_count d + Z.of_nat n = m_img_count_max d + 1)%Z ->
    n < fuel ->
    exists d' p',
      record_loop fuel width height filepath d p = Some (d', p') /\
      length (files p') = length (files p) + n.
Proof.
  induction n as [|n IH]; intros fuel d p H0 Hm Hn Hfuel.
  - destruct fuel as [|fuel]; [lia|]. simpl.
    rewrite save_image_stops by lia.
    exists d, p. split; [reflexivity|lia].
  - destruct fuel as [|fuel]; [lia|]. simpl.
    destruct (save_image_writes width height filepath d p) as (d1 & p1 & Hs & Hc & Hmax & Hf);
      [lia|lia|].
    rewrite Hs.
    destruct (IH fuel d1 p1) as (d' & p' & Hloop & Hlen); [lia|lia|lia|lia|].
    exists d', p'. split; [exact Hloop|]. lia.
Qed.

(** C7 fails on the code: a display set to record three images, started at
    zero, writes four before [save_image] returns false. *)
Theorem recording_writes_one_image_too_many :
  exists d p,
    record_loop 10 1280 720 "out" Session.display Session.process = Some (d, p) /\
    map img_path (files p) =
      ["out/output-001.png"; "out/output-002.png"; "out/output-003.png";
       "out/output-004.png"]%string /\
    m_img_count_max Session.display = 3%Z /\
    length (files p) = 4.
Proof.
  eexists. eexists. split; [vm_compute; reflexivity|].
  repeat split.
Qed.

(** The same for every bound: [m_img_count_max + 1] images are written. *)
Lemma recording_writes_max_plus_one (width height : Z) (filepath : string)
    (d : Display) (p : Process) (fuel : nat) :
  m_img_count d = 0%Z -> (0 <= m_img_count_max d < 2 ^ 31 - 1)%Z ->
  Z.to_nat (m_img_count_max d) + 1 < fuel ->
  exists d' p',
    record_loop fuel width height filepath d p = Some (d', p') /\
    length (files p') = length (files p) + (Z.to_nat (m_img_count_max d) + 1).
Proof.
  intros Hc Hm Hfuel.
  apply record_loop_writes; lia.
Qed.

(** C10: once the static flag is set, [init_window] returns a null window
    and changes nothing, for this display and for any other; [destroy]
    clears the flag and the window; and on a platform that initialises, the
    next [init_window] goes through again: it returns the new window, sets
    the flag and restarts the image counter. *)
Theorem init_window_is_guarded (h : Host) (resw resh : Z) (frag_fp : string)
    (d : Display) (p : Process) (w : Z) :
  m_is_init p = true ->
  working_host h w ->
  (forall other : Display,
     init_window h resw resh frag_fp other p = (Returned None, other, p)) /\
  m_is_init (snd (destroy d p)) = false /\
  m_glfw_window (fst (destroy d p)) = None /\
  exists d' p',
    init_window h resw resh frag_fp (fst (destroy d p)) (snd (destroy d p)) =
      (Returned (Some w), d', p') /\
    m_is_init p' = true /\
    m_glfw_window d' = Some w /\
    m_img_count d' = 0%Z.
Proof.
  intros Hinit (Hglfw & Hwin & Hloader & Hversion).
  split; [|split; [|split]].
  - intros other. unfold init_window. rewrite Hinit. reflexivity.
  - unfold destroy. rewrite Hinit. reflexivity.
  - unfold destroy. rewrite Hinit. reflexivity.
  - unfold destroy. rewrite Hinit. cbn [negb fst snd].
    unfold init_window. cbn [m_is_init set_is_init log].
    unfold init_glfw. rewrite Hglfw. cbn [negb].
    cbn [m_glfw_window set_window]. rewrite Hwin, Hloader. cbn [negb].
    rewrite Hversion.
    eexists. eexists. split; [reflexivity|].
    repeat split.
Qed.

Lemma init_window_is_guarded_witness :
  let d := snd (fst Session.started) in
  let p := snd Session.started in
  m_is_init p = true /\
  working_host Session.host 7 /\
  (forall other : Display,
     init_window Session.host 1280 720 "../main.frag" other p = (Returned None, other, p)) /\
  m_is_init (snd (destroy d p)) = false /\
  m_glfw_window (fst (destroy d p)) = None /\
  exists d' p',
    init_window Session.host 1280 720 "../main.frag" (fst (destroy d p)) (snd (destroy d p)) =
      (Returned (Some 7%Z), d', p') /\
    m_is_init p' = true /\
    m_glfw_window d' = Some 7%Z /\
    m_img_count d' = 0%Z.
Proof.
  intros d p.
  assert (Hinit : m_is_init p = true) by reflexivity.
  assert (Hhost : working_host Session.host 7) by (repeat split; reflexivity).
  split; [exact Hinit|]. split; [exact Hhost|].
  apply (init_window_is_guarded Session.host 1280 720 "../main.frag" d p 7 Hinit Hhost).
Defined.

(** When the platform fails, [init_window] throws and the flag stays
    clear. *)
Lemma init_window_throws_without_glfw (h : Host) (resw resh : Z) (frag_fp : string)
    (d : Display) (p : Process) :
  m_is_init p = false -> glfwInit_ok h = false ->
  exists d' p',
    init_window h resw resh frag_fp d p =
      (Thrown "GLFW could not be initialized.", d', p') /\
    m_is_init p' = false.
Proof.
  intros Hinit Hglfw. unfold init_window, init_glfw. rewrite Hinit, Hglfw.
  eexists. eexists. split; [reflexivity|]. simpl. exact Hinit.
Qed.

(* ===================================================================== *)
(** * Part III: further properties                                        *)
(* ===================================================================== *)
(** ** Threads of the kernel and the object loop *)

Section KernelThreads.
Context `{DeviceLib}.

Lemma store_out_of_bounds {A} (buf : list A) (i : N) (x : A) :
  ~ N.to_nat i < length buf -> store buf i x = None.
Proof. intros Hi. unfold store. rewrite decide_False by exact Hi. reflexivity. Qed.

(** What a thread that completes has done: nothing when its index is not
    below [n_elements]; otherwise it has stored a colour that does not
    depend on the buffers, and [MAX_RT_DIST], at its own index. *)
Lemma gpu_draw_object_cases (l : Launch) (n_elements width height tri_count : N)
    (ray_origins ray_directions : list (vec3 float)) (triangles : list Triangle)
    (sun : Light) (fb fb' : RenderBuffers) :
  gpu_draw_object l n_elements width height tri_count ray_origins ray_directions
    triangles sun fb = Some fb' ->
  ((n_elements <= thread_index l)%N /\ fb' = fb) \/
  ((thread_index l < n_elements)%N /\
   N.to_nat (thread_index l) < length (rgba fb) /\
   N.to_nat (thread_index l) < length (depth fb) /\
   exists c,
     forall fb2,
       N.to_nat (thread_index l) < length (rgba fb2) ->
       N.to_nat (thread_index l) < length (depth fb2) ->
       gpu_draw_object l n_elements width height tri_count ray_origins ray_directions
         triangles sun fb2 =
       Some {| rgba := <[N.to_nat (thread_index l) := c]> (rgba fb2);
               depth := <[N.to_nat (thread_index l) := MAX_RT_DIST]> (depth fb2) |}).
Proof.
  unfold gpu_draw_object. cbv zeta.
  destruct (N.leb_spec n_elements (thread_index l)) as [Hge|Hlt].
  - intros [= <-]. left. split; [exact Hge|reflexivity].
  - intros Hrun. right. split; [exact Hlt|].
    destruct (decide (N.to_nat (thread_index l) < length (rgba fb))) as [Hr|Hr];
      [|rewrite (store_out_of_bounds (rgba fb)) in Hrun by exact Hr; discriminate].
    rewrite (store_in_bounds (rgba fb)) in Hrun by exact Hr.
    cbn [mbind option_bind] in Hrun.
    destruct (decide (N.to_nat (thread_index l) < length (depth fb))) as [Hd|Hd];
      [|rewrite (store_out_of_bounds (depth fb)) in Hrun by exact Hd; discriminate].
    rewrite (store_in_bounds (depth fb)) in Hrun by exact Hd.
    split; [exact Hr|]. split; [exact Hd|].
    cbn [mbind option_bind] in Hrun.
    destruct (load ray_directions (thread_index l)) as [rd|] eqn:Erd;
      [|simpl in Hrun; discriminate].
    destruct (load ray_origins (thread_index l)) as [ro|] eqn:Ero;
      [|simpl in Hrun; discriminate].
    cbn [mbind option_bind] in Hrun.
    destruct (closest_loop (N.to_nat tri_count) 0 triangles ro rd
                {| dt := MAX_RT_DIST; hit_normal := None |}) as [c|] eqn:Ec;
      [|simpl in Hrun; discriminate].
    cbn [mbind option_bind] in Hrun.
    assert (Hstep : forall fb2 colour,
              N.to_nat (thread_index l) < length (rgba fb2) ->
              N.to_nat (thread_index l) < length (depth fb2) ->
              (rgba1 ← store (rgba fb2) (thread_index l) background;
               depth1 ← store (depth fb2) (thread_index l) MAX_RT_DIST;
               rgba2 ← store rgba1 (thread_index l) colour;
               Some {| rgba := rgba2; depth := depth1 |}) =
              Some {| rgba := <[N.to_nat (thread_index l) := colour]> (rgba fb2);
                      depth := <[N.to_nat (thread_index l) := MAX_RT_DIST]> (depth fb2) |}).
    { intros fb2 colour Hr2 Hd2.
      rewrite (store_in_bounds (rgba fb2)) by exact Hr2. cbn [mbind option_bind].
      rewrite (store_in_bounds (depth fb2)) by exact Hd2. cbn [mbind option_bind].
      rewrite store_in_bounds by (rewrite length_insert; exact Hr2).
      cbn [mbind option_bind]. rewrite list_insert_insert_eq. reflexivity. }
    destruct (Binary32.ltb (dt c) MAX_RT_DIST) eqn:Elt.
    + destruct (hit_normal c) as [n|] eqn:En; [|simpl in Hrun; discriminate].
      eexists. intros fb2 Hr2 Hd2. rewrite <- (Hstep fb2 _ Hr2 Hd2).
      destruct (store (rgba fb2) (thread_index l) background); [|reflexivity].
      cbn [mbind option_bind].
      destruct (store (depth fb2) (thread_index l) MAX_RT_DIST); [|reflexivity].
      cbn [mbind option_bind]. rewrite ?Erd. cbn [mbind option_bind].
      rewrite ?Ero. cbn [mbind option_bind]. rewrite ?Ec. cbn [mbind option_bind].
      rewrite ?Elt. cbn [mbind option_bind]. rewrite ?En. reflexivity.
    + eexists. intros fb2 Hr2 Hd2. rewrite <- (Hstep fb2 _ Hr2 Hd2).
      destruct (store (rgba fb2) (thread_index l) background); [|reflexivity].
      cbn [mbind option_bind].
      destruct (store (depth fb2) (thread_index l) MAX_RT_DIST); [|reflexivity].
      cbn [mbind option_bind]. rewrite ?Erd. cbn [mbind option_bind].
      rewrite ?Ero. cbn [mbind option_bind]. rewrite ?Ec. cbn [mbind option_bind].
      rewrite ?Elt. reflexivity.
Qed.

Lemma gpu_draw_object_out_of_range (l : Launch) (n_elements width height tri_count : N)
    (ray_origins ray_directions : list (vec3 float)) (triangles : list Triangle)
    (sun : Light) (fb : RenderBuffers) :
  (n_elements <= thread_index l)%N ->
  gpu_draw_object l n_elements width height tri_count ray_origins ray_directions
    triangles sun fb = Some fb.
Proof.
  intros Hge. unfold gpu_draw_object. cbv zeta.
  destruct (N.leb_spec n_elements (thread_index l)); [reflexivity|lia].
Qed.

Lemma gpu_draw_object_sizes (l : Launch) (n_elements width height tri_count : N)
    (ray_origins ray_directions : list (vec3 float)) (triangles : list Triangle)
    (sun : Light) (fb fb' : RenderBuffers) :
  gpu_draw_object l n_elements width height tri_count ray_origins ray_directions
    triangles sun fb = Some fb' ->
  length (rgba fb') = length (rgba fb) /\ length (depth fb') = length (depth fb).
Proof.
  intros Hrun.
  destruct (gpu_draw_object_cases _ _ _ _ _ _ _ _ _ _ _ Hrun)
    as [[_ ->]|(_ & Hr & Hd & c & Hc)].
  - split; reflexivity.
  - rewrite (Hc fb Hr Hd) in Hrun. injection Hrun as <-. simpl.
    rewrite !length_insert. split; reflexivity.
Qed.

(** A thread of [gpu_draw_object] writes to no pixel but its own, and it
    keeps the size of both planes. *)
Theorem gpu_draw_object_frame (l : Launch) (n_elements width height tri_count : N)
    (ray_origins ray_directions : list (vec3 float)) (triangles : list Triangle)
    (sun : Light) (fb fb' : RenderBuffers) :
  gpu_draw_object l n_elements width height tri_count ray_origins ray_directions
    triangles sun fb = Some fb' ->
  length (rgba fb') = length (rgba fb) /\
  length (depth fb') = length (depth fb) /\
  forall j, j <> N.to_nat (thread_index l) ->
    rgba fb' !! j = rgba fb !! j /\ depth fb' !! j = depth fb !! j.
Proof.
  intros Hrun.
  destruct (gpu_draw_object_cases _ _ _ _ _ _ _ _ _ _ _ Hrun)
    as [[_ ->]|(_ & Hr & Hd & c & Hc)].
  - repeat split; reflexivity.
  - rewrite (Hc fb Hr Hd) in Hrun. injection Hrun as <-. simpl.
    rewrite !length_insert. split; [reflexivity|]. split; [reflexivity|].
    intros j Hj. rewrite !list_lookup_insert_ne by congruence. split; reflexivity.
Qed.

Lemma gpu_draw_object_same_index (l1 l2 : Launch) (n_elements width height tri_count : N)
    (ray_origins ray_directions : list (vec3 float)) (triangles : list Triangle)
    (sun : Light) (fb : RenderBuffers) :
  thread_index l1 = thread_index l2 ->
  gpu_draw_object l1 n_elements width height tri_count ray_origins ray_directions
    triangles sun fb =
  gpu_draw_object l2 n_elements width height tri_count ray_origins ray_directions
    triangles sun fb.
Proof. intros Heq. unfold gpu_draw_object. rewrite Heq. reflexivity. Qed.

(** Two threads with different indices can run in either order. *)
Lemma distinct_threads_commute (l1 l2 : Launch)
    (n_elements width height tri_count : N)
    (ray_origins ray_directions : list (vec3 float)) (triangles : list Triangle)
    (sun : Light) (fb : RenderBuffers) :
  thread_index l1 <> thread_index l2 ->
  (fb1 ← gpu_draw_object l1 n_elements width height tri_count ray_origins
            ray_directions triangles sun fb;
   gpu_draw_object l2 n_elements width height tri_count ray_origins
     ray_directions triangles sun fb1) =
  (fb2 ← gpu_draw_object l2 n_elements width height tri_count ray_origins
            ray_directions triangles sun fb;
   gpu_draw_object l1 n_elements width height tri_count ray_origins
     ray_directions triangles sun fb2).
Proof.
  intros Hne.
  set (run := fun l => gpu_draw_object l n_elements width height tri_count ray_origins
                         ray_directions triangles sun).
  change (run l1 fb ≫= run l2 = run l2 fb ≫= run l1).
  assert (Hnat : N.to_nat (thread_index l1) <> N.to_nat (thread_index l2)) by lia.
  (* a thread that fails on some buffers fails on all buffers of the same size *)
  assert (Hfail : forall l fa fb',
            length (rgba fa) = length (rgba fb') -> length (depth fa) = length (depth fb') ->
            run l fa = None -> run l fb' = None).
  { intros l fa fb' Hlr Hld Hnone.
    destruct (run l fb') as [r|] eqn:Hrun; [|reflexivity].
    destruct (gpu_draw_object_cases _ _ _ _ _ _ _ _ _ _ _ Hrun)
      as [[Hge _]|(Hlt & Hr & Hd & c & Hc)].
    - unfold run, gpu_draw_object in Hnone. cbv zeta in Hnone.
      destruct (N.leb_spec n_elements (thread_index l)); [discriminate|lia].
    - unfold run in Hnone. rewrite Hc in Hnone by lia. discriminate. }
  destruct (run l1 fb) as [fb1|] eqn:H1; destruct (run l2 fb) as [fb2|] eqn:H2;
    cbn [mbind option_bind].
  - destruct (gpu_draw_object_cases _ _ _ _ _ _ _ _ _ _ _ H1)
      as [[Hge1 ->]|(Hlt1 & Hr1 & Hd1 & c1 & Hc1)];
    destruct (gpu_draw_object_cases _ _ _ _ _ _ _ _ _ _ _ H2)
      as [[Hge2 ->]|(Hlt2 & Hr2 & Hd2 & c2 & Hc2)].
    + congruence.
    + rewrite H2. symmetry. apply gpu_draw_object_out_of_range. exact Hge1.
    + rewrite H1. apply gpu_draw_object_out_of_range. exact Hge2.
    + unfold run in *. rewrite (Hc1 fb Hr1 Hd1) in H1. rewrite (Hc2 fb Hr2 Hd2) in H2.
      injection H1 as <-. injection H2 as <-.
      rewrite Hc1, Hc2 by (simpl; rewrite length_insert; assumption). simpl.
      rewrite (list_insert_insert_ne (rgba fb)), (list_insert_insert_ne (depth fb))
        by congruence.
      reflexivity.
  - destruct (gpu_draw_object_sizes _ _ _ _ _ _ _ _ _ _ _ H1) as (Hlr & Hld).
    apply (Hfail l2 fb fb1); [symmetry; exact Hlr|symmetry; exact Hld|exact H2].
  - destruct (gpu_draw_object_sizes _ _ _ _ _ _ _ _ _ _ _ H2) as (Hlr & Hld).
    symmetry. apply (Hfail l1 fb fb2); [symmetry; exact Hlr|symmetry; exact Hld|exact H1].
  - reflexivity.
Qed.

End KernelThreads.

(** ** Launches and the object loop of [handle] *)

Section Launches.
Import World.

Lemma agree_outside_refl (P : nat -> Prop) (fb : RenderBuffers) : agree_outside P fb fb.
Proof. repeat split; reflexivity. Qed.

Lemma agree_outside_trans (P : nat -> Prop) (fa fb fc : RenderBuffers) :
  agree_outside P fa fb -> agree_outside P fb fc -> agree_outside P fa fc.
Proof.
  intros (Hr1 & Hd1 & H1) (Hr2 & Hd2 & H2).
  split; [congruence|]. split; [congruence|].
  intros j Hj. destruct (H1 j Hj), (H2 j Hj). split; congruence.
Qed.

Lemma agree_everywhere (fa fb : RenderBuffers) :
  agree_outside (fun _ => False) fa fb -> fa = fb.
Proof.
  intros (_ & _ & Hag). destruct fa as [ra da], fb as [rb db]. simpl in *.
  f_equal; apply list_eq; intros j; apply (Hag j); tauto.
Qed.

Lemma covered_cons (n : N) (l : Launch) (rest : list Launch) (j : nat) :
  covered n (l :: rest) j <->
  ((thread_index l < n)%N /\ N.to_nat (thread_index l) = j) \/ covered n rest j.
Proof.
  unfold covered. split.
  - intros (l' & Hin & Hlt & Hj). apply elem_of_cons in Hin as [->|Hin].
    + left. split; assumption.
    + right. exists l'. repeat split; assumption.
  - intros [[Hlt Hj]|(l' & Hin & Hlt & Hj)].
    + exists l. split; [apply elem_of_cons; left; reflexivity|]. split; assumption.
    + exists l'. split; [apply elem_of_cons; right; exact Hin|]. split; assumption.
Qed.

(** A launch changes no pixel outside the ones its threads cover. *)
Lemma run_threads_frame (n : N) (kernel : Launch -> RenderBuffers -> option RenderBuffers)
    (threads : list Launch) :
  writes_own_pixel n kernel ->
  forall fb fb', run_threads kernel threads fb = Some fb' ->
    agree_outside (covered n threads) fb' fb.
Proof.
  intros Hown. induction threads as [|l rest IH]; intros fb fb' Hrun; simpl in Hrun.
  - injection Hrun as <-. apply agree_outside_refl.
  - destruct (kernel l fb) as [fb1|] eqn:Hl; [|discriminate]. cbn in Hrun.
    specialize (IH fb1 fb' Hrun). destruct IH as (Hr & Hd & Hag).
    destruct (Hown l fb fb1 Hl) as [[Hge Hid]|(Hlt & Hrb & Hdb & c & d & Hc)].
    + rewrite Hid in Hl. injection Hl as <-.
      split; [exact Hr|]. split; [exact Hd|].
      intros j Hj. apply Hag. intros Hcov. apply Hj, covered_cons. right. exact Hcov.
    + rewrite (Hc fb Hrb Hdb) in Hl. injection Hl as <-. simpl in *.
      rewrite length_insert in Hr. rewrite length_insert in Hd.
      split; [exact Hr|]. split; [exact Hd|].
      intros j Hj.
      assert (Hne : N.to_nat (thread_index l) <> j).
      { intros Heq. apply Hj, covered_cons. left. split; assumption. }
      destruct (Hag j) as [Hra Hda].
      { intros Hcov. apply Hj, covered_cons. right. exact Hcov. }
      rewrite Hra, Hda, !list_lookup_insert_ne by exact Hne. split; reflexivity.
Qed.

(** The result of a launch does not depend on what the covered pixels held
    before. *)
Lemma run_threads_agree (n : N) (kernel : Launch -> RenderBuffers -> option RenderBuffers)
    (threads : list Launch) :
  writes_own_pixel n kernel ->
  forall fa fb r,
    agree_outside (covered n threads) fa fb ->
    run_threads kernel threads fa = Some r ->
    run_threads kernel threads fb = Some r.
Proof.
  intros Hown. induction threads as [|l rest IH]; intros fa fb r Hag Hrun; simpl in *.
  - injection Hrun as <-. f_equal. symmetry. apply agree_everywhere.
    destruct Hag as (Hr & Hd & Hag). split; [exact Hr|]. split; [exact Hd|].
    intros j _. apply Hag. intros (l & Hin & _). apply elem_of_nil in Hin. exact Hin.
  - destruct (kernel l fa) as [fa1|] eqn:Hl; [|discriminate]. cbn in Hrun.
    destruct Hag as (Hr & Hd & Hag).
    destruct (Hown l fa fa1 Hl) as [[Hge Hid]|(Hlt & Hrb & Hdb & c & d & Hc)].
    + rewrite Hid in Hl. injection Hl as <-. rewrite Hid. cbn.
      apply (IH fa fb r); [|exact Hrun].
      split; [exact Hr|]. split; [exact Hd|].
      intros j Hj. apply Hag. intros Hcov. apply covered_cons in Hcov as [[Hlt _]|Hcov].
      * lia.
      * exact (Hj Hcov).
    + rewrite (Hc fa Hrb Hdb) in Hl. injection Hl as <-.
      rewrite (Hc fb) by lia. cbn.
      eapply IH; [|exact Hrun]. unfold agree_outside. simpl.
      rewrite !length_insert. split; [exact Hr|]. split; [exact Hd|].
      intros j Hj.
      destruct (decide (N.to_nat (thread_index l) = j)) as [<-|Hne].
      * rewrite !list_lookup_insert_eq by lia. split; reflexivity.
      * rewrite !list_lookup_insert_ne by exact Hne. apply Hag.
        intros Hcov. apply covered_cons in Hcov as [[_ Heq]|Hcov]; [exact (Hne Heq)|].
        exact (Hj Hcov).
Qed.

Context `{DeviceLib} `{!HostLib}.

Lemma gpu_draw_object_writes_own_pixel (n_elements width height tri_count : N)
    (ray_origins ray_directions : list (vec3 float)) (triangles : list Triangle)
    (sun : Light) :
  writes_own_pixel n_elements
    (fun l => gpu_draw_object l n_elements width height tri_count ray_origins
                ray_directions triangles sun).
Proof.
  intros l fb fb' Hrun.
  destruct (gpu_draw_object_cases _ _ _ _ _ _ _ _ _ _ _ Hrun)
    as [[Hge _]|(Hlt & Hr & Hd & c & Hc)].
  - left. split; [exact Hge|]. intros fb2. apply gpu_draw_object_out_of_range. exact Hge.
  - right. split; [exact Hlt|]. split; [exact Hr|]. split; [exact Hd|].
    exists c, MAX_RT_DIST. exact Hc.
Qed.

(** Drawing an object changes the render buffer alone, and only at the
    pixels of the launch. *)
Lemma draw_object_async_frame (w w' : SyntheticWorld) (vo : VirtualObject) :
  draw_object_async w vo = Some w' ->
  m_resolution w' = m_resolution w /\ m_camera w' = m_camera w /\
  m_objects w' = m_objects w /\
  agree_outside
    (covered (to_uint32 (n_elements_of w)) (linear_kernel_threads (n_elements_of w)))
    (m_render_buffer_view w') (m_render_buffer_view w).
Proof.
  unfold draw_object_async. cbv zeta. fold (n_elements_of w).
  intros Hrun.
  match type of Hrun with
  | (run_threads ?k ?t ?f ≫= _) = _ => destruct (run_threads k t f) as [fb|] eqn:Hfb
  end; [|discriminate].
  cbn in Hrun. injection Hrun as <-. simpl.
  split; [reflexivity|]. split; [reflexivity|]. split; [reflexivity|].
  exact (run_threads_frame _ _ _ (gpu_draw_object_writes_own_pixel _ _ _ _ _ _ _ _) _ _ Hfb).
Qed.

Lemma draw_objects_frame (objects : list (string * VirtualObject)) :
  forall w w', draw_objects w objects = Some w' ->
    m_resolution w' = m_resolution w /\ m_camera w' = m_camera w /\
    m_objects w' = m_objects w /\
    agree_outside
      (covered (to_uint32 (n_elements_of w)) (linear_kernel_threads (n_elements_of w)))
      (m_render_buffer_view w') (m_render_buffer_view w).
Proof.
  induction objects as [|vo_kv rest IH]; intros w w' Hrun; simpl in Hrun.
  - injection Hrun as <-.
    split; [reflexivity|]. split; [reflexivity|]. split; [reflexivity|].
    apply agree_outside_refl.
  - destruct (draw_object_async w (snd vo_kv)) as [w1|] eqn:H1; [|discriminate].
    cbn in Hrun.
    destruct (draw_object_async_frame _ _ _ H1) as (Hres1 & Hcam1 & Hobj1 & Hag1).
    destruct (IH _ _ Hrun) as (Hres & Hcam & Hobj & Hag).
    unfold n_elements_of in *. rewrite Hres1 in Hag, Hres.
    split; [congruence|]. split; [congruence|]. split; [congruence|].
    exact (agree_outside_trans _ _ _ _ Hag Hag1).
Qed.

Lemma draw_objects_app (l1 l2 : list (string * VirtualObject)) :
  forall w, draw_objects w (l1 ++ l2) = (w1 ← draw_objects w l1; draw_objects w1 l2).
Proof.
  induction l1 as [|x l1 IH]; intros w; simpl; [reflexivity|].
  destruct (draw_object_async w (snd x)) as [w1|]; cbn; [apply IH|reflexivity].
Qed.

(** [handle] draws every object into the same two planes and each launch
    overwrites the pixels it covers: what [handle] leaves is what drawing the
    object enumerated last, alone, would have left. *)
Theorem handle_shows_last_object (w w' : SyntheticWorld) (resolution : Z * Z) (b : bool)
    (objects : list (string * VirtualObject)) (name : string) (vo : VirtualObject) :
  handle w resolution = Some (b, w') ->
  enumerate (m_objects w) = objects ++ [(name, vo)] ->
  b = true /\ draw_object_async (prepare w resolution) vo = Some w'.
Proof.
  unfold handle. cbv zeta.
  assert (Hobjs : m_objects (prepare w resolution) = m_objects w).
  { unfold prepare. destruct (decide (resolution = m_resolution w)); reflexivity. }
  rewrite Hobjs. intros Hrun Henum. rewrite Henum, draw_objects_app in Hrun.
  set (w0 := prepare w resolution) in *.
  destruct (draw_objects w0 objects) as [w1|] eqn:H1; [|discriminate].
  cbn in Hrun.
  destruct (draw_object_async w1 vo) as [w2|] eqn:H2; [|discriminate].
  cbn in Hrun. injection Hrun as <- <-. split; [reflexivity|].
  destruct (draw_objects_frame _ _ _ H1) as (Hres & Hcam & Hobj & Hag).
  assert (Hn : n_elements_of w1 = n_elements_of w0)
    by (unfold n_elements_of; rewrite Hres; reflexivity).
  unfold draw_object_async in *. cbv zeta in *.
  rewrite Hn, Hres, Hcam in H2.
  match type of H2 with
  | (run_threads ?k ?t ?f ≫= _) = _ => destruct (run_threads k t f) as [fb|] eqn:Hfb
  end; [|discriminate].
  cbn in H2. injection H2 as <-.
  rewrite (run_threads_agree _ _ _ (gpu_draw_object_writes_own_pixel _ _ _ _ _ _ _ _)
             _ _ _ Hag Hfb).
  cbn. f_equal. unfold set_render_buffer_view. f_equal; congruence.
Qed.

End Launches.

(** ** Naming a new object ([create_object]) *)

Section CreateObject.
Import World.
Context `{DeviceLib} `{!HostLib}.

Lemma append_inj_r (s x y : string) : String.append s x = String.append s y -> x = y.
Proof. induction s as [|c s IH]; simpl; [auto|]. intros [= Heq]. auto. Qed.

Lemma candidate_succ_inj (base : string) (i j : nat) :
  candidate base (N.of_nat (S i)) = candidate base (N.of_nat (S j)) -> i = j.
Proof.
  unfold candidate.
  destruct (N.eqb_spec (N.of_nat (S i)) 0) as [Hz|_]; [lia|].
  destruct (N.eqb_spec (N.of_nat (S j)) 0) as [Hz|_]; [lia|].
  intros Heq. apply append_inj_r, append_inj_r in Heq.
  apply (inj pretty) in Heq. lia.
Qed.

(** Among the first [size m + 1] numbered names one is not a key of [m]. *)
Lemma free_candidate_exists (base : string) (m : gmap string VirtualObject) :
  exists kstar, (1 <= kstar <= N.of_nat (size m) + 1)%N /\ m !! candidate base kstar = None.
Proof.
  set (names := (fun i => candidate base (N.of_nat (S i))) <$> seq 0 (S (size m))).
  destruct (decide (Exists (fun name => m !! name = None) names)) as [Hex|Hall].
  - apply Exists_exists in Hex as (name & Hin & Hfree).
    apply list_elem_of_fmap in Hin as (i & -> & Hi).
    apply elem_of_seq in Hi.
    exists (N.of_nat (S i)). split; [lia|exact Hfree].
  - exfalso.
    assert (Hnodup : NoDup names).
    { apply NoDup_fmap_2_strong; [|apply NoDup_seq].
      intros i j _ _. apply candidate_succ_inj. }
    assert (Hsub : (list_to_set names : gset string) ⊆ dom m).
    { intros name Hin. apply elem_of_list_to_set in Hin. apply elem_of_dom.
      destruct (m !! name) eqn:E; [eauto|].
      exfalso. apply Hall, Exists_exists. exists name. split; assumption. }
    apply subseteq_size in Hsub.
    rewrite size_list_to_set, size_dom in Hsub by exact Hnodup.
    unfold names in Hsub. rewrite length_fmap, length_seq in Hsub. lia.
Qed.

Lemma free_name_spec (base : string) (m : gmap string VirtualObject) (kstar : N) :
  (kstar < 2 ^ 64)%N ->
  m !! candidate base kstar = None ->
  forall (fuel : nat) (k : N),
    (k <= kstar)%N ->
    N.to_nat kstar - N.to_nat k <= fuel ->
    (forall j, (j < k)%N -> m !! candidate base j <> None) ->
    exists k',
      (k <= k' <= kstar)%N /\
      free_name fuel base m k (candidate base k) = Some (candidate base k') /\
      m !! candidate base k' = None /\
      forall j, (j < k')%N -> m !! candidate base j <> None.
Proof.
  intros Hbound Hfree. induction fuel as [|fuel IH]; intros k Hk Hfuel Htaken.
  - assert (k = kstar) as -> by lia.
    exists kstar. split; [lia|]. simpl. rewrite Hfree. auto.
  - destruct (m !! candidate base k) as [vo|] eqn:Ek.
    + assert (Hne : k <> kstar) by congruence.
      destruct (IH (k + 1)%N) as (k' & Hk' & Hrun & Hfree' & Htaken').
      * lia.
      * lia.
      * intros j Hj. destruct (decide (j = k)) as [->|Hjk]; [congruence|].
        apply Htaken. lia.
      * exists k'. split; [lia|]. split; [|auto].
        simpl. rewrite Ek. unfold size_t_wrap.
        rewrite N.mod_small by lia.
        replace (String.append base (String.append " " (pretty (k + 1)%N)))
          with (candidate base (k + 1)); [exact Hrun|].
        unfold candidate. destruct (N.eqb_spec (k + 1) 0); [lia|reflexivity].
    + exists k. split; [lia|]. simpl. rewrite Ek. auto.
Qed.

(** [create_object] ends as soon as it is given more iterations than the
    world has objects.  It adds exactly one entry, under a name no object
    had: the file name when that is free, otherwise the file name followed
    by the least positive count that makes a free name.  No existing entry
    is replaced and nothing else in the world changes. *)
Theorem create_object_adds_fresh_entry (fuel : nat) (filename : string)
    (w : SyntheticWorld) :
  (N.of_nat (size (m_objects w)) + 1 < 2 ^ 64)%N ->
  size (m_objects w) < fuel ->
  exists (k : N) (w' : SyntheticWorld),
    let name := candidate (path_filename filename) k in
    create_object fuel filename w = Some w' /\
    (k <= N.of_nat (size (m_objects w)) + 1)%N /\
    m_objects w !! name = None /\
    (forall j, (j < k)%N -> m_objects w !! candidate (path_filename filename) j <> None) /\
    m_objects w' = <[name := load_virtual_obj filename name]> (m_objects w) /\
    m_resolution w' = m_resolution w /\ m_camera w' = m_camera w /\
    m_render_buffer_view w' = m_render_buffer_view w.
Proof.
  intros Hsize Hfuel.
  destruct (free_candidate_exists (path_filename filename) (m_objects w))
    as (kstar & Hkstar & Hfree).
  destruct (free_name_spec (path_filename filename) (m_objects w) kstar
              ltac:(lia) Hfree fuel 0%N ltac:(lia) ltac:(lia))
    as (k & Hk & Hrun & Hfree' & Htaken).
  { intros j Hj. lia. }
  exists k. eexists. cbv zeta.
  unfold create_object. cbv zeta.
  change (path_filename filename) with (candidate (path_filename filename) 0) at 2.
  rewrite Hrun. cbn [mbind option_bind].
  split; [reflexivity|]. simpl.
  split; [lia|]. split; [exact Hfree'|]. split; [exact Htaken|].
  split; [|auto].
  unfold map_insert. rewrite Hfree'. reflexivity.
Qed.

End CreateObject.

(** ** Which threads are defined *)

Section KernelDefined.
Context `{DeviceLib}.

Lemma gpu_draw_object_runs (l : Launch) (n_elements width height tri_count : N)
    (ray_origins ray_directions : list (vec3 float)) (triangles : list Triangle)
    (sun : Light) (fb : RenderBuffers) (ro rd : vec3 float) :
  in_bounds l n_elements tri_count ray_origins ray_directions triangles fb ro rd ->
  is_Some (gpu_draw_object l n_elements width height tri_count ray_origins
             ray_directions triangles sun fb).
Proof.
  intros Hin.
  rewrite (gpu_draw_object_unfold l n_elements width height tri_count ray_origins
             ray_directions triangles sun fb ro rd Hin). cbv zeta.
  set (c := fold_left (closest_step ro rd) (take (N.to_nat tri_count) triangles)
              {| dt := MAX_RT_DIST; hit_normal := None |}).
  destruct (closest_fold_invariant ro rd (take (N.to_nat tri_count) triangles))
    as [(_ & Hdt & _)|(k & tri & _ & _ & _ & Hn & _)]; fold c in Hdt || fold c in Hn.
  - rewrite Hdt, ltb_irrefl. eauto.
  - rewrite Hn. destruct (Binary32.ltb (dt c) MAX_RT_DIST); cbn; eauto.
Qed.

(** For a thread whose pixel and rays are inside their arrays, the kernel
    is defined exactly when [tri_count] does not exceed the number of
    triangles in the array: then every triangle read is there, and the
    local [normal], which is declared without a value, is read only after
    the loop has assigned it. *)
Theorem gpu_draw_object_defined_iff (l : Launch) (n_elements width height tri_count : N)
    (ray_origins ray_directions : list (vec3 float)) (triangles : list Triangle)
    (sun : Light) (fb : RenderBuffers) (ro rd : vec3 float) :
  (thread_index l < n_elements)%N ->
  N.to_nat (thread_index l) < length (rgba fb) ->
  N.to_nat (thread_index l) < length (depth fb) ->
  ray_origins !! N.to_nat (thread_index l) = Some ro ->
  ray_directions !! N.to_nat (thread_index l) = Some rd ->
  is_Some (gpu_draw_object l n_elements width height tri_count ray_origins
             ray_directions triangles sun fb) <->
  N.to_nat tri_count <= length triangles.
Proof.
  intros Hlt Hr Hd Hro Hrd. split.
  - intros [fb' Hrun].
    destruct (le_lt_dec (N.to_nat tri_count) (length triangles)) as [Hle|Hgt];
      [exact Hle|exfalso].
    unfold gpu_draw_object in Hrun. cbv zeta in Hrun.
    destruct (N.leb_spec n_elements (thread_index l)); [lia|].
    rewrite !store_in_bounds in Hrun by assumption. cbn [mbind option_bind] in Hrun.
    unfold load in Hrun. rewrite Hrd, Hro in Hrun. cbn [mbind option_bind] in Hrun.
    rewrite closest_loop_overrun in Hrun by lia. discriminate.
  - intros Hle. apply (gpu_draw_object_runs _ _ _ _ _ _ _ _ _ _ ro rd).
    repeat split; assumption.
Qed.

End KernelDefined.

(** ** The flag shared by all displays *)

(** [m_is_init] belongs to the class, not to the object: while it is set,
    [destroy] on any display, one that holds no window included, shuts the
    window system down and clears the flag, after which [destroy] on the
    display that owns the window does nothing and its handle stays as it
    was. *)
Theorem destroy_acts_on_the_shared_flag (owner other : Display) (p : Process) :
  m_is_init p = true ->
  let p' := snd (destroy other p) in
  m_is_init p' = false /\
  calls p' =
    calls p ++ [ImGuiImplOpenGL3Shutdown; ImGuiImplGlfwShutdown; ImGuiDestroyContext;
                GlfwDestroyWindow (m_glfw_window other); GlfwTerminate] /\
  destroy owner p' = (owner, p').
Proof.
  intros Hinit p'. subst p'. unfold destroy. rewrite Hinit. simpl.
  split; [reflexivity|]. split; [|reflexivity].
  rewrite <- !app_assoc. reflexivity.
Qed.

(** ** Whole launches *)

Section WholeLaunch.
Import World.
Context `{DeviceLib} `{!HostLib}.

Lemma threads_commute (l1 l2 : Launch) (n_elements width height tri_count : N)
    (ray_origins ray_directions : list (vec3 float)) (triangles : list Triangle)
    (sun : Light) (fb : RenderBuffers) :
  (fb1 ← gpu_draw_object l1 n_elements width height tri_count ray_origins
            ray_directions triangles sun fb;
   gpu_draw_object l2 n_elements width height tri_count ray_origins
     ray_directions triangles sun fb1) =
  (fb2 ← gpu_draw_object l2 n_elements width height tri_count ray_origins
            ray_directions triangles sun fb;
   gpu_draw_object l1 n_elements width height tri_count ray_origins
     ray_directions triangles sun fb2).
Proof.
  destruct (decide (thread_index l1 = thread_index l2)) as [Heq|Hne].
  - rewrite (gpu_draw_object_same_index l1 l2) by exact Heq.
    destruct (gpu_draw_object l2 n_elements width height tri_count ray_origins
                ray_directions triangles sun fb) as [fb1|]; [|reflexivity].
    cbn. symmetry. apply gpu_draw_object_same_index. exact Heq.
  - apply distinct_threads_commute. exact Hne.
Qed.

(** The result of a launch of [gpu_draw_object] does not depend on the
    order in which its threads run: the kernel has no write conflict, so
    any schedule of the same threads leaves the same planes (or runs
    outside an array all the same). *)
Theorem launch_ignores_thread_order (threads1 threads2 : list Launch)
    (n_elements width height tri_count : N)
    (ray_origins ray_directions : list (vec3 float)) (triangles : list Triangle)
    (sun : Light) (fb : RenderBuffers) :
  threads1 ≡ₚ threads2 ->
  run_threads
    (fun l => gpu_draw_object l n_elements width height tri_count ray_origins
                ray_directions triangles sun) threads1 fb =
  run_threads
    (fun l => gpu_draw_object l n_elements width height tri_count ray_origins
                ray_directions triangles sun) threads2 fb.
Proof.
  intros Hperm. revert fb.
  induction Hperm as [|x l l' _ IH|x y l|l l' l'' _ IH1 _ IH2]; intros fb.
  - reflexivity.
  - simpl. destruct (gpu_draw_object x _ _ _ _ _ _ _ _ fb); cbn; [apply IH|reflexivity].
  - simpl.
    pose proof (threads_commute x y n_elements width height tri_count ray_origins
                  ray_directions triangles sun fb) as Hc.
    destruct (gpu_draw_object y n_elements width height tri_count ray_origins
                ray_directions triangles sun fb) as [fy|];
    destruct (gpu_draw_object x n_elements width height tri_count ray_origins
                ray_directions triangles sun fb) as [fx|]; cbn in *.
    + rewrite Hc. reflexivity.
    + rewrite <- Hc. reflexivity.
    + rewrite Hc. reflexivity.
    + reflexivity.
  - rewrite IH1. apply IH2.
Qed.

Lemma run_threads_defined (n_elements width height tri_count : N)
    (ray_origins ray_directions : list (vec3 float)) (triangles : list Triangle)
    (sun : Light) (threads : list Launch) :
  N.to_nat tri_count <= length triangles ->
  forall fb,
    (forall l, l ∈ threads -> (thread_index l < n_elements)%N ->
       N.to_nat (thread_index l) < length (rgba fb) /\
       N.to_nat (thread_index l) < length (depth fb) /\
       N.to_nat (thread_index l) < length ray_origins /\
       N.to_nat (thread_index l) < length ray_directions) ->
    is_Some (run_threads
               (fun l => gpu_draw_object l n_elements width height tri_count ray_origins
                           ray_directions triangles sun) threads fb).
Proof.
  intros Htri. induction threads as [|l rest IH]; intros fb Hb; simpl.
  - eauto.
  - destruct (N.leb_spec n_elements (thread_index l)) as [Hge|Hlt].
    + rewrite gpu_draw_object_out_of_range by exact Hge. cbn.
      apply IH. intros l' Hin. apply Hb. apply elem_of_cons. right. exact Hin.
    + destruct (Hb l ltac:(apply elem_of_cons; left; reflexivity) Hlt)
        as (Hr & Hd & Hro & Hrd).
      apply lookup_lt_is_Some in Hro as [ro Hro]. apply lookup_lt_is_Some in Hrd as [rd Hrd].
      destruct (gpu_draw_object_runs l n_elements width height tri_count ray_origins
                  ray_directions triangles sun fb ro rd) as [fb1 Hrun];
        [repeat split; assumption|].
      rewrite Hrun. cbn.
      destruct (gpu_draw_object_sizes _ _ _ _ _ _ _ _ _ _ _ Hrun) as [Hlr Hld].
      apply IH. intros l' Hin Hlt'. rewrite Hlr, Hld.
      apply Hb; [apply elem_of_cons; right; exact Hin|exact Hlt'].
Qed.

(** [draw_object_async] completes when every launched thread with an
    index below the element count finds its pixel in both planes and its
    ray in both ray arrays, and the device copy of the triangles is at
    least as long as the host list the triangle count is taken from. *)
Theorem draw_object_async_is_defined (w : SyntheticWorld) (vo : VirtualObject) :
  length (cpu_triangles vo) <= length (gpu_triangles vo) ->
  (forall l, l ∈ linear_kernel_threads (n_elements_of w) ->
     (thread_index l < to_uint32 (n_elements_of w))%N ->
     N.to_nat (thread_index l) < length (rgba (m_render_buffer_view w)) /\
     N.to_nat (thread_index l) < length (depth (m_render_buffer_view w)) /\
     N.to_nat (thread_index l) < length (gpu_positions (m_camera w)) /\
     N.to_nat (thread_index l) < length (gpu_directions (m_camera w))) ->
  exists fb,
    draw_object_async w vo = Some (set_render_buffer_view fb w) /\
    length (rgba fb) = length (rgba (m_render_buffer_view w)) /\
    length (depth fb) = length (depth (m_render_buffer_view w)).
Proof.
  intros Hcopy Hb. unfold draw_object_async. cbv zeta.
  match goal with
  | |- context [run_threads ?k ?t ?f] =>
      destruct (run_threads_defined (to_uint32 (n_elements_of w))
                  (to_uint32 (fst (m_resolution w))) (to_uint32 (snd (m_resolution w)))
                  (to_uint32 (Z.of_nat (length (cpu_triangles vo))))
                  (gpu_positions (m_camera w)) (gpu_directions (m_camera w))
                  (gpu_triangles vo) (sun (m_camera w))
                  (linear_kernel_threads (n_elements_of w))) with (fb := f)
        as [fb Hrun]
  end.
  - unfold to_uint32.
    pose proof (Z.mod_le (Z.of_nat (length (cpu_triangles vo))) (2 ^ 32)
                  ltac:(lia) ltac:(lia)) as Hle.
    pose proof (Z.mod_pos_bound (Z.of_nat (length (cpu_triangles vo))) (2 ^ 32)
                  ltac:(lia)) as Hpos.
    lia.
  - exact Hb.
  - exists fb. split.
    + unfold n_elements_of in *. rewrite Hrun. reflexivity.
    + destruct (run_threads_frame _ _ _
                  (gpu_draw_object_writes_own_pixel _ _ _ _ _ _ _ _) _ _ Hrun)
        as (Hr & Hd & _).
      split; assumption.
Qed.

End WholeLaunch.

(** ** The window, the recording and the blit revisited *)

(** *** Numbered file names *)

Lemma pretty_N_go_head (x : N) :
  forall s, (0 < x)%N ->
    exists c rest, pretty_N_go x s = String c rest /\ c <> "0"%char.
Proof.
  induction (N.lt_wf_0 x) as [x _ IH]. intros s Hx.
  rewrite pretty_N_go_step by exact Hx.
  destruct (decide (x / 10 = 0)%N) as [Hq|Hq].
  - rewrite Hq, pretty_N_go_0. eexists. eexists. split; [reflexivity|].
    apply N.div_small_iff in Hq; [|lia].
    rewrite N.mod_small by exact Hq.
    assert (x = 1 \/ x = 2 \/ x = 3 \/ x = 4 \/ x = 5 \/ x = 6
            \/ x = 7 \/ x = 8 \/ x = 9)%N as Hd by lia.
    destruct Hd as [->|[->|[->|[->|[->|[->|[->|[->| ->]]]]]]]]; discriminate.
  - apply IH; [apply N.div_lt; lia|apply N.neq_0_lt_0; exact Hq].
Qed.

Lemma pretty_pos_head (n : Z) :
  (0 < n)%Z -> exists c rest, pretty n = String c rest /\ c <> "0"%char.
Proof.
  intros Hn. destruct n as [|q|q]; try lia.
  unfold pretty, pretty_Z, pretty, pretty_positive, pretty, pretty_N.
  rewrite decide_False by discriminate.
  apply pretty_N_go_head. lia.
Qed.

Lemma zeros_succ (k : nat) :
  String.concat "" (replicate (S k) "0"%string) =
  String "0" (String.concat "" (replicate k "0"%string)).
Proof. destruct k; reflexivity. Qed.

Lemma zeros_prefix_inj (ka kb : nat) (a b : string) :
  (exists c rest, a = String c rest /\ c <> "0"%char) ->
  (exists c rest, b = String c rest /\ c <> "0"%char) ->
  String.append (String.concat "" (replicate ka "0"%string)) a =
  String.append (String.concat "" (replicate kb "0"%string)) b ->
  a = b.
Proof.
  intros (ca & ra & -> & Hca) (cb & rb & -> & Hcb).
  revert kb. induction ka as [|ka IH]; intros [|kb]; rewrite ?zeros_succ; simpl.
  - auto.
  - intros [= Hc _]. congruence.
  - intros [= Hc _]. congruence.
  - intros [= Heq]. exact (IH kb Heq).
Qed.

Lemma fmt_03_inj (a b : Z) : (0 < a)%Z -> (0 < b)%Z -> fmt_03 a = fmt_03 b -> a = b.
Proof.
  intros Ha Hb. unfold fmt_03.
  destruct (Z.ltb_spec a 0); [lia|]. destruct (Z.ltb_spec b 0); [lia|].
  unfold pad_zeros. intros Heq.
  apply zeros_prefix_inj in Heq; [|apply pretty_pos_head; assumption..].
  apply (inj pretty) in Heq. exact Heq.
Qed.

Lemma string_length_append (s t : string) :
  String.length (String.append s t) = String.length s + String.length t.
Proof. induction s as [|c s IH]; simpl; [reflexivity|]. rewrite IH. reflexivity. Qed.

Lemma append_inj_suffix (x y s : string) :
  String.append x s = String.append y s -> x = y.
Proof.
  revert y. induction x as [|c x IH]; intros [|c' y].
  - reflexivity.
  - intros Heq. apply (f_equal String.length) in Heq.
    rewrite !string_length_append in Heq. simpl in Heq. lia.
  - intros Heq. apply (f_equal String.length) in Heq.
    rewrite !string_length_append in Heq. simpl in Heq. lia.
  - intros Heq. change (String c (String.append x s) = String c' (String.append y s)) in Heq.
    injection Heq as -> Heq. f_equal. exact (IH y Heq).
Qed.

Lemma output_path_inj (filepath : string) (a b : Z) :
  (0 < a)%Z -> (0 < b)%Z -> output_path filepath a = output_path filepath b -> a = b.
Proof.
  intros Ha Hb Heq. unfold output_path in Heq.
  apply append_inj_r, append_inj_r, append_inj_suffix in Heq.
  exact (fmt_03_inj a b Ha Hb Heq).
Qed.

(** *** The render loop *)

Lemma save_image_spec (width height : Z) (filepath : string) (d : Display) (p : Process) :
  (0 <= m_img_count d <= m_img_count_max d)%Z -> (m_img_count_max d < 2 ^ 31 - 1)%Z ->
  save_image width height filepath d p =
  (true,
   set_img_count (m_img_count d + 1)
     (set_writing_buffer_size (int_wrap (row_stride width * height)) d),
   {| m_is_init := m_is_init p; calls := calls p;
      files := files p ++ [output_image width height filepath (m_img_count d + 1)] |}).
Proof.
  intros Hc Hmax. unfold save_image.
  destruct (Z.gtb_spec (m_img_count d) (m_img_count_max d)); [lia|].
  cbv zeta. simpl. rewrite (int_wrap_small (m_img_count d + 1)) by lia. reflexivity.
Qed.

Lemma render_loop_recording (e a : bool) (width height : Z) (dest : string) :
  forall (n fuel : nat) (d : Display) (p : Process),
    (0 <= m_img_count d)%Z -> (m_img_count_max d < 2 ^ 31 - 1)%Z ->
    (m_img_count d + Z.of_nat n = m_img_count_max d + 1)%Z ->
    n < fuel ->
    exists d' p',
      render_loop fuel true e a width height dest d p = Some (S n, d', p') /\
      files p' =
        files p ++
        map (fun k => output_image width height dest (m_img_count d + Z.of_nat k)) (seq 1 n) /\
      m_img_count d' = (m_img_count_max d + 1)%Z /\
      m_img_count_max d' = m_img_count_max d.
Proof.
  induction n as [|n IH]; intros fuel d p Hc Hmax Hn Hfuel;
    (destruct fuel as [|fuel]; [lia|]); cbn [render_loop frame_result].
  - rewrite save_image_stops by lia.
    exists d, p. rewrite app_nil_r. repeat split; lia.
  - rewrite save_image_spec by lia.
    match goal with
    | |- context [render_loop fuel true e a width height dest ?d1 ?p1] =>
        destruct (IH fuel d1 p1) as (d' & p' & Hrun & Hfiles & Hcount & Hmax');
        [simpl; lia|exact Hmax|simpl; lia|lia|]
    end.
    rewrite Hrun. exists d', p'. split; [reflexivity|]. split; [|split; assumption].
    rewrite Hfiles. cbn [files m_img_count set_img_count].
    rewrite <- app_assoc. f_equal. cbn [app seq map].
    f_equal; [try (f_equal; lia)..|].
    rewrite <- (seq_shift n 1), map_map. apply map_ext. intros k. f_equal. lia.
Qed.

(** A recording that starts at count zero with a bound [m_img_count_max]
    that is not negative writes the images numbered 1 to
    [m_img_count_max + 1], under names that are pairwise different, and
    stops in the frame after the last of them. *)
Theorem recording_writes_numbered_files (e a : bool) (width height : Z) (dest : string)
    (d : Display) (p : Process) (fuel : nat) :
  m_img_count d = 0%Z -> (0 <= m_img_count_max d < 2 ^ 31 - 1)%Z ->
  Z.to_nat (m_img_count_max d) + 1 < fuel ->
  let names :=
    map (fun k => output_path dest (Z.of_nat k)) (seq 1 (Z.to_nat (m_img_count_max d) + 1)) in
  exists d' p',
    render_loop fuel true e a width height dest d p =
      Some (Z.to_nat (m_img_count_max d) + 2, d', p') /\
    map img_path (files p') = map img_path (files p) ++ names /\
    NoDup names /\
    m_img_count d' = (m_img_count_max d + 1)%Z.
Proof.
  intros Hc Hmax Hfuel names.
  destruct (render_loop_recording e a width height dest
              (Z.to_nat (m_img_count_max d) + 1) fuel d p)
    as (d' & p' & Hrun & Hfiles & Hcount & _); try lia.
  exists d', p'. split; [|split; [|split]].
  - rewrite Hrun. repeat f_equal. lia.
  - rewrite Hfiles, map_app, map_map. f_equal. apply map_ext. intros k. rewrite Hc.
    reflexivity.
  - unfold names. apply NoDup_fmap_2_strong; [|apply NoDup_seq].
    intros i j Hi Hj Heq. apply elem_of_seq in Hi, Hj.
    apply output_path_inj in Heq; lia.
  - exact Hcount.
Qed.

Lemma render_loop_playback (a : bool) (width height : Z) (dest : string) :
  forall (n fuel : nat) (d : Display) (p : Process),
    (0 <= m_img_count d < 2 ^ 31 - 1)%Z -> (m_img_count_max d < 2 ^ 31 - 1)%Z ->
    (m_img_count d + Z.of_nat n = Z.max (m_img_count d) (m_img_count_max d))%Z ->
    n < fuel ->
    render_loop fuel false true a width height dest d p =
      Some (S n, set_img_count (m_img_count d + Z.of_nat n + 1) d, p).
Proof.
  induction n as [|n IH]; intros fuel d p Hc Hmax Hn Hfuel;
    (destruct fuel as [|fuel]; [lia|]); simpl.
  - destruct (Z.ltb_spec (m_img_count d) (m_img_count_max d)); [lia|].
    rewrite int_wrap_small by lia.
    replace (m_img_count d + Z.of_nat 0 + 1)%Z with (m_img_count d + 1)%Z by lia.
    reflexivity.
  - destruct (Z.ltb_spec (m_img_count d) (m_img_count_max d)); [|lia].
    rewrite IH; simpl; rewrite ?int_wrap_small; try lia.
    replace (m_img_count d + Z.of_nat (S n) + 1)%Z
      with (m_img_count d + 1 + Z.of_nat n + 1)%Z by lia.
    reflexivity.
Qed.

(** With [end_on_loop] and no recording, a loop that starts at count zero
    runs exactly [m_img_count_max + 1] frames (one frame when the bound is
    negative), writes no file and changes nothing but the counter. *)
Theorem playback_runs_max_plus_one_frames (a : bool) (width height : Z) (dest : string)
    (d : Display) (p : Process) (fuel : nat) :
  m_img_count d = 0%Z -> (m_img_count_max d < 2 ^ 31 - 1)%Z ->
  Z.to_nat (m_img_count_max d) < fuel ->
  render_loop fuel false true a width height dest d p =
    Some (Z.to_nat (m_img_count_max d) + 1,
          set_img_count (Z.max 0 (m_img_count_max d) + 1) d, p).
Proof.
  intros Hc Hmax Hfuel.
  rewrite (render_loop_playback a width height dest (Z.to_nat (m_img_count_max d)))
    by lia.
  repeat f_equal; lia.
Qed.

(** *** Tearing the window down *)

(** [destroy] can be called again at once: the second call finds the flag
    clear and does nothing, so the window system is shut down once. *)
Theorem destroy_twice (d : Display) (p : Process) :
  destroy (fst (destroy d p)) (snd (destroy d p)) = destroy d p /\
  (m_is_init p = true ->
   calls (snd (destroy d p)) =
     calls p ++ [ImGuiImplOpenGL3Shutdown; ImGuiImplGlfwShutdown; ImGuiDestroyContext;
                 GlfwDestroyWindow (m_glfw_window d); GlfwTerminate]) /\
  (m_is_init p = false -> destroy d p = (d, p)).
Proof.
  unfold destroy. destruct (m_is_init p) eqn:Hinit; simpl.
  - split; [reflexivity|]. split; [|discriminate].
    intros _. rewrite <- !app_assoc. reflexivity.
  - rewrite Hinit. simpl. split; [reflexivity|]. split; [discriminate|reflexivity].
Qed.

(** When the platform fails after the window was created (the loader
    fails, or the OpenGL version is below 3.1), [init_window] throws with
    the window handle already stored and the flag still clear: the counter
    and the blit program are as before, [destroy] does nothing, so the
    window is not destroyed through it, and a later [init_window] is not
    held back by the guard. *)
Theorem init_window_failure_keeps_window (h : Host) (resw resh : Z) (frag_fp : string)
    (d : Display) (p : Process) (w : Z) :
  m_is_init p = false ->
  glfwInit_ok h = true -> created_window h = Some w ->
  gl_loader_ok h = false \/
    (gl_version_major h < 3)%Z \/ (gl_version_major h = 3 /\ gl_version_minor h < 1)%Z ->
  exists what d' p',
    init_window h resw resh frag_fp d p = (Thrown what, d', p') /\
    d' = set_window (Some w) d /\
    m_is_init p' = false /\
    destroy d' p' = (d', p') /\
    forall h2 w2, working_host h2 w2 ->
      exists d2 p2,
        init_window h2 resw resh frag_fp d' p' = (Returned (Some w2), d2, p2) /\
        m_glfw_window d2 = Some w2 /\ m_is_init p2 = true.
Proof.
  intros Hinit Hglfw Hwin Hfail.
  assert (Hretry : forall d1 p1, m_is_init p1 = false ->
            forall h2 w2, working_host h2 w2 ->
              exists d2 p2,
                init_window h2 resw resh frag_fp d1 p1 = (Returned (Some w2), d2, p2) /\
                m_glfw_window d2 = Some w2 /\ m_is_init p2 = true).
  { intros d1 p1 Hp1 h2 w2 (Hg & Hw & Hl & Hv).
    unfold init_window, init_glfw. rewrite Hp1, Hg, Hw. simpl. rewrite Hl. simpl.
    rewrite Hv. simpl. eexists. eexists. repeat split; reflexivity. }
  unfold init_window, init_glfw. rewrite Hinit, Hglfw, Hwin. simpl.
  destruct (gl_loader_ok h) eqn:Hloader; simpl.
  - assert (Hv : (gl_version_major h <? 3)%Z
                 || ((gl_version_major h =? 3)%Z && (gl_version_minor h <? 1)%Z) = true).
    { destruct Hfail as [Hf|[Hf|[Hf1 Hf2]]]; [discriminate| |].
      - apply orb_true_iff. left. apply Z.ltb_lt. exact Hf.
      - apply orb_true_iff. right. apply andb_true_iff.
        split; [apply Z.eqb_eq; exact Hf1|apply Z.ltb_lt; exact Hf2]. }
    rewrite Hv. eexists. eexists. eexists. split; [reflexivity|].
    split; [reflexivity|]. split; [exact Hinit|].
    split; [unfold destroy; simpl; rewrite Hinit; reflexivity|].
    apply Hretry. exact Hinit.
  - eexists. eexists. eexists. split; [reflexivity|].
    split; [reflexivity|]. split; [exact Hinit|].
    split; [unfold destroy; simpl; rewrite Hinit; reflexivity|].
    apply Hretry. exact Hinit.
Qed.

(** *** The state the blit leaves *)

Section BlitState.
Context {F : Type} `{Scalar F}.
Import GL.

Ltac run_blit :=
  lazy [transfer_texture bind_warp mbind mret Cmd_bind Cmd_ret bind ret modify get
        glIsEnabled glEnable glDisable glDepthFunc glDepthMask glBindVertexArray
        glUseProgram glGetUniformLocation glUniform1i glUniform1iv glUniform2iv
        glUniform1f glActiveTexture glBindTexture glTexParameteri glBindFramebuffer
        glViewport glDrawArrays snd fst now drawn negb
        Frag.al Frag.bl Frag.cl Frag.am Frag.bm Frag.ar Frag.br Frag.cr
        Frag.switch_left Frag.switch_right Frag.inv_switch_left Frag.inv_switch_right
        fov_warp_x fov_warp_y String.append].

Ltac raster_fields :=
  lazy [raster program active_texture
        set_program set_uniform set_active_texture bind_texture_2d set_tex_param with_raster
        set_cap get_cap set_depth_func set_depth_mask set_vertex_array set_framebuffer
        set_viewport cap_texture_2d cap_depth_test cap_cull_face depth_func depth_mask
        vertex_array framebuffer viewport].

(** [transfer_texture] gives the three capabilities it toggles their former
    values back.  The rest of what it sets stays set: on return the depth
    function is [GL_LESS] and the depth mask is on, whatever they were
    before; no program and no vertex array is bound, the default
    framebuffer is bound, unit 0 is the active texture unit and the viewport
    is the rectangle of the blit.  A display without a program changes
    nothing at all. *)
Theorem transfer_texture_restores_capabilities (d : Display)
    (foveation : Foveation F) (syn_rgba syn_depth rgba_filter_mode nerf_rgba nerf_depth
     framebuffer : Z) (offset resolution nerf_res syn_res : Z * Z) (filter_type : Z)
    (g : Context F) :
  let g' := snd (transfer_texture d foveation syn_rgba syn_depth rgba_filter_mode
                   nerf_rgba nerf_depth framebuffer offset resolution nerf_res syn_res
                   filter_type g) in
  (forall cap, get_cap cap (raster (now g')) = get_cap cap (raster (now g))) /\
  (m_blit_program d = 0%Z -> g' = g) /\
  (m_blit_program d <> 0%Z ->
     GL.depth_func (raster (now g')) = GL_LESS /\
     GL.depth_mask (raster (now g')) = true /\
     GL.vertex_array (raster (now g')) = 0%Z /\
     GL.framebuffer (raster (now g')) = 0%Z /\
     GL.viewport (raster (now g')) =
       (fst offset, snd offset, fst resolution, snd resolution) /\
     program (now g') = 0%Z /\
     active_texture (now g') = 0%Z).
Proof.
  intros g'. subst g'. unfold transfer_texture.
  destruct (Z.eqb_spec (m_blit_program d) 0) as [Hz|Hnz].
  - split; [reflexivity|]. split; [reflexivity|]. intros Hne. contradiction.
  - destruct g as [s0 d0], nerf_res, syn_res, resolution, offset, foveation as [[] []].
    destruct s0 as [r0 p0 u0 a0 b0 tp0 ti0].
    destruct r0 as [c1 c2 c3 df dm va fbo vp].
    run_blit. cbn [get_cap raster cap_texture_2d cap_depth_test cap_cull_face].
    destruct c1, c2, c3; run_blit.
    all: split; [intros []; raster_fields; reflexivity|].
    all: split; [intros Hz; contradiction|].
    all: intros _; raster_fields; repeat split; reflexivity.
Qed.

End BlitState.

(** *** The pixel buffer of [save_image] *)

Lemma row_stride_aligned (width : Z) :
  (0 <= width)%Z -> (3 * width + 3 < 2 ^ 31)%Z ->
  ((row_stride width) mod 4 = 0)%Z /\
  (3 * width <= row_stride width < 3 * width + 4)%Z.
Proof.
  intros Hw Hmax. unfold row_stride. cbv zeta.
  rewrite (int_wrap_small (3 * width)) by lia.
  rewrite Z.rem_mod_nonneg by lia.
  pose proof (Z.mod_pos_bound (3 * width) 4 ltac:(lia)) as Hr.
  pose proof (Z.div_mod (3 * width) 4 ltac:(lia)) as Hdm.
  destruct (Z.eqb_spec ((3 * width) mod 4) 0) as [Hz|Hnz].
  - rewrite Z.add_0_r, int_wrap_small by lia. split; [exact Hz|lia].
  - rewrite int_wrap_small by lia. split; [|lia].
    replace (3 * width + (4 - (3 * width) mod 4))%Z
      with ((3 * width / 4 + 1) * 4)%Z by lia.
    apply Z.mod_mul. lia.
Qed.

(** As long as the 32-bit arithmetic of [save_image] does not overflow,
    which is when a padded row and the whole image stay below [2^31]
    bytes, the row stride it hands to the PNG writer is the least multiple
    of four that holds a row of three-byte pixels, which is the row length
    of a read-back under [GL_PACK_ALIGNMENT] 4, and the pixel buffer is
    resized to exactly [height] such rows. *)
Theorem save_image_rows_are_aligned (width height : Z) (filepath : string)
    (d : Display) (p : Process) :
  (0 <= width)%Z -> (0 <= height)%Z ->
  (3 * width + 3 < 2 ^ 31)%Z -> ((3 * width + 3) * height < 2 ^ 31)%Z ->
  (0 <= m_img_count d <= m_img_count_max d)%Z -> (m_img_count_max d < 2 ^ 31 - 1)%Z ->
  exists d' p' image,
    save_image width height filepath d p = (true, d', p') /\
    files p' = files p ++ [image] /\
    img_width image = width /\ img_height image = height /\ img_channels image = 3%Z /\
    (img_stride image mod 4 = 0)%Z /\
    (3 * width <= img_stride image < 3 * width + 4)%Z /\
    m_writing_buffer_size d' = (img_stride image * height)%Z.
Proof.
  intros Hw Hh Hrow Himg Hc Hmax. rewrite save_image_spec by assumption.
  destruct (row_stride_aligned width Hw Hrow) as [Hal Hle].
  eexists. eexists. eexists. split; [reflexivity|]. simpl.
  split; [reflexivity|]. repeat split; try reflexivity; try exact Hal; try apply Hle.
  apply int_wrap_small. cbn [img_stride output_image].
  assert (Hup : (row_stride width * height <= (3 * width + 3) * height)%Z)
    by (apply Z.mul_le_mono_nonneg_r; lia).
  assert (Hlo : (0 <= row_stride width * height)%Z)
    by (apply Z.mul_nonneg_nonneg; lia).
  lia.
Qed.

(** *** The triangle of the blit *)

Section FullScreenTriangle.
Local Open Scope R_scope.

(** The three vertices of [glDrawArrays(GL_TRIANGLES, 0, 3)] span a
    triangle that covers the whole clip square: every point of the square
    is a convex combination of the three positions, and any such
    combination carries the texture coordinate [((x + 1) / 2, (y + 1) / 2)],
    which lies in the unit square. *)
Theorem blit_triangle_covers_viewport (x y : R) :
  -1 <= x <= 1 -> -1 <= y <= 1 ->
  let vertex (i : Z) : vec2 R * vec4 R := shader_vert i in
  (exists l0 l1 l2,
     0 <= l0 /\ 0 <= l1 /\ 0 <= l2 /\ l0 + l1 + l2 = 1 /\
     l0 * v4x (snd (vertex 0%Z)) + l1 * v4x (snd (vertex 1%Z)) + l2 * v4x (snd (vertex 2%Z)) = x /\
     l0 * v4y (snd (vertex 0%Z)) + l1 * v4y (snd (vertex 1%Z)) + l2 * v4y (snd (vertex 2%Z)) = y) /\
  (forall l0 l1 l2,
     l0 + l1 + l2 = 1 ->
     l0 * v4x (snd (vertex 0%Z)) + l1 * v4x (snd (vertex 1%Z)) + l2 * v4x (snd (vertex 2%Z)) = x ->
     l0 * v4y (snd (vertex 0%Z)) + l1 * v4y (snd (vertex 1%Z)) + l2 * v4y (snd (vertex 2%Z)) = y ->
     let u := l0 * v2x (fst (vertex 0%Z)) + l1 * v2x (fst (vertex 1%Z)) + l2 * v2x (fst (vertex 2%Z)) in
     let v := l0 * v2y (fst (vertex 0%Z)) + l1 * v2y (fst (vertex 1%Z)) + l2 * v2y (fst (vertex 2%Z)) in
     u = (x + 1) / 2 /\ v = (y + 1) / 2 /\ 0 <= u <= 1 /\ 0 <= v <= 1) /\
  (forall i, v4z (snd (vertex i)) = 0 /\ v4w (snd (vertex i)) = 1).
Proof.
  intros Hx Hy vertex. subst vertex. unfold shader_vert. cbv zeta. simpl.
  repeat match goal with
  | |- context [Z.land ?a ?b] =>
      let v := eval vm_compute in (Z.land a b) in change (Z.land a b) with v
  end.
  split; [|split].
  - exists (1 - (x + 1) / 4 - (y + 1) / 4), ((x + 1) / 4), ((y + 1) / 4).
    repeat split; lra.
  - intros l0 l1 l2 Hsum Hpx Hpy. repeat split; lra.
  - intros i. split; reflexivity.
Qed.

End FullScreenTriangle.

(** ** The staging step over several frames *)

Section StagingFrames.
Context `{SceneLib}.

Lemma clear_dirty_clean {A} (l : list (Entity A)) :
  existsb is_dirty l = false -> map clear_dirty l = l.
Proof.
  induction l as [|m l IH]; simpl; [reflexivity|].
  intros Hl. apply orb_false_iff in Hl as [Hm Hl].
  rewrite (IH Hl). f_equal. destruct m as [flag st]. simpl in *. subst flag. reflexivity.
Qed.

Lemma existsb_clear_dirty {A} (l : list (Entity A)) :
  existsb is_dirty (map clear_dirty l) = false.
Proof. induction l as [|m l IH]; simpl; [reflexivity|exact IH]. Qed.

Lemma advance_object_still (e : Engine) (l : list (Entity ObjectState)) :
  m_enable_animations e = false -> map (advance_object e) l = l.
Proof.
  intros Hoff. rewrite <- (map_id l) at 2. apply map_ext. intros obj.
  unfold advance_object. rewrite Hoff. reflexivity.
Qed.

Lemma advance_light_still (e : Engine) (l : list (Entity LightState)) :
  m_enable_animations e = false -> map (advance_light e) l = l.
Proof.
  intros Hoff. rewrite <- (map_id l) at 2. apply map_ext. intros obj.
  unfold advance_light. rewrite Hoff. reflexivity.
Qed.

(** Nothing in the staging step clears the redraw flag [m_is_dirty], which
    a new engine holds set: with a testbed attached, every call resets the
    accumulation of the ray tracer and of the testbed, whether or not the
    scene changed. *)
Theorem redraw_flag_is_never_cleared (e : Engine) (tb : Testbed) (n : nat) :
  m_testbed e = Some tb -> m_is_dirty e = true ->
  m_is_dirty (Nat.iter n update_world_objects e) = true /\
  m_testbed (Nat.iter n update_world_objects e) = Some {| tb_resets := n + tb_resets tb |} /\
  rt_resets (m_raytracer (Nat.iter n update_world_objects e)) =
    n + rt_resets (m_raytracer e).
Proof.
  intros Htb Hdirty. induction n as [|n (IHd & IHt & IHr)]; simpl.
  - rewrite Htb. destruct tb. auto.
  - rewrite update_world_objects_spec. cbv zeta. simpl.
    rewrite IHd, IHt, orb_true_r. simpl. rewrite IHr. auto.
Qed.

(** With animations off the scene settles after one call: a second call
    finds every flag clear, uploads nothing and leaves the host lists and
    the device arrays as the first call left them. *)
Theorem staging_settles_after_one_frame (e : Engine) :
  m_enable_animations e = false ->
  let e1 := update_world_objects e in
  let e2 := update_world_objects e1 in
  uploads e2 = uploads e1 /\
  m_objects e2 = m_objects e1 /\ m_materials e2 = m_materials e1 /\
  m_lights e2 = m_lights e1 /\
  d_world e2 = d_world e1 /\ d_materials e2 = d_materials e1 /\ d_lights e2 = d_lights e1.
Proof.
  intros Hoff e1 e2.
  assert (Hoff1 : m_enable_animations e1 = false).
  { unfold e1. rewrite update_world_objects_spec. exact Hoff. }
  assert (Hobj : existsb is_dirty (m_objects e1) = false).
  { unfold e1. rewrite update_world_objects_spec. cbv zeta. simpl.
    rewrite advance_object_still by exact Hoff.
    destruct (objects_changed e); apply existsb_clear_dirty. }
  assert (Hmat : existsb is_dirty (m_materials e1) = false).
  { unfold e1. rewrite update_world_objects_spec. apply existsb_clear_dirty. }
  assert (Hlig : existsb is_dirty (m_lights e1) = false).
  { unfold e1. rewrite update_world_objects_spec. cbv zeta. simpl.
    rewrite advance_light_still by exact Hoff.
    destruct (lights_changed e); apply existsb_clear_dirty. }
  unfold e2. rewrite (update_world_objects_spec e1). cbv zeta. simpl.
  unfold objects_changed, materials_changed, lights_changed.
  rewrite Hobj, Hmat, Hlig, Hoff1. simpl.
  rewrite !clear_dirty_clean by assumption. rewrite app_nil_r.
  repeat split; reflexivity.
Qed.

(** The step keeps the device arrays in step with the host lists: if each
    array mirrors its list before the call, it does after the call, whether
    the category was uploaded or not. *)
Theorem staging_keeps_device_mirrored (e : Engine) :
  mirrored e -> mirrored (update_world_objects e).
Proof.
  intros (Hw & Hm & Hl). unfold mirrored.
  rewrite update_world_objects_spec. cbv zeta. simpl.
  split; [|split].
  - destruct (objects_changed e) eqn:Hc; [reflexivity|].
    unfold objects_changed in Hc. apply orb_false_iff in Hc as [Hc _].
    rewrite clear_dirty_clean by exact Hc. exact Hw.
  - destruct (materials_changed e) eqn:Hc; [reflexivity|].
    unfold materials_changed in Hc.
    rewrite clear_dirty_clean by exact Hc. exact Hm.
  - destruct (lights_changed e) eqn:Hc; [reflexivity|].
    unfold lights_changed in Hc. apply orb_false_iff in Hc as [Hc _].
    rewrite clear_dirty_clean by exact Hc. exact Hl.
Qed.

End StagingFrames.

(** ** The shader on binary32 coordinates *)

Section UnwarpBinary32.
Import Frag.

Lemma ltb_nan_l (y : float) : Binary32.ltb S754_nan y = false.
Proof. reflexivity. Qed.

Lemma ltb_nan_r (x : float) : Binary32.ltb x S754_nan = false.
Proof. destruct x; reflexivity. Qed.

Lemma sub_nan_l (y : float) : Binary32.sub S754_nan y = S754_nan.
Proof. destruct y; reflexivity. Qed.

Lemma div_nan_l (y : float) : Binary32.div S754_nan y = S754_nan.
Proof. destruct y; reflexivity. Qed.

(** On binary32 values and for any warp parameters, a coordinate below
    zero is unwarped like zero and a coordinate above one like one, and a
    NaN coordinate passes both comparisons of the clamp and both branch
    tests, so that the linear branch turns it into a NaN result. *)
Theorem unwarp_binary32_edges (w : FoveationWarp float) (y : float) :
  (Binary32.ltb y (Binary32.of_Z 0) = true -> unwarp w y = unwarp w (Binary32.of_Z 0)) /\
  (Binary32.ltb (Binary32.of_Z 1) y = true -> unwarp w y = unwarp w (Binary32.of_Z 1)) /\
  (Binary32.is_nan y = true -> Binary32.is_nan (unwarp w y) = true).
Proof.
  assert (Hclamp0 : clamp (Binary32.of_Z 0) (lit 0) (lit 1) = Binary32.of_Z 0)
    by (vm_compute; reflexivity).
  assert (Hclamp1 : clamp (Binary32.of_Z 1) (lit 0) (lit 1) = Binary32.of_Z 1)
    by (vm_compute; reflexivity).
  split; [|split].
  - intros Hlt.
    assert (Hc : clamp y (lit 0) (lit 1) = Binary32.of_Z 0).
    { unfold clamp, max, min. cbn [less Scalar_binary32 lit].
      rewrite Hlt. vm_compute. reflexivity. }
    unfold unwarp. rewrite Hc, Hclamp0. reflexivity.
  - intros Hgt.
    assert (Hc : clamp y (lit 0) (lit 1) = Binary32.of_Z 1).
    { unfold clamp, max, min. cbn [less Scalar_binary32 lit].
      destruct (Binary32.ltb y (Binary32.of_Z 0)) eqn:Hlt.
      - exfalso. pose proof (ltb_trans _ _ _ Hgt Hlt) as Habs. vm_compute in Habs.
        discriminate.
      - rewrite Hgt. reflexivity. }
    unfold unwarp. rewrite Hc, Hclamp1. reflexivity.
  - intros Hnan. destruct y; try discriminate.
    assert (Hc : @clamp float _ S754_nan (lit 0) (lit 1) = S754_nan)
      by (vm_compute; reflexivity).
    unfold unwarp. rewrite Hc. cbn [less Scalar_binary32 minus over].
    rewrite ltb_nan_l, ltb_nan_r, sub_nan_l, div_nan_l. reflexivity.
Qed.

End UnwarpBinary32.

(** ** The debug kernels *)

Section DebugKernels.
Import Debug.

Lemma abs_not_negative (x : float) : Binary32.ltb (SFabs x) (Binary32.of_Z 0) = false.
Proof. destruct x as [s|s| |s m e]; reflexivity. Qed.

(** A thread of [debug_draw_rays] whose index is below [n_elements] stores
    a colour whose three channels are the magnitudes of the ray direction:
    none compares below zero, the alpha is one, and the depth plane and all
    other pixels are left alone. *)
Theorem debug_draw_rays_colours (l : Launch) (n_elements width height : N)
    (ray_origins ray_directions : list (vec3 float)) (fb fb' : RenderBuffers) :
  (thread_index l < n_elements)%N ->
  debug_draw_rays l n_elements width height ray_origins ray_directions fb = Some fb' ->
  exists rd c,
    ray_directions !! N.to_nat (thread_index l) = Some rd /\
    c = mk_vec4 (SFabs (v3x rd)) (SFabs (v3y rd)) (SFabs (v3z rd)) (Binary32.of_Z 1) /\
    rgba fb' = <[N.to_nat (thread_index l) := c]> (rgba fb) /\
    N.to_nat (thread_index l) < length (rgba fb) /\
    depth fb' = depth fb /\
    Binary32.ltb (v4x c) (Binary32.of_Z 0) = false /\
    Binary32.ltb (v4y c) (Binary32.of_Z 0) = false /\
    Binary32.ltb (v4z c) (Binary32.of_Z 0) = false.
Proof.
  intros Hlt. unfold debug_draw_rays. cbv zeta.
  destruct (N.leb_spec n_elements (thread_index l)); [lia|].
  unfold load. destruct (ray_directions !! N.to_nat (thread_index l)) as [rd|];
    [|discriminate].
  cbn [mbind option_bind]. unfold store.
  destruct (decide (N.to_nat (thread_index l) < length (rgba fb))) as [Hr|];
    [|discriminate].
  cbn [mbind option_bind]. intros [= <-].
  exists rd. eexists. split; [reflexivity|]. split; [reflexivity|].
  split; [reflexivity|]. split; [exact Hr|]. split; [reflexivity|].
  repeat split; apply abs_not_negative.
Qed.

(** On a square image of side [side], the thread of [debug_paint] for the
    pixel in column [col] and row [row] stores the colour
    [(col / side, row / side, 0, 1)] and the depth one half. *)
Theorem debug_paint_square (l : Launch) (n_elements side col row : N)
    (fb : RenderBuffers) :
  (col < side)%N ->
  thread_index l = (row * side + col)%N ->
  (thread_index l < n_elements)%N ->
  N.to_nat (thread_index l) < length (rgba fb) ->
  N.to_nat (thread_index l) < length (depth fb) ->
  debug_paint l n_elements side side fb =
  Some {| rgba := <[N.to_nat (thread_index l) :=
                     mk_vec4 (Binary32.div (of_uint32 col) (of_uint32 side))
                             (Binary32.div (of_uint32 row) (of_uint32 side))
                             (Binary32.of_Z 0) (Binary32.of_Z 1)]> (rgba fb);
          depth := <[N.to_nat (thread_index l) := lit_0_5]> (depth fb) |}.
Proof.
  intros Hcol Hidx Hlt Hr Hd. unfold debug_paint. cbv zeta.
  destruct (N.leb_spec n_elements (thread_index l)); [lia|].
  destruct (N.eqb_spec side 0) as [Hz|Hnz]; [lia|]. cbn [orb].
  rewrite !store_in_bounds by assumption. cbn [mbind option_bind].
  rewrite Hidx.
  replace ((row * side + col) mod side)%N with col.
  2:{ rewrite N.add_comm, N.Div0.mod_add. symmetry. apply N.mod_small. exact Hcol. }
  replace ((row * side + col) / side)%N with row.
  2:{ apply (N.div_unique _ _ _ col); [exact Hcol|lia]. }
  reflexivity.
Qed.

End DebugKernels.

(** ** The closest hit and the order of the triangles *)

Section ClosestOrder.
Context `{DeviceLib}.

Lemma found_at_valid (ro rd : vec3 float) (l : list Triangle) (c : Closest) (k : nat) :
  found_at ro rd l c k -> valid_t (dt c) = true.
Proof. intros (tri & _ & Hv & Hdt & _). rewrite Hdt. exact Hv. Qed.

Lemma found_at_least (ro rd : vec3 float) (l1 l2 : list Triangle) (c1 c2 : Closest)
    (k1 k2 : nat) :
  l1 ≡ₚ l2 -> found_at ro rd l1 c1 k1 -> found_at ro rd l2 c2 k2 ->
  Binary32.leb (dt c1) (dt c2) = true.
Proof.
  intros Hperm (tri1 & _ & _ & _ & _ & Hmin1 & _) (tri2 & Hk2 & Hv2 & Hdt2 & _).
  assert (Hin : tri2 ∈ l1).
  { rewrite Hperm. apply list_elem_of_lookup. exists k2. exact Hk2. }
  apply list_elem_of_lookup in Hin as [j Hj].
  rewrite Hdt2. exact (Hmin1 j tri2 Hj Hv2).
Qed.

(** The hit distance the loop ends with does not depend on the order of the
    triangles: over two arrays holding the same triangles, either both
    loops miss and keep [MAX_RT_DIST], or both find a valid distance and
    the two distances compare equal.  (The normal does depend on the
    order: among triangles at the least distance the first one is kept.) *)
Theorem closest_distance_ignores_order (triangles1 triangles2 : list Triangle)
    (ro rd : vec3 float) :
  triangles1 ≡ₚ triangles2 ->
  exists c1 c2,
    closest_loop (length triangles1) 0 triangles1 ro rd
      {| dt := MAX_RT_DIST; hit_normal := None |} = Some c1 /\
    closest_loop (length triangles2) 0 triangles2 ro rd
      {| dt := MAX_RT_DIST; hit_normal := None |} = Some c2 /\
    ((dt c1 = MAX_RT_DIST /\ dt c2 = MAX_RT_DIST /\
      hit_normal c1 = None /\ hit_normal c2 = None) \/
     (valid_t (dt c1) = true /\ valid_t (dt c2) = true /\
      Binary32.leb (dt c1) (dt c2) = true /\ Binary32.leb (dt c2) (dt c1) = true)).
Proof.
  intros Hperm.
  rewrite !closest_loop_fold by (simpl; lia).
  rewrite !drop_0, !firstn_all.
  eexists. eexists. split; [reflexivity|]. split; [reflexivity|].
  destruct (closest_fold_invariant ro rd triangles1) as [Hn1|[k1 Hf1]];
  destruct (closest_fold_invariant ro rd triangles2) as [Hn2|[k2 Hf2]].
  - left. destruct Hn1 as (_ & Hd1 & Hh1), Hn2 as (_ & Hd2 & Hh2). auto.
  - exfalso. destruct Hn1 as (Hnone & _), Hf2 as (tri2 & Hk2 & Hv2 & _).
    assert (Hin : tri2 ∈ triangles1).
    { rewrite Hperm. apply list_elem_of_lookup. exists k2. exact Hk2. }
    apply list_elem_of_lookup in Hin as [j Hj].
    rewrite (Hnone j tri2 Hj) in Hv2. discriminate.
  - exfalso. destruct Hn2 as (Hnone & _), Hf1 as (tri1 & Hk1 & Hv1 & _).
    assert (Hin : tri1 ∈ triangles2).
    { rewrite <- Hperm. apply list_elem_of_lookup. exists k1. exact Hk1. }
    apply list_elem_of_lookup in Hin as [j Hj].
    rewrite (Hnone j tri1 Hj) in Hv1. discriminate.
  - right. split; [exact (found_at_valid _ _ _ _ _ Hf1)|].
    split; [exact (found_at_valid _ _ _ _ _ Hf2)|].
    split.
    + exact (found_at_least ro rd _ _ _ _ _ _ Hperm Hf1 Hf2).
    + symmetry in Hperm. exact (found_at_least ro rd _ _ _ _ _ _ Hperm Hf2 Hf1).
Qed.

End ClosestOrder.

(** ** The theorems above on the reference inputs *)

Module WorldSceneFacts.
Import World Scene WorldScene.

Lemma gpu_draw_object_frame_witness :
  exists fb',
    gpu_draw_object thread1 2 2 1 1 [eye; eye] [down; sideways] [floor_tri] sun_above
      blank4 = Some fb' /\
    length (rgba fb') = length (rgba blank4) /\
    length (depth fb') = length (depth blank4) /\
    forall j, j <> N.to_nat (thread_index thread1) ->
      rgba fb' !! j = rgba blank4 !! j /\ depth fb' !! j = depth blank4 !! j.
Proof.
  destruct (gpu_draw_object thread1 2 2 1 1 [eye; eye] [down; sideways] [floor_tri]
              sun_above blank4)
    as [fb'|] eqn:E; [|vm_compute in E; discriminate].
  exists fb'. split; [reflexivity|].
  apply (gpu_draw_object_frame thread1 2 2 1 1 [eye; eye] [down; sideways] [floor_tri]
           sun_above blank4 fb').
  exact E.
Defined.

Lemma launch_ignores_thread_order_witness :
  [thread0; thread1] ≡ₚ [thread1; thread0] /\
  run_threads
    (fun l => gpu_draw_object l 2 2 1 1 [eye; eye] [down; sideways] [floor_tri] sun_above)
    [thread0; thread1] blank4 =
  run_threads
    (fun l => gpu_draw_object l 2 2 1 1 [eye; eye] [down; sideways] [floor_tri] sun_above)
    [thread1; thread0] blank4.
Proof.
  assert (Hperm : [thread0; thread1] ≡ₚ [thread1; thread0]) by apply perm_swap.
  split; [exact Hperm|].
  apply (launch_ignores_thread_order [thread0; thread1] [thread1; thread0] 2 2 1 1
           [eye; eye] [down; sideways] [floor_tri] sun_above blank4 Hperm).
Defined.

Lemma draw_object_async_is_defined_witness :
  length (cpu_triangles floor_object) <= length (gpu_triangles floor_object) /\
  exists fb,
    draw_object_async world floor_object = Some (set_render_buffer_view fb world) /\
    length (rgba fb) = length (rgba (m_render_buffer_view world)) /\
    length (depth fb) = length (depth (m_render_buffer_view world)).
Proof.
  assert (Hcopy : length (cpu_triangles floor_object) <= length (gpu_triangles floor_object))
    by (simpl; lia).
  split; [exact Hcopy|].
  apply (draw_object_async_is_defined world floor_object Hcopy).
  intros l _ Hlt.
  assert (Hn : to_uint32 (n_elements_of world) = 1%N) by (vm_compute; reflexivity).
  rewrite Hn in Hlt. simpl. lia.
Defined.

Lemma handle_shows_last_object_witness :
  exists b w' objects name vo,
    handle world (1, 1)%Z = Some (b, w') /\
    enumerate (m_objects world) = objects ++ [(name, vo)] /\
    b = true /\ draw_object_async (prepare world (1, 1)%Z) vo = Some w'.
Proof.
  assert (Hruns : match handle world (1, 1)%Z with Some _ => true | None => false end = true)
    by (vm_compute; reflexivity).
  assert (Hlen : length (enumerate (m_objects world)) = 2) by (vm_compute; reflexivity).
  destruct (handle world (1, 1)%Z) as [[b w']|] eqn:E; [|discriminate Hruns].
  destruct (enumerate (m_objects world)) as [|first [|[name vo] [|third rest]]] eqn:Eenum;
    try discriminate Hlen.
  exists b, w', [first], name, vo.
  split; [reflexivity|]. split; [reflexivity|].
  apply (handle_shows_last_object world w' (1, 1)%Z b [first] name vo E Eenum).
Defined.

Lemma create_object_adds_fresh_entry_witness :
  (N.of_nat (size (m_objects crowded)) + 1 < 2 ^ 64)%N /\
  size (m_objects crowded) < 3 /\
  exists (k : N) (w' : SyntheticWorld),
    let name := candidate (path_filename "floor") k in
    create_object 3 "floor" crowded = Some w' /\
    (k <= N.of_nat (size (m_objects crowded)) + 1)%N /\
    m_objects crowded !! name = None /\
    (forall j, (j < k)%N -> m_objects crowded !! candidate (path_filename "floor") j <> None) /\
    m_objects w' = <[name := load_virtual_obj "floor" name]> (m_objects crowded) /\
    m_resolution w' = m_resolution crowded /\ m_camera w' = m_camera crowded /\
    m_render_buffer_view w' = m_render_buffer_view crowded.
Proof.
  assert (H1 : (N.of_nat (size (m_objects crowded)) + 1 < 2 ^ 64)%N)
    by (vm_compute; reflexivity).
  assert (H2 : size (m_objects crowded) < 3) by (vm_compute; lia).
  split; [exact H1|]. split; [exact H2|].
  apply (create_object_adds_fresh_entry 3 "floor" crowded H1 H2).
Defined.

(** The third "floor" is stored under the name "floor 2". *)
Example create_object_third_floor :
  match create_object 3 "floor" crowded with
  | Some w' => bool_decide (is_Some (m_objects w' !! "floor 2"))
  | None => false
  end = true.
Proof. vm_compute. reflexivity. Qed.

Lemma debug_draw_rays_colours_witness :
  (thread_index thread0 < 1)%N /\
  exists fb',
    Debug.debug_draw_rays thread0 1 1 1 [eye] [down] blank = Some fb' /\
    exists rd c,
      [down] !! N.to_nat (thread_index thread0) = Some rd /\
      c = mk_vec4 (SFabs (v3x rd)) (SFabs (v3y rd)) (SFabs (v3z rd)) (Binary32.of_Z 1) /\
      rgba fb' = <[N.to_nat (thread_index thread0) := c]> (rgba blank) /\
      N.to_nat (thread_index thread0) < length (rgba blank) /\
      depth fb' = depth blank /\
      Binary32.ltb (v4x c) (Binary32.of_Z 0) = false /\
      Binary32.ltb (v4y c) (Binary32.of_Z 0) = false /\
      Binary32.ltb (v4z c) (Binary32.of_Z 0) = false.
Proof.
  assert (Hlt : (thread_index thread0 < 1)%N) by (vm_compute; reflexivity).
  split; [exact Hlt|].
  destruct (Debug.debug_draw_rays thread0 1 1 1 [eye] [down] blank) as [fb'|] eqn:E;
    [|vm_compute in E; discriminate].
  exists fb'. split; [reflexivity|].
  apply (debug_draw_rays_colours thread0 1 1 1 [eye] [down] blank fb' Hlt E).
Defined.

Lemma debug_paint_square_witness :
  (1 < 2)%N /\ thread_index thread3 = (1 * 2 + 1)%N /\ (thread_index thread3 < 4)%N /\
  N.to_nat (thread_index thread3) < length (rgba blank4) /\
  N.to_nat (thread_index thread3) < length (depth blank4) /\
  Debug.debug_paint thread3 4 2 2 blank4 =
  Some {| rgba := <[N.to_nat (thread_index thread3) :=
                     mk_vec4 (Binary32.div (Debug.of_uint32 1) (Debug.of_uint32 2))
                             (Binary32.div (Debug.of_uint32 1) (Debug.of_uint32 2))
                             (Binary32.of_Z 0) (Binary32.of_Z 1)]> (rgba blank4);
          depth := <[N.to_nat (thread_index thread3) := Debug.lit_0_5]> (depth blank4) |}.
Proof.
  assert (H1 : (1 < 2)%N) by reflexivity.
  assert (H2 : thread_index thread3 = (1 * 2 + 1)%N) by reflexivity.
  assert (H3 : (thread_index thread3 < 4)%N) by reflexivity.
  assert (H4 : N.to_nat (thread_index thread3) < length (rgba blank4)) by (vm_compute; lia).
  assert (H5 : N.to_nat (thread_index thread3) < length (depth blank4)) by (vm_compute; lia).
  repeat (split; [assumption|]).
  apply (debug_paint_square thread3 4 2 1 1 blank4 H1 H2 H3 H4 H5).
Defined.

Lemma closest_distance_ignores_order_witness :
  [floor_tri; shelf_tri] ≡ₚ [shelf_tri; floor_tri] /\
  exists c1 c2,
    closest_loop (length [floor_tri; shelf_tri]) 0 [floor_tri; shelf_tri] eye down
      {| dt := MAX_RT_DIST; hit_normal := None |} = Some c1 /\
    closest_loop (length [shelf_tri; floor_tri]) 0 [shelf_tri; floor_tri] eye down
      {| dt := MAX_RT_DIST; hit_normal := None |} = Some c2 /\
    ((dt c1 = MAX_RT_DIST /\ dt c2 = MAX_RT_DIST /\
      hit_normal c1 = None /\ hit_normal c2 = None) \/
     (valid_t (dt c1) = true /\ valid_t (dt c2) = true /\
      Binary32.leb (dt c1) (dt c2) = true /\ Binary32.leb (dt c2) (dt c1) = true)).
Proof.
  assert (Hperm : [floor_tri; shelf_tri] ≡ₚ [shelf_tri; floor_tri]) by apply perm_swap.
  split; [exact Hperm|].
  apply (closest_distance_ignores_order [floor_tri; shelf_tri] [shelf_tri; floor_tri]
           eye down Hperm).
Defined.

End WorldSceneFacts.

Lemma save_image_rows_are_aligned_witness :
  (0 <= 1279)%Z /\ (0 <= 720)%Z /\
  (3 * 1279 + 3 < 2 ^ 31)%Z /\ ((3 * 1279 + 3) * 720 < 2 ^ 31)%Z /\
  (0 <= m_img_count Session.display <= m_img_count_max Session.display)%Z /\
  (m_img_count_max Session.display < 2 ^ 31 - 1)%Z /\
  exists d' p' image,
    save_image 1279 720 "out" Session.display Session.process = (true, d', p') /\
    files p' = files Session.process ++ [image] /\
    img_width image = 1279%Z /\ img_height image = 720%Z /\ img_channels image = 3%Z /\
    (img_stride image mod 4 = 0)%Z /\
    (3 * 1279 <= img_stride image < 3 * 1279 + 4)%Z /\
    m_writing_buffer_size d' = (img_stride image * 720)%Z.
Proof.
  assert (H1 : (0 <= 1279)%Z) by lia.
  assert (H1' : (0 <= 720)%Z) by lia.
  assert (H2 : (3 * 1279 + 3 < 2 ^ 31)%Z) by lia.
  assert (H3 : ((3 * 1279 + 3) * 720 < 2 ^ 31)%Z) by lia.
  assert (H4 : (0 <= m_img_count Session.display <= m_img_count_max Session.display)%Z)
    by (simpl; lia).
  assert (H5 : (m_img_count_max Session.display < 2 ^ 31 - 1)%Z) by (simpl; lia).
  split; [exact H1|]. split; [exact H1'|]. split; [exact H2|]. split; [exact H3|].
  split; [exact H4|]. split; [exact H5|].
  apply (save_image_rows_are_aligned 1279 720 "out" Session.display Session.process
           H1 H1' H2 H3 H4 H5).
Defined.

Lemma recording_writes_numbered_files_witness :
  m_img_count Session.display = 0%Z /\
  (0 <= m_img_count_max Session.display < 2 ^ 31 - 1)%Z /\
  Z.to_nat (m_img_count_max Session.display) + 1 < 10 /\
  let names :=
    map (fun k => output_path "out" (Z.of_nat k))
        (seq 1 (Z.to_nat (m_img_count_max Session.display) + 1)) in
  exists d' p',
    render_loop 10 true false true 1280 720 "out" Session.display Session.process =
      Some (Z.to_nat (m_img_count_max Session.display) + 2, d', p') /\
    map img_path (files p') = map img_path (files Session.process) ++ names /\
    NoDup names /\
    m_img_count d' = (m_img_count_max Session.display + 1)%Z.
Proof.
  assert (H1 : m_img_count Session.display = 0%Z) by reflexivity.
  assert (H2 : (0 <= m_img_count_max Session.display < 2 ^ 31 - 1)%Z) by (simpl; lia).
  assert (H3 : Z.to_nat (m_img_count_max Session.display) + 1 < 10) by (simpl; lia).
  split; [exact H1|]. split; [exact H2|]. split; [exact H3|].
  apply (recording_writes_numbered_files false true 1280 720 "out" Session.display
           Session.process 10 H1 H2 H3).
Defined.

Lemma playback_runs_max_plus_one_frames_witness :
  m_img_count Session.display = 0%Z /\
  (m_img_count_max Session.display < 2 ^ 31 - 1)%Z /\
  Z.to_nat (m_img_count_max Session.display) < 10 /\
  render_loop 10 false true true 1280 720 "out" Session.display Session.process =
    Some (Z.to_nat (m_img_count_max Session.display) + 1,
          set_img_count (Z.max 0 (m_img_count_max Session.display) + 1) Session.display,
          Session.process).
Proof.
  assert (H1 : m_img_count Session.display = 0%Z) by reflexivity.
  assert (H2 : (m_img_count_max Session.display < 2 ^ 31 - 1)%Z) by (simpl; lia).
  assert (H3 : Z.to_nat (m_img_count_max Session.display) < 10) by (simpl; lia).
  split; [exact H1|]. split; [exact H2|]. split; [exact H3|].
  apply (playback_runs_max_plus_one_frames true 1280 720 "out" Session.display
           Session.process 10 H1 H2 H3).
Defined.

Lemma init_window_failure_keeps_window_witness :
  m_is_init Session.process = false /\
  glfwInit_ok FailingSession.host = true /\
  created_window FailingSession.host = Some 7%Z /\
  (gl_loader_ok FailingSession.host = false \/
   (gl_version_major FailingSession.host < 3)%Z \/
   (gl_version_major FailingSession.host = 3 /\ gl_version_minor FailingSession.host < 1)%Z) /\
  exists what d' p',
    init_window FailingSession.host 1280 720 "../main.frag" Session.display Session.process =
      (Thrown what, d', p') /\
    d' = set_window (Some 7%Z) Session.display /\
    m_is_init p' = false /\
    destroy d' p' = (d', p') /\
    forall h2 w2, working_host h2 w2 ->
      exists d2 p2,
        init_window h2 1280 720 "../main.frag" d' p' = (Returned (Some w2), d2, p2) /\
        m_glfw_window d2 = Some w2 /\ m_is_init p2 = true.
Proof.
  assert (H1 : m_is_init Session.process = false) by reflexivity.
  assert (H2 : glfwInit_ok FailingSession.host = true) by reflexivity.
  assert (H3 : created_window FailingSession.host = Some 7%Z) by reflexivity.
  assert (H4 : gl_loader_ok FailingSession.host = false \/
               (gl_version_major FailingSession.host < 3)%Z \/
               (gl_version_major FailingSession.host = 3 /\
                gl_version_minor FailingSession.host < 1)%Z) by (left; reflexivity).
  split; [exact H1|]. split; [exact H2|]. split; [exact H3|]. split; [exact H4|].
  apply (init_window_failure_keeps_window FailingSession.host 1280 720 "../main.frag"
           Session.display Session.process 7 H1 H2 H3 H4).
Defined.

Lemma blit_triangle_covers_viewport_witness :
  (-1 <= 0 <= 1)%R /\ (-1 <= 0 <= 1)%R /\
  let vertex (i : Z) : vec2 R * vec4 R := shader_vert i in
  (exists l0 l1 l2 : R,
     0 <= l0 /\ 0 <= l1 /\ 0 <= l2 /\ l0 + l1 + l2 = 1 /\
     l0 * v4x (snd (vertex 0%Z)) + l1 * v4x (snd (vertex 1%Z)) + l2 * v4x (snd (vertex 2%Z)) = 0 /\
     l0 * v4y (snd (vertex 0%Z)) + l1 * v4y (snd (vertex 1%Z)) + l2 * v4y (snd (vertex 2%Z)) = 0)%R /\
  (forall l0 l1 l2 : R,
     l0 + l1 + l2 = 1 ->
     l0 * v4x (snd (vertex 0%Z)) + l1 * v4x (snd (vertex 1%Z)) + l2 * v4x (snd (vertex 2%Z)) = 0 ->
     l0 * v4y (snd (vertex 0%Z)) + l1 * v4y (snd (vertex 1%Z)) + l2 * v4y (snd (vertex 2%Z)) = 0 ->
     let u := l0 * v2x (fst (vertex 0%Z)) + l1 * v2x (fst (vertex 1%Z)) + l2 * v2x (fst (vertex 2%Z)) in
     let v := l0 * v2y (fst (vertex 0%Z)) + l1 * v2y (fst (vertex 1%Z)) + l2 * v2y (fst (vertex 2%Z)) in
     u = (0 + 1) / 2 /\ v = (0 + 1) / 2 /\ 0 <= u <= 1 /\ 0 <= v <= 1)%R /\
  (forall i, v4z (snd (vertex i)) = 0 /\ v4w (snd (vertex i)) = 1)%R.
Proof.
  assert (H0 : (-1 <= 0 <= 1)%R) by lra.
  split; [exact H0|]. split; [exact H0|].
  apply (blit_triangle_covers_viewport 0 0 H0 H0).
Defined.

Module StagingFramesFacts.
Import StagingScene.

Lemma redraw_flag_is_never_cleared_witness :
  let e := engine true false [clean 1] [clean 2] [clean 3] in
  m_testbed e = Some {| tb_resets := 0 |} /\ m_is_dirty e = true /\
  m_is_dirty (Nat.iter 3 update_world_objects e) = true /\
  m_testbed (Nat.iter 3 update_world_objects e) =
    Some {| tb_resets := 3 + tb_resets {| tb_resets := 0 |} |} /\
  rt_resets (m_raytracer (Nat.iter 3 update_world_objects e)) =
    3 + rt_resets (m_raytracer e).
Proof.
  intros e.
  assert (H1 : m_testbed e = Some {| tb_resets := 0 |}) by reflexivity.
  assert (H2 : m_is_dirty e = true) by reflexivity.
  split; [exact H1|]. split; [exact H2|].
  apply (redraw_flag_is_never_cleared e {| tb_resets := 0 |} 3 H1 H2).
Defined.

Lemma staging_settles_after_one_frame_witness :
  let e := engine false false [dirty 1] [dirty 2] [clean 3] in
  m_enable_animations e = false /\
  let e1 := update_world_objects e in
  let e2 := update_world_objects e1 in
  uploads e2 = uploads e1 /\
  m_objects e2 = m_objects e1 /\ m_materials e2 = m_materials e1 /\
  m_lights e2 = m_lights e1 /\
  d_world e2 = d_world e1 /\ d_materials e2 = d_materials e1 /\ d_lights e2 = d_lights e1.
Proof.
  intros e.
  assert (H1 : m_enable_animations e = false) by reflexivity.
  split; [exact H1|].
  apply (staging_settles_after_one_frame e H1).
Defined.

Lemma staging_keeps_device_mirrored_witness :
  let e := engine false true [dirty 1] [clean 2] [clean 3] in
  mirrored e /\ mirrored (update_world_objects e).
Proof.
  intros e.
  assert (H1 : mirrored e) by (repeat split; reflexivity).
  split; [exact H1|].
  apply (staging_keeps_device_mirrored e H1).
Defined.

End StagingFramesFacts.

Lemma gpu_draw_object_defined_iff_witness :
  (thread_index Scene.thread0 < 1)%N /\
  N.to_nat (thread_index Scene.thread0) < length (rgba Scene.blank) /\
  N.to_nat (thread_index Scene.thread0) < length (depth Scene.blank) /\
  [Scene.eye] !! N.to_nat (thread_index Scene.thread0) = Some Scene.eye /\
  [Scene.down] !! N.to_nat (thread_index Scene.thread0) = Some Scene.down /\
  (is_Some (gpu_draw_object Scene.thread0 1 1 1 3 [Scene.eye] [Scene.down] Scene.stack
              Scene.sun_above Scene.blank) <->
   N.to_nat 3 <= length Scene.stack).
Proof.
  assert (H1 : (thread_index Scene.thread0 < 1)%N) by reflexivity.
  assert (H2 : N.to_nat (thread_index Scene.thread0) < length (rgba Scene.blank))
    by (vm_compute; lia).
  assert (H3 : N.to_nat (thread_index Scene.thread0) < length (depth Scene.blank))
    by (vm_compute; lia).
  assert (H4 : [Scene.eye] !! N.to_nat (thread_index Scene.thread0) = Some Scene.eye)
    by reflexivity.
  assert (H5 : [Scene.down] !! N.to_nat (thread_index Scene.thread0) = Some Scene.down)
    by reflexivity.
  repeat (split; [assumption|]).
  apply (gpu_draw_object_defined_iff Scene.thread0 1 1 1 3 [Scene.eye] [Scene.down]
           Scene.stack Scene.sun_above Scene.blank Scene.eye Scene.down H1 H2 H3 H4 H5).
Defined.

Lemma destroy_acts_on_the_shared_flag_witness :
  let owner := snd (fst Session.started) in
  let p := snd Session.started in
  m_is_init p = true /\
  let p' := snd (destroy Session.display p) in
  m_is_init p' = false /\
  calls p' =
    calls p ++ [ImGuiImplOpenGL3Shutdown; ImGuiImplGlfwShutdown; ImGuiDestroyContext;
                GlfwDestroyWindow (m_glfw_window Session.display); GlfwTerminate] /\
  destroy owner p' = (owner, p').
Proof.
  intros owner p.
  assert (H1 : m_is_init p = true) by reflexivity.
  split; [exact H1|].
  apply (destroy_acts_on_the_shared_flag owner Session.display p H1).
Defined.
